(** * Duplicate detection of photosort: model and verification

    A shallow embedding of [photosort/duplicates.py]: the candidate objects
    with their lazily filled caches, duplicate groups, and the detector
    (Hamming distance on hex fingerprints, anchor clustering, grouping by
    MD5 digest, statistics), followed by the properties proved about them. *)

From Stdlib Require Import ZArith NArith Ascii String List Bool Lia Floats.
From stdpp Require Import base functions gmap sets list strings.

#[local] Set Warnings "-inexact-float,-notation-for-abbreviation,-clear-no-such-hyp".

Local Open Scope string_scope.
Local Open Scope Z_scope.

(** ** Python values and builtins used by the module *)

(** Exceptions that the modelled code raises or catches. *)
Inductive Exception : Type :=
| ValueError (msg : string)
| TypeError (msg : string)
| ZeroDivisionError (msg : string)
| OverflowError (msg : string).

(** Outcome of a call: a returned value or a raised exception. *)
Inductive Result (A : Type) : Type :=
| Ok (a : A)
| Raise (e : Exception).
Arguments Ok {A} a.
Arguments Raise {A} e.

Definition is_ValueError (e : Exception) : bool :=
  match e with ValueError _ => true | _ => false end.

Definition is_TypeError (e : Exception) : bool :=
  match e with TypeError _ => true | _ => false end.

(** [try: body  except classes: handler]. *)
Definition try_except {A} (body : Result A) (classes : Exception -> bool)
    (handler : Result A) : Result A :=
  match body with
  | Ok a => Ok a
  | Raise e => if classes e then handler else Raise e
  end.

(** Strings are sequences of code points below 256 (Rocq's [ascii]). *)
Definition code (c : ascii) : Z := Z.of_N (N_of_ascii c).

(** Truth value of an [Optional[str]]: [None] and the empty string are falsy. *)
Definition truthy (o : option string) : bool :=
  match o with
  | Some (String _ _) => true
  | _ => false
  end.

(** *** [int(s, 16)]

    CPython's [PyLong_FromString] for base 16: white space is skipped on both
    sides, one sign is allowed, then an optional [0x]/[0X] prefix (and one
    underscore after it), then hexadecimal digits with single underscores
    between them.  Of the code points below 256 the white space is
    9..13, 32, and 0x85 and 0xA0 (which the conversion to ASCII turns into
    spaces). *)
Definition is_space (c : ascii) : bool :=
  let n := code c in
  ((9 <=? n) && (n <=? 13)) || (n =? 32) || (n =? 133) || (n =? 160).

Definition digit_value (c : ascii) : option Z :=
  let n := code c in
  if (48 <=? n) && (n <=? 57) then Some (n - 48)
  else if (97 <=? n) && (n <=? 102) then Some (n - 87)
  else if (65 <=? n) && (n <=? 70) then Some (n - 55)
  else None.

Fixpoint skip_space (s : string) : string :=
  match s with
  | String c rest => if is_space c then skip_space rest else s
  | EmptyString => s
  end.

(** The digit loop of [long_from_binary_base]: returns the value read and the
    rest of the string, or [None] on a doubled or trailing underscore. *)
Fixpoint scan_digits (s : string) (prev_underscore : bool) (acc : Z)
    : option (Z * string) :=
  match s with
  | String c rest =>
      if Ascii.eqb c "_" then
        if prev_underscore then None else scan_digits rest true acc
      else
        match digit_value c with
        | Some d => scan_digits rest false (16 * acc + d)
        | None => if prev_underscore then None else Some (acc, s)
        end
  | EmptyString => if prev_underscore then None else Some (acc, s)
  end.

Definition strip_sign (s : string) : Z * string :=
  match s with
  | String "+" rest => (1, rest)
  | String "-" rest => (-1, rest)
  | _ => (1, s)
  end.

Definition strip_prefix (s : string) : string :=
  match s with
  | String "0" (String x rest) =>
      if Ascii.eqb x "x" || Ascii.eqb x "X" then
        match rest with
        | String "_" rest' => rest'
        | _ => rest
        end
      else s
  | _ => s
  end.

Definition PyLong_FromString (s : string) : option Z :=
  let '(sign, s1) := strip_sign (skip_space s) in
  let start := strip_prefix s1 in
  match start with
  | String "_" _ => None
  | _ =>
      match scan_digits start false 0 with
      | None => None
      | Some (z, rest) =>
          if (String.length rest =? String.length start)%nat then None
          else
            match skip_space rest with
            | EmptyString => Some (sign * z)
            | _ => None
            end
      end
  end.

Definition py_int16 (s : string) : Result Z :=
  match PyLong_FromString s with
  | Some z => Ok z
  | None => Raise (ValueError "invalid literal for int() with base 16")
  end.

(** *** [bin(z).count('1')] *)

Fixpoint bin_digits (p : positive) (acc : string) : string :=
  match p with
  | xH => String "1" acc
  | xO q => bin_digits q (String "0" acc)
  | xI q => bin_digits q (String "1" acc)
  end.

(** [bin(z)]: the sign, the prefix [0b] and the binary digits of [|z|]. *)
Definition bin (z : Z) : string :=
  match z with
  | Z0 => "0b0"
  | Zpos p => "0b" ++ bin_digits p ""
  | Zneg p => "-0b" ++ bin_digits p ""
  end.

(** [s.count(c)] for a one-character [c]. *)
Fixpoint str_count (s : string) (c : ascii) : Z :=
  match s with
  | EmptyString => 0
  | String x rest => (if Ascii.eqb x c then 1 else 0) + str_count rest c
  end.

(** *** [s.lower()]

    On code points below 256 the letters with a lower-case partner are
    [A]..[Z] and 0xC0..0xDE except the multiplication sign 0xD7. *)
Definition lower_char (c : ascii) : ascii :=
  let n := code c in
  if ((65 <=? n) && (n <=? 90))
     || ((192 <=? n) && (n <=? 222) && negb (n =? 215))
  then ascii_of_N (N_of_ascii c + 32)
  else c.

Fixpoint py_lower (s : string) : string :=
  match s with
  | EmptyString => EmptyString
  | String c rest => String (lower_char c) (py_lower rest)
  end.

(** [sum(xs)]: left to right from 0. *)
Definition py_sum (xs : list Z) : Z := fold_left Z.add xs 0.

(** [repr] of a list of plain identifiers, as printed in an f-string. *)
Definition py_repr_names (names : list string) : string :=
  "[" ++ String.concat ", " (List.map (fun n => "'" ++ n ++ "'") names) ++ "]".

(** [min(a, b)] on floats: [b] is taken only when [b < a]. *)
Definition py_min (a b : float) : float :=
  if PrimFloat.ltb b a then b else a.

(** A number as a dictionary holds it: an [int] or a [float]. *)
Inductive Number : Type :=
| PyInt (z : Z)
| PyFloat (x : float).

(** [a / b] on integers: the quotient of the two integers rounded once, to
    the nearest binary64 float (ties to even); [OverflowError] when it is
    beyond the range of a float, a zero with the sign of [b] when [a] is
    0. *)
Definition int_truediv (a b : Z) : Result float :=
  match b with
  | Z0 => Raise (ZeroDivisionError "division by zero")
  | _ =>
      match a with
      | Z0 => Ok (if b <? 0 then (-0)%float else 0%float)
      | _ =>
          match SFdiv prec emax
                  (S754_finite (a <? 0) (Z.to_pos (Z.abs a)) 0)
                  (S754_finite (b <? 0) (Z.to_pos (Z.abs b)) 0) with
          | S754_infinity _ =>
              Raise (OverflowError
                       "integer division result too large for a float")
          | quotient => Ok (SF2Prim quotient)
          end
      end
  end.

(** [enumerate(l, start)] *)
Definition enumerate {A} (l : list A) (start : nat) : list (nat * A) :=
  zip (seq start (length l)) l.

(** A Hamming distance: a bit count, or [float('inf')]. *)
Inductive Distance : Type :=
| Bits (n : Z)
| Infinite.

(** [distance <= threshold] for an integer threshold. *)
Definition distance_le (d : Distance) (threshold : Z) : bool :=
  match d with
  | Bits n => n <=? threshold
  | Infinite => false
  end.

#[global] Instance Result_ret : MRet Result := fun _ a => Ok a.
#[global] Instance Result_bind : MBind Result := fun _ _ k r =>
  match r with
  | Ok a => k a
  | Raise e => Raise e
  end.

(** ** The environment

    What the module takes from outside: the optional imports, the image
    decoder, the file system and MD5. *)
Record Env : Type := {
  PIL_AVAILABLE : bool;
  IMAGEHASH_AVAILABLE : bool;
  (** [hasattr(imagehash, 'colorhash')] *)
  imagehash_has_colorhash : bool;
  (** [Image.open(path).size]; [None] when opening raises. *)
  Image_size : string -> option (Z * Z);
  (** [open(path, 'rb').read()]; [None] when it raises. *)
  read_bytes : string -> option (list Byte.byte);
  (** [hashlib.md5(data).hexdigest()] *)
  md5_hexdigest : list Byte.byte -> string;
}.

(** Objects are referred to by their identity. *)
Abbreviation ref := nat.

(** The four quality metrics (the dictionary of [_calculate_quality_metrics]). *)
Record QualityMetrics : Type := {
  sharpness : float;
  brightness : float;
  contrast : float;
  color_richness : float;
}.

(** ** [class DuplicateCandidate] *)
Module DuplicateCandidate.

(** The attributes of one candidate object. *)
Record t : Type := mk {
  file_path : string;
  file_size : Z;
  image_hash : option string;
  md5_hash : option string;
  _image_dimensions : option (Z * Z);
  _quality_metrics : option QualityMetrics;
}.

(** A path object is held as its string, [str(path)]: [__init__] is given
    the path that [Path(file_path)] makes of its argument, which for a path
    that [glob] yields is that path itself. *)
Definition __init__ (file_path : string) (file_size : Z)
    (image_hash : option string) : t :=
  mk file_path file_size image_hash None None None.

Definition set_md5_hash (c : t) (v : option string) : t :=
  mk (file_path c) (file_size c) (image_hash c) v
     (_image_dimensions c) (_quality_metrics c).

Definition set_image_dimensions (c : t) (v : option (Z * Z)) : t :=
  mk (file_path c) (file_size c) (image_hash c) (md5_hash c)
     v (_quality_metrics c).

Definition set_quality_metrics (c : t) (v : option QualityMetrics) : t :=
  mk (file_path c) (file_size c) (image_hash c) (md5_hash c)
     (_image_dimensions c) v.

End DuplicateCandidate.

(** The store of candidate objects: every method reads its [self] from it
    and writes the caches back to it. *)
Abbreviation heap := (ref -> DuplicateCandidate.t).

Module CandidateMethods.
Import DuplicateCandidate.

Section WithEnv.
Context (env : Env).

(** Property [image_dimensions]. *)
Definition image_dimensions (h : heap) (self : ref) : option (Z * Z) * heap :=
  match _image_dimensions (h self) with
  | None =>
      if PIL_AVAILABLE env then
        let size :=
          match Image_size env (file_path (h self)) with
          | Some size => size
          | None => (0, 0)
          end in
        (Some size, <[self := set_image_dimensions (h self) (Some size)]> h)
      else (None, h)
  | Some size => (Some size, h)
  end.

(** Property [image_area].  A pair is truthy whatever its components; the
    two reads of the property that follow the test return the same pair
    and change nothing (lemma [image_dimensions_reread]). *)
Definition image_area (h : heap) (self : ref) : Z * heap :=
  let '(dims, h') := image_dimensions h self in
  match dims with
  | Some (width, height) => (width * height, h')
  | None => (0, h')
  end.

(** Method [get_md5_hash]. *)
Definition get_md5_hash (h : heap) (self : ref) : string * heap :=
  match md5_hash (h self) with
  | None =>
      let digest :=
        match read_bytes env (file_path (h self)) with
        | Some data => md5_hexdigest env data
        | None => ""
        end in
      (digest, <[self := set_md5_hash (h self) (Some digest)]> h)
  | Some digest => (digest, h)
  end.

End WithEnv.

(** Method [_calculate_quality_score]. *)
Definition _calculate_quality_score (metrics : QualityMetrics) : float :=
  (let sharpness_norm := py_min (sharpness metrics / 50.0) 1.0 in
   let contrast_norm := py_min (contrast metrics / 100.0) 1.0 in
   let brightness := brightness metrics in
   let brightness_norm :=
     if brightness <? 50 then brightness / 50.0
     else if 200 <? brightness then (255 - brightness) / 55.0
     else 1.0 in
   let color_norm := py_min (color_richness metrics / 8.0) 1.0 in
   let quality_score :=
     0.40 * sharpness_norm + 0.25 * contrast_norm
     + 0.15 * brightness_norm + 0.20 * color_norm in
   quality_score)%float.

End CandidateMethods.

(** ** [class DuplicateGroup] *)
Module DuplicateGroup.
Import DuplicateCandidate CandidateMethods.

(** The attributes of a group object; the members are references. *)
Record t : Type := mk {
  candidates : list ref;
  _best_candidate : option ref;
}.

Definition __init__ (candidates : list ref) : t := mk candidates None.

Definition set_best_candidate (self : t) (v : option ref) : t :=
  mk (candidates self) v.

(** Property [size]. *)
Definition size (self : t) : Z := Z.of_nat (length (candidates self)).

(** [k1 > k2] on pairs of integers: the first components that differ decide. *)
Definition key_gt (k1 k2 : Z * Z) : bool :=
  if negb (fst k1 =? fst k2) then fst k2 <? fst k1
  else if negb (snd k1 =? snd k2) then snd k2 <? snd k1
  else false.

Section WithEnv.
Context (env : Env).

(** [lambda c: (c.file_size, c.image_area)] *)
Definition sort_key (h : heap) (c : ref) : (Z * Z) * heap :=
  let size := file_size (h c) in
  let '(area, h') := image_area env h c in
  ((size, area), h').

(** The loop of [max(items, key=...)] once a first item is held: a later
    item replaces the held one only when its key is strictly greater. *)
Fixpoint max_loop (items : list ref) (maxitem : ref) (maxval : Z * Z)
    (h : heap) : ref * heap :=
  match items with
  | [] => (maxitem, h)
  | item :: rest =>
      let '(val, h') := sort_key h item in
      if key_gt val maxval then max_loop rest item val h'
      else max_loop rest maxitem maxval h'
  end.

Definition py_max (items : list ref) (h : heap) : Result (ref * heap) :=
  match items with
  | [] => Raise (ValueError "max() arg is an empty sequence")
  | item :: rest =>
      let '(val, h') := sort_key h item in
      Ok (max_loop rest item val h')
  end.

(** Property [best_candidate]: returns the member, the group with its cache
    filled, and the store. *)
Definition best_candidate (self : t) (h : heap) : Result (ref * t * heap) :=
  match _best_candidate self with
  | None =>
      '(best, h') ← py_max (candidates self) h;
      Ok (best, set_best_candidate self (Some best), h')
  | Some best => Ok (best, self, h)
  end.

(** Property [duplicates_to_remove]; [c != best] compares identities. *)
Definition duplicates_to_remove (self : t) (h : heap)
    : Result (list ref * t * heap) :=
  '(best, self', h') ← best_candidate self h;
  Ok (filter (λ c, c ≠ best) (candidates self'), self', h').

(** Method [get_wasted_space]. *)
Definition get_wasted_space (self : t) (h : heap) : Result (Z * t * heap) :=
  '(dups, self', h') ← duplicates_to_remove self h;
  Ok (py_sum (map (λ c, file_size (h' c)) dups), self', h').

End WithEnv.

(** Method [get_total_size]. *)
Definition get_total_size (self : t) (h : heap) : Z :=
  py_sum (map (λ c, file_size (h c)) (candidates self)).

End DuplicateGroup.

(** The dictionary returned by [get_statistics].  The percentage is a
    [float] when the total size is positive and the [int] 0 otherwise. *)
Record Statistics : Type := {
  duplicate_groups : Z;
  total_files_in_groups : Z;
  duplicate_files : Z;
  original_files : Z;
  total_size_bytes : Z;
  wasted_space_bytes : Z;
  space_savings_percent : Number;
}.

(** A [Dict[str, List[DuplicateCandidate]]] in insertion order. *)
Definition dict_get (d : list (string * list ref)) (k : string)
    : option (list ref) :=
  snd <$> List.find (λ kv, String.eqb (fst kv) k) d.

(** [d[k] = v]: replaces the value of a key that is present, in place, and
    appends a key that is new. *)
Fixpoint dict_set (d : list (string * list ref)) (k : string) (v : list ref)
    : list (string * list ref) :=
  match d with
  | [] => [(k, v)]
  | (k', v') :: rest =>
      if String.eqb k' k then (k', v) :: rest
      else (k', v') :: dict_set rest k v
  end.

Definition dict_values (d : list (string * list ref)) : list (list ref) :=
  map snd d.

(** [if k not in d: d[k] = []] followed by [d[k].append(c)]. *)
Definition dict_append (d : list (string * list ref)) (k : string) (c : ref)
    : list (string * list ref) :=
  let d1 := if negb (bool_decide (is_Some (dict_get d k)))
            then dict_set d k [] else d in
  dict_set d1 k (default [] (dict_get d1 k) ++ [c]).

(** ** [class DuplicateDetector] *)
Module DuplicateDetector.
Import DuplicateCandidate CandidateMethods.

Record t : Type := mk {
  algorithm : string;
  threshold : Z;
  (** the keys of [available_algorithms], in insertion order *)
  available_algorithms : list string;
}.

(** Method [_get_available_algorithms] (the names; the values are the
    hashing functions of [imagehash]). *)
Definition _get_available_algorithms (env : Env) : list string :=
  if IMAGEHASH_AVAILABLE env then
    ["dhash"; "phash"; "ahash"; "whash"]
    ++ (if imagehash_has_colorhash env then ["colorhash"] else [])
  else [].

Definition __init__ (env : Env) (algorithm : string) (threshold : Z)
    : Result t :=
  let self_algorithm := py_lower algorithm in
  let self_available := _get_available_algorithms env in
  if negb (bool_decide (self_algorithm ∈ self_available)) then
    Raise (ValueError ("Algorithm '" ++ algorithm ++ "' not available. "
                       ++ "Available: " ++ py_repr_names self_available))
  else Ok (mk self_algorithm threshold self_available).

(** Method [calculate_hamming_distance]. *)
Definition calculate_hamming_distance (self : t) (hash1 hash2 : string)
    : Result Distance :=
  if negb (truthy (Some hash1)) || negb (truthy (Some hash2))
     || negb (String.length hash1 =? String.length hash2)%nat
  then Ok Infinite
  else
    try_except
      (int1 ← py_int16 hash1;
       int2 ← py_int16 hash2;
       let xor_result := Z.lxor int1 int2 in
       Ok (Bits (str_count (bin xor_result) "1")))
      (λ e, is_ValueError e || is_TypeError e)
      (Ok Infinite).

(** Method [are_similar]. *)
Definition are_similar (self : t) (hash1 hash2 : string) : Result bool :=
  distance ← calculate_hamming_distance self hash1 hash2;
  Ok (distance_le distance (threshold self)).

(** The fingerprint of a candidate that a loop of [find_duplicates] does
    not skip: [if i in processed or not candidate.image_hash: continue]. *)
Definition unskipped (processed : gset nat) (i : nat) (c : DuplicateCandidate.t)
    : option string :=
  if bool_decide (i ∈ processed) || negb (truthy (image_hash c)) then None
  else image_hash c.

(** The inner loop of [find_duplicates] over
    [enumerate(candidates[i + 1:], i + 1)]. *)
Fixpoint find_similar (self : t) (h : heap) (hash1 : string)
    (items : list (nat * ref)) (group_candidates : list ref)
    (processed : gset nat) : Result (list ref * gset nat) :=
  match items with
  | [] => Ok (group_candidates, processed)
  | (j, candidate2) :: rest =>
      match unskipped processed j (h candidate2) with
      | None => find_similar self h hash1 rest group_candidates processed
      | Some hash2 =>
          similar ← are_similar self hash1 hash2;
          if similar : bool then
            find_similar self h hash1 rest
              (group_candidates ++ [candidate2]) ({[j]} ∪ processed)
          else find_similar self h hash1 rest group_candidates processed
      end
  end.

(** The outer loop of [find_duplicates] over [enumerate(candidates)]. *)
Fixpoint find_groups (self : t) (h : heap) (candidates : list ref)
    (items : list (nat * ref)) (groups : list DuplicateGroup.t)
    (processed : gset nat) : Result (list DuplicateGroup.t) :=
  match items with
  | [] => Ok groups
  | (i, candidate1) :: rest =>
      match unskipped processed i (h candidate1) with
      | None => find_groups self h candidates rest groups processed
      | Some hash1 =>
          '(group_candidates, processed') ←
            find_similar self h hash1
              (enumerate (drop (i + 1) candidates) (i + 1))
              [candidate1] ({[i]} ∪ processed);
          if (1 <? length group_candidates)%nat then
            find_groups self h candidates rest
              (groups ++ [DuplicateGroup.__init__ group_candidates]) processed'
          else find_groups self h candidates rest groups processed'
      end
  end.

(** Method [find_duplicates]. *)
Definition find_duplicates (self : t) (h : heap) (candidates : list ref)
    : Result (list DuplicateGroup.t) :=
  find_groups self h candidates (enumerate candidates 0) [] ∅.

Section WithEnv.
Context (env : Env).

(** The first loop of [find_exact_duplicates]. *)
Fixpoint collect_by_md5 (candidates : list ref)
    (hash_to_candidates : list (string * list ref)) (h : heap)
    : list (string * list ref) * heap :=
  match candidates with
  | [] => (hash_to_candidates, h)
  | candidate :: rest =>
      let '(md5_hash, h') := get_md5_hash env h candidate in
      if truthy (Some md5_hash) then
        collect_by_md5 rest
          (dict_append hash_to_candidates md5_hash candidate) h'
      else collect_by_md5 rest hash_to_candidates h'
  end.

(** Method [find_exact_duplicates]. *)
Definition find_exact_duplicates (self : t) (candidates : list ref) (h : heap)
    : list DuplicateGroup.t * heap :=
  let '(hash_to_candidates, h') := collect_by_md5 candidates [] h in
  (map DuplicateGroup.__init__
     (filter (λ candidates_list, (1 < length candidates_list)%nat)
        (dict_values hash_to_candidates)),
   h').

(** [sum(f(group) for group in groups)] for a property or method [f] that
    may fill the caches of the group and of the store. *)
Fixpoint sum_groups
    (f : DuplicateGroup.t -> heap -> Result (Z * DuplicateGroup.t * heap))
    (groups : list DuplicateGroup.t) (acc : Z) (h : heap)
    : Result (Z * list DuplicateGroup.t * heap) :=
  match groups with
  | [] => Ok (acc, [], h)
  | group :: rest =>
      '(x, group', h') ← f group h;
      '(total, rest', h'') ← sum_groups f rest (acc + x) h';
      Ok (total, group' :: rest', h'')
  end.

(** Method [get_statistics]. *)
Definition get_statistics (self : t) (groups : list DuplicateGroup.t) (h : heap)
    : Result (Statistics * list DuplicateGroup.t * heap) :=
  let total_files := py_sum (map DuplicateGroup.size groups) in
  '(total_duplicates, groups1, h1) ←
    sum_groups
      (λ group h,
         '(dups, group', h') ← DuplicateGroup.duplicates_to_remove env group h;
         Ok (Z.of_nat (length dups), group', h'))
      groups 0 h;
  let total_size :=
    py_sum (map (λ group, DuplicateGroup.get_total_size group h1) groups1) in
  '(wasted_space, groups2, h2) ←
    sum_groups (DuplicateGroup.get_wasted_space env) groups1 0 h1;
  percent ←
    (if 0 <? total_size then
       quotient ← int_truediv wasted_space total_size;
       Ok (PyFloat (quotient * 100))
     else Ok (PyInt 0));
  Ok ({| duplicate_groups := Z.of_nat (length groups);
         total_files_in_groups := total_files;
         duplicate_files := total_duplicates;
         original_files := total_files - total_duplicates;
         total_size_bytes := total_size;
         wasted_space_bytes := wasted_space;
         space_savings_percent := percent |},
      groups2, h2).

End WithEnv.

End DuplicateDetector.

(** ** The imaging libraries and the file system

    What the remaining methods take from outside: the image analysis done
    with PIL and numpy behind the quality metrics, the hash functions of
    [imagehash], and the directory listing of [pathlib]. *)
Record Imaging : Type := {
  (** [np.ndarray] *)
  ndarray : Type;
  (** the image at a path, opened, converted to RGB, reduced to at most
      512 by 512 pixels and turned into an array; [None] when a step
      raises *)
  load_image : string -> option ndarray;
  (** the four measures, numpy computations that return [0.0] when they
      fail *)
  _calculate_sharpness : ndarray -> float;
  _calculate_brightness : ndarray -> float;
  _calculate_contrast : ndarray -> float;
  _calculate_color_richness : ndarray -> float;
  (** [str(hash_func(img))] for [img = Image.open(path)] and the hash
      function of [imagehash] with the given name; [None] when opening or
      hashing raises *)
  hash_image : string -> string -> option string;
}.

Record FileSystem : Type := {
  (** [path.exists()] *)
  Path_exists : string -> bool;
  (** [directory.glob(pattern)], in the order of iteration *)
  Path_glob : string -> string -> list string;
  (** [path.is_file()] *)
  Path_is_file : string -> bool;
  (** [path.suffix] *)
  Path_suffix : string -> string;
  (** [path.stat().st_size], a number of bytes; [None] when [stat]
      raises *)
  stat_st_size : string -> option N;
}.

(** [s1 < s2] on strings: the first code points that differ decide, and a
    proper prefix comes first. *)
Fixpoint str_lt (s1 s2 : string) : bool :=
  match s1, s2 with
  | _, EmptyString => false
  | EmptyString, String _ _ => true
  | String c1 rest1, String c2 rest2 =>
      if code c1 <? code c2 then true
      else if code c2 <? code c1 then false
      else str_lt rest1 rest2
  end.

(** ** [class DuplicateCandidate]: the quality comparison *)
Module CandidateQuality.
Import DuplicateCandidate CandidateMethods.

Section WithEnv.
Context (env : Env) (img : Imaging).

(** The dictionary returned when no analysis is possible. *)
Definition default_metrics : QualityMetrics :=
  {| sharpness := 0; brightness := 0; contrast := 0; color_richness := 0 |}.

(** Method [_calculate_quality_metrics]. *)
Definition _calculate_quality_metrics (h : heap) (self : ref)
    : QualityMetrics :=
  if negb (PIL_AVAILABLE env) then default_metrics
  else
    match load_image img (file_path (h self)) with
    | Some img_array =>
        let sharpness := _calculate_sharpness img img_array in
        let brightness := _calculate_brightness img img_array in
        let contrast := _calculate_contrast img img_array in
        let color_richness := _calculate_color_richness img img_array in
        {| sharpness := sharpness; brightness := brightness;
           contrast := contrast; color_richness := color_richness |}
    | None => default_metrics
    end.

(** Property [quality_metrics]. *)
Definition quality_metrics (h : heap) (self : ref) : QualityMetrics * heap :=
  match _quality_metrics (h self) with
  | None =>
      let metrics := _calculate_quality_metrics h self in
      (metrics, <[self := set_quality_metrics (h self) (Some metrics)]> h)
  | Some metrics => (metrics, h)
  end.

(** Method [is_better_quality_than]. *)
Definition is_better_quality_than (h : heap) (self other : ref)
    : bool * heap :=
  let '(self_metrics, h1) := quality_metrics h self in
  let '(other_metrics, h2) := quality_metrics h1 other in
  let self_score := _calculate_quality_score self_metrics in
  let other_score := _calculate_quality_score other_metrics in
  if (0.1 <? abs (self_score - other_score))%float then
    ((other_score <? self_score)%float, h2)
  else if 1024 <? Z.abs (file_size (h2 self) - file_size (h2 other)) then
    (file_size (h2 other) <? file_size (h2 self), h2)
  else
    let '(self_area, h3) := image_area env h2 self in
    let '(other_area, h4) := image_area env h3 other in
    if 10000 <? Z.abs (self_area - other_area) then
      (other_area <? self_area, h4)
    else (str_lt (file_path (h4 self)) (file_path (h4 other)), h4).

End WithEnv.

End CandidateQuality.

(** ** [class DuplicateDetector]: hashing and scanning *)
Module DetectorScan.
Import DuplicateCandidate.

Section WithEnv.
Context (env : Env) (img : Imaging) (fs : FileSystem).

(** Method [calculate_hash]: whatever is raised inside the [try], by
    opening the image, by the lookup of the algorithm or by the hash
    function, gives [None]. *)
Definition calculate_hash (self : DuplicateDetector.t) (image_path : string)
    : option string :=
  if negb (IMAGEHASH_AVAILABLE env) || negb (PIL_AVAILABLE env) then None
  else if bool_decide (DuplicateDetector.algorithm self
                       ∈ DuplicateDetector.available_algorithms self)
  then hash_image img (DuplicateDetector.algorithm self) image_path
  else None.

(** The loop of [scan_directory] over the files that [glob] yields.  A new
    candidate is the object at the next free reference. *)
Fixpoint scan_files (self : DuplicateDetector.t)
    (supported_formats : list string) (files : list string)
    (candidates : list ref) (h : heap) (next : ref)
    : list ref * heap * ref :=
  match files with
  | [] => (candidates, h, next)
  | file_path :: rest =>
      if negb (Path_is_file fs file_path) then
        scan_files self supported_formats rest candidates h next
      else if negb (bool_decide (py_lower (Path_suffix fs file_path)
                                 ∈ supported_formats)) then
        scan_files self supported_formats rest candidates h next
      else
        match stat_st_size fs file_path with
        | Some file_size =>
            let image_hash := calculate_hash self file_path in
            if truthy image_hash then
              let candidate := next in
              scan_files self supported_formats rest
                (candidates ++ [candidate])
                (<[candidate :=
                     DuplicateCandidate.__init__ file_path
                       (Z.of_N file_size) image_hash]> h)
                (S next)
            else scan_files self supported_formats rest candidates h next
        | None => scan_files self supported_formats rest candidates h next
        end
  end.

(** Method [scan_directory]: returns the candidates, the store with the
    new objects and the next free reference. *)
Definition scan_directory (self : DuplicateDetector.t) (directory : string)
    (supported_formats : list string) (recursive : bool)
    (h : heap) (next : ref) : list ref * heap * ref :=
  let candidates := [] in
  if negb (Path_exists fs directory) then (candidates, h, next)
  else
    let pattern := if recursive then "**/*" else "*" in
    scan_files self supported_formats (Path_glob fs directory pattern)
      candidates h next.

End WithEnv.

End DetectorScan.

(** ** Notions used to state the properties *)

(** [int(s, 16)] accepts the string [s]. *)
Definition valid_hex (s : string) : Prop := ∃ z, py_int16 s = Ok z.

(** A non-empty string of hexadecimal digits. *)
Fixpoint all_hex_digits (s : string) : bool :=
  match s with
  | EmptyString => true
  | String c rest =>
      match digit_value c with
      | Some _ => all_hex_digits rest
      | None => false
      end
  end.

Definition hex_string (s : string) : Prop :=
  s ≠ "" ∧ all_hex_digits s = true.

(** [p] holds of every character of [s]. *)
Fixpoint str_forall (p : ascii -> bool) (s : string) : bool :=
  match s with
  | EmptyString => true
  | String c rest => p c && str_forall p rest
  end.

(** The characters of which a string that [int(s, 16)] accepts can be
    made: the hexadecimal digits, white space, the two signs, the
    underscore and the [x] of the prefix. *)
Definition int16_char (c : ascii) : bool :=
  match digit_value c with Some _ => true | None => false end
  || is_space c
  || Ascii.eqb c "+" || Ascii.eqb c "-" || Ascii.eqb c "_"
  || Ascii.eqb c "x" || Ascii.eqb c "X".

(** A fingerprint is present when it is neither [None] nor empty. *)
Definition fingerprint_present (c : DuplicateCandidate.t) : Prop :=
  ∃ s, DuplicateCandidate.image_hash c = Some s ∧ s ≠ "".

(** The quality score as the specification words it. *)
Definition spec_normalized (x limit : float) : float :=
  py_min (x / limit)%float 1%float.

Definition spec_brightness_term (b : float) : float :=
  (if b <? 50 then b / 50
   else if 200 <? b then (255 - b) / 55
   else 1)%float.

Definition spec_quality_score (m : QualityMetrics) : float :=
  (0.40 * spec_normalized (sharpness m) 50
   + 0.25 * spec_normalized (contrast m) 100
   + 0.15 * spec_brightness_term (brightness m)
   + 0.20 * spec_normalized (color_richness m) 8)%float.

(** The pixel area of a candidate: what [image_area] returns for it. *)
Definition area_of (env : Env) (h : heap) (c : ref) : Z :=
  fst (CandidateMethods.image_area env h c).

(** The pair (byte size, pixel area) of a candidate in the store [h]: the
    attribute [file_size] first, the value of the property [image_area]
    second. *)
Definition size_and_area (env : Env) (h : heap) (c : ref) : Z * Z :=
  (DuplicateCandidate.file_size (h c), area_of env h c).

(** Lexicographic order on such pairs: the sizes decide, and the areas
    when the sizes are equal; the greater pair is the larger file, or the
    larger picture among files of one size. *)
Definition key_le (k1 k2 : Z * Z) : Prop :=
  fst k1 < fst k2 ∨ (fst k1 = fst k2 ∧ snd k1 <= snd k2).

Definition key_lt (k1 k2 : Z * Z) : Prop :=
  fst k1 < fst k2 ∨ (fst k1 = fst k2 ∧ snd k1 < snd k2).

(** [b], at index [i], is the earliest of the members with the greatest
    pair (byte size, pixel area): no member has a greater pair, and every
    member before [b] has a smaller one. *)
Definition earliest_maximal (env : Env) (h : heap) (members : list ref)
    (i : nat) (b : ref) : Prop :=
  members !! i = Some b
  ∧ (∀ c, c ∈ members → key_le (size_and_area env h c) (size_and_area env h b))
  ∧ (∀ j c, (j < i)%nat → members !! j = Some c →
            key_lt (size_and_area env h c) (size_and_area env h b)).

(** [h'] is [h] with some caches filled: the attributes set at construction
    and the quality metrics are the same, and so is what the lazy attributes
    evaluate to. *)
Definition caches_filled (env : Env) (h h' : heap) : Prop :=
  ∀ r,
    DuplicateCandidate.file_path (h' r) = DuplicateCandidate.file_path (h r)
    ∧ DuplicateCandidate.file_size (h' r) = DuplicateCandidate.file_size (h r)
    ∧ DuplicateCandidate.image_hash (h' r) = DuplicateCandidate.image_hash (h r)
    ∧ DuplicateCandidate._quality_metrics (h' r)
      = DuplicateCandidate._quality_metrics (h r)
    ∧ fst (CandidateMethods.image_area env h' r)
      = fst (CandidateMethods.image_area env h r)
    ∧ fst (CandidateMethods.get_md5_hash env h' r)
      = fst (CandidateMethods.get_md5_hash env h r).

(** Two stores that differ at most in the quality metrics of their objects. *)
Definition same_but_quality (h1 h2 : heap) : Prop :=
  ∀ r, DuplicateCandidate.set_quality_metrics (h1 r) None
       = DuplicateCandidate.set_quality_metrics (h2 r) None.

(** A group in a state the methods can leave it in: it has members, and its
    cache, when filled, holds the earliest member with the greatest pair
    (byte size, pixel area). *)
Definition group_ok (env : Env) (h : heap) (g : DuplicateGroup.t) : Prop :=
  DuplicateGroup.candidates g ≠ []
  ∧ ∀ b, DuplicateGroup._best_candidate g = Some b →
         ∃ i, earliest_maximal env h (DuplicateGroup.candidates g) i b.

(** A group as a search hands it to the statistics: at least two members,
    none listed twice, nothing cached, and a list of duplicates to remove
    that is one shorter than the group. *)
Definition fresh_group (env : Env) (h : heap) (g : DuplicateGroup.t) : Prop :=
  (2 <= length (DuplicateGroup.candidates g))%nat
  ∧ NoDup (DuplicateGroup.candidates g)
  ∧ DuplicateGroup._best_candidate g = None
  ∧ ∃ dups g' h',
      DuplicateGroup.duplicates_to_remove env g h = Ok (dups, g', h')
      ∧ Z.of_nat (length dups) = DuplicateGroup.size g - 1.

(** The sum of [f] over a list. *)
Definition sum_of {A} (f : A -> Z) (l : list A) : Z :=
  foldr (λ x acc, f x + acc) 0 l.
Arguments sum_of : simpl never.

(** The groups with their caches filled by the members [bests]. *)
Definition with_bests (groups : list DuplicateGroup.t) (bests : list ref)
    : list DuplicateGroup.t :=
  zip_with (λ g b, DuplicateGroup.mk (DuplicateGroup.candidates g) (Some b))
    groups bests.

(** [bests] lists, group by group, the earliest member with the greatest
    pair (byte size, pixel area). *)
Definition bests_of (env : Env) (h : heap) (groups : list DuplicateGroup.t)
    (bests : list ref) : Prop :=
  Forall2
    (λ g b, ∃ i, earliest_maximal env h (DuplicateGroup.candidates g) i b)
    groups bests.

(** The fingerprints of [a] and [c] are within the threshold of the
    detector. *)
Definition similar_hashes (self : DuplicateDetector.t) (h : heap)
    (a c : ref) : Prop :=
  ∃ ha hc,
    DuplicateCandidate.image_hash (h a) = Some ha
    ∧ DuplicateCandidate.image_hash (h c) = Some hc
    ∧ DuplicateDetector.are_similar self ha hc = Ok true.

(** A member list made of an anchor and at least one more member, all with
    a fingerprint, each later member similar to the anchor. *)
Definition anchored_group (self : DuplicateDetector.t) (h : heap)
    (members : list ref) : Prop :=
  ∃ a rest,
    members = a :: rest ∧ rest ≠ []
    ∧ (∀ c, c ∈ members → fingerprint_present (h c))
    ∧ (∀ c, c ∈ rest → similar_hashes self h a c).

(** No member of a later group is similar to the anchor of an earlier one. *)
Definition separated (self : DuplicateDetector.t) (h : heap)
    (groups : list DuplicateGroup.t) : Prop :=
  ∀ k1 k2 g1 g2 a r,
    (k1 < k2)%nat → groups !! k1 = Some g1 → groups !! k2 = Some g2 →
    head (DuplicateGroup.candidates g1) = Some a →
    r ∈ DuplicateGroup.candidates g2 →
    ¬ similar_hashes self h a r.

(** [members] are the candidates at the indices [ig] of the input. *)
Definition members_at (candidates : list ref) (ig : list nat)
    (members : list ref) : Prop :=
  Forall2 (λ i c, candidates !! i = Some c) ig members.

(** An emitted group by the indices of its members in the input: an anchor
    [a] followed by at least one later index; every member has a
    fingerprint, and each member after the anchor is similar to the
    anchor. *)
Definition similarity_group (self : DuplicateDetector.t) (h : heap)
    (candidates : list ref) (ig : list nat) : Prop :=
  ∃ a js,
    ig = a :: js ∧ (2 <= length ig)%nat
    ∧ (∀ j, j ∈ js → (a < j)%nat)
    ∧ (∀ i, i ∈ ig →
         ∃ c, candidates !! i = Some c ∧ fingerprint_present (h c))
    ∧ (∀ j, j ∈ js →
         ∃ ca cj, candidates !! a = Some ca ∧ candidates !! j = Some cj
                  ∧ similar_hashes self h ca cj).

(** No element belongs to two of the lists. *)
Definition pairwise_disjoint {A} (ls : list (list A)) : Prop :=
  ∀ k1 k2 l1 l2 x,
    ls !! k1 = Some l1 → ls !! k2 = Some l2 → k1 ≠ k2 →
    x ∈ l1 → x ∈ l2 → False.

(** The group whose members are renamed by [f]. *)
Definition map_group (f : nat -> ref) (g : DuplicateGroup.t)
    : DuplicateGroup.t :=
  DuplicateGroup.mk (f <$> DuplicateGroup.candidates g)
    (f <$> DuplicateGroup._best_candidate g).

(** The content digest of a candidate: what [get_md5_hash] returns for it. *)
Definition digest_of (env : Env) (h : heap) (r : ref) : string :=
  fst (CandidateMethods.get_md5_hash env h r).

(** Computing the digest of [r] fails: nothing is cached yet and reading
    the file raises. *)
Definition digest_fails (env : Env) (h : heap) (r : ref) : Prop :=
  DuplicateCandidate.md5_hash (h r) = None
  ∧ read_bytes env (DuplicateCandidate.file_path (h r)) = None.

(** The quality score of a candidate: the score of what [quality_metrics]
    returns for it. *)
Definition score_of (env : Env) (img : Imaging) (h : heap) (c : ref) : float :=
  CandidateMethods._calculate_quality_score
    (fst (CandidateQuality.quality_metrics env img h c)).

(** The cascade of [is_better_quality_than] on what the store gives for the
    two candidates: score, then size, then area, then path. *)
Definition better_than (env : Env) (img : Imaging) (h : heap) (a b : ref)
    : bool :=
  if (0.1 <? abs (score_of env img h a - score_of env img h b))%float then
    (score_of env img h b <? score_of env img h a)%float
  else if 1024 <? Z.abs (DuplicateCandidate.file_size (h a)
                         - DuplicateCandidate.file_size (h b)) then
    DuplicateCandidate.file_size (h b) <? DuplicateCandidate.file_size (h a)
  else if 10000 <? Z.abs (area_of env h a - area_of env h b) then
    area_of env h b <? area_of env h a
  else str_lt (DuplicateCandidate.file_path (h a))
         (DuplicateCandidate.file_path (h b)).

(** [h'] is [h] with some caches filled, the one of the quality metrics
    included: what was set at construction is the same, and so is what
    every lazy attribute evaluates to. *)
Definition observations_kept (env : Env) (img : Imaging) (h h' : heap)
    : Prop :=
  ∀ r,
    DuplicateCandidate.file_path (h' r) = DuplicateCandidate.file_path (h r)
    ∧ DuplicateCandidate.file_size (h' r) = DuplicateCandidate.file_size (h r)
    ∧ DuplicateCandidate.image_hash (h' r) = DuplicateCandidate.image_hash (h r)
    ∧ fst (CandidateMethods.image_area env h' r)
      = fst (CandidateMethods.image_area env h r)
    ∧ fst (CandidateMethods.get_md5_hash env h' r)
      = fst (CandidateMethods.get_md5_hash env h r)
    ∧ fst (CandidateQuality.quality_metrics env img h' r)
      = fst (CandidateQuality.quality_metrics env img h r).

(** A listed path that [scan_directory] turns into a candidate: a file with
    a supported suffix whose size can be read and whose fingerprint is not
    empty. *)
Definition scannable (env : Env) (img : Imaging) (fs : FileSystem)
    (self : DuplicateDetector.t) (supported_formats : list string)
    (path : string) : Prop :=
  Path_is_file fs path = true
  ∧ py_lower (Path_suffix fs path) ∈ supported_formats
  ∧ is_Some (stat_st_size fs path)
  ∧ truthy (DetectorScan.calculate_hash env img self path) = true.

#[global] Instance scannable_dec (env : Env) (img : Imaging) (fs : FileSystem)
    (self : DuplicateDetector.t) (supported_formats : list string)
    (path : string) :
  Decision (scannable env img fs self supported_formats path) :=
  ltac:(unfold scannable; apply _).

(** The number of one bits of a positive number, and of the magnitude of an
    integer. *)
Fixpoint popcount_pos (p : positive) : Z :=
  match p with
  | xH => 1
  | xO q => popcount_pos q
  | xI q => 1 + popcount_pos q
  end.

Definition popcount (z : Z) : Z :=
  match z with
  | Z0 => 0
  | Zpos p => popcount_pos p
  | Zneg p => popcount_pos p
  end.

(** The bytes of the members of all groups, and of the members other than
    the best candidates [bests], with the sizes that the store [h] gives. *)
Definition bytes_of (h : heap) (l : list ref) : Z :=
  sum_of (λ c, DuplicateCandidate.file_size (h c)) l.

Definition total_bytes (h : heap) (groups : list DuplicateGroup.t) : Z :=
  sum_of (λ g, bytes_of h (DuplicateGroup.candidates g)) groups.

Definition wasted_bytes (h : heap) (groups : list DuplicateGroup.t)
    (bests : list ref) : Z :=
  sum_of (λ gb : DuplicateGroup.t * ref,
            bytes_of h (filter (λ c, c ≠ gb.2)
                          (DuplicateGroup.candidates gb.1)))
    (zip groups bests).

(** The share of [wasted] in [total] as a percentage: the quotient of the
    two integers as a float, times 100; the integer 0 when the total is not
    positive. *)
Definition percent_of (wasted total : Z) : Result Number :=
  if 0 <? total then
    match int_truediv wasted total with
    | Ok quotient => Ok (PyFloat (quotient * 100))
    | Raise e => Raise e
    end
  else Ok (PyInt 0).

(** The statistics of groups whose best candidates are [bests], with the
    sizes that the store [h] gives and the percentage [percent]. *)
Definition statistics_of (h : heap) (groups : list DuplicateGroup.t)
    (bests : list ref) (percent : Number) : Statistics :=
  let removed (gb : DuplicateGroup.t * ref) :=
    filter (λ c, c ≠ gb.2) (DuplicateGroup.candidates gb.1) in
  let total_files := sum_of DuplicateGroup.size groups in
  let total_duplicates :=
    sum_of (λ gb, Z.of_nat (length (removed gb))) (zip groups bests) in
  {| duplicate_groups := Z.of_nat (length groups);
     total_files_in_groups := total_files;
     duplicate_files := total_duplicates;
     original_files := total_files - total_duplicates;
     total_size_bytes := total_bytes h groups;
     wasted_space_bytes := wasted_bytes h groups bests;
     space_savings_percent := percent |}.

(** The dictionary that the first loop of [find_exact_duplicates] builds
    when [digest] gives the digest of every candidate. *)
Fixpoint group_by_digest (digest : ref -> string) (candidates : list ref)
    (d : list (string * list ref)) : list (string * list ref) :=
  match candidates with
  | [] => d
  | c :: rest =>
      if truthy (Some (digest c))
      then group_by_digest digest rest (dict_append d (digest c) c)
      else group_by_digest digest rest d
  end.

(** Two candidates whose fingerprints are at Hamming distance 0. *)
Definition twins (self : DuplicateDetector.t) (h : heap) (c1 c2 : ref)
    : Prop :=
  ∃ s1 s2,
    DuplicateCandidate.image_hash (h c1) = Some s1
    ∧ DuplicateCandidate.image_hash (h c2) = Some s2
    ∧ DuplicateDetector.calculate_hamming_distance self s1 s2 = Ok (Bits 0).

(** ** Sample data

    An environment and a store on which the properties are exercised:
    candidates 0 and 1 are the pair of the first worked example (sizes 2048
    and 1024, fingerprints [F0F0] and [F0F1]) and hold the same bytes;
    candidate 2 ties with candidate 0 in size and area; candidate 3 is
    within 4 bits of candidate 0 but not of candidate 1; the files of
    candidate 3 and of the others cannot be read. *)
Definition example_env : Env := {|
  PIL_AVAILABLE := true;
  IMAGEHASH_AVAILABLE := true;
  imagehash_has_colorhash := false;
  Image_size := λ path,
    if String.eqb path "x.jpg" || String.eqb path "z.jpg" then Some (4, 3)
    else if String.eqb path "y.jpg" then Some (2, 2)
    else None;
  read_bytes := λ path,
    if String.eqb path "x.jpg" || String.eqb path "y.jpg" then Some []
    else None;
  md5_hexdigest := λ _, "d41d8cd98f00b204e9800998ecf8427e";
|}.

Definition example_store : heap := λ r,
  match r with
  | 0%nat => DuplicateCandidate.__init__ "x.jpg" 2048 (Some "F0F0")
  | 1%nat => DuplicateCandidate.__init__ "y.jpg" 1024 (Some "F0F1")
  | 2%nat => DuplicateCandidate.__init__ "z.jpg" 2048 (Some "0F0F")
  | 3%nat => DuplicateCandidate.__init__ "w.jpg" 512 (Some "F1FE")
  | _ => DuplicateCandidate.__init__ "missing.jpg" 512 None
  end.

Definition example_detector : DuplicateDetector.t :=
  DuplicateDetector.mk "dhash" 4 ["dhash"; "phash"; "ahash"; "whash"].

(** The imaging libraries of the sample: only [x.jpg] can be analysed, and
    [dhash] gives the fingerprints of the sample store. *)
Definition example_imaging : Imaging := {|
  ndarray := unit;
  load_image := λ path, if String.eqb path "x.jpg" then Some tt else None;
  _calculate_sharpness := λ _, 50%float;
  _calculate_brightness := λ _, 125%float;
  _calculate_contrast := λ _, 100%float;
  _calculate_color_richness := λ _, 8%float;
  hash_image := λ name path,
    if negb (String.eqb name "dhash") then None
    else if String.eqb path "x.jpg" then Some "F0F0"
    else if String.eqb path "y.jpg" then Some "F0F1"
    else if String.eqb path "Z.JPG" then Some ""
    else if String.eqb path "w.jpg" then Some "F1FE"
    else None;
|}.

(** The sample environment without PIL. *)
Definition example_env_no_PIL : Env := {|
  PIL_AVAILABLE := false;
  IMAGEHASH_AVAILABLE := true;
  imagehash_has_colorhash := false;
  Image_size := λ _, None;
  read_bytes := λ _, None;
  md5_hexdigest := λ _, "d41d8cd98f00b204e9800998ecf8427e";
|}.

(** Three candidates whose files cannot be analysed, 1000 bytes apart. *)
Definition example_triple : heap := λ r,
  match r with
  | 0%nat => DuplicateCandidate.__init__ "a.png" 1000 (Some "00")
  | 1%nat => DuplicateCandidate.__init__ "b.png" 2000 (Some "00")
  | _ => DuplicateCandidate.__init__ "c.png" 3000 (Some "00")
  end.

(** A directory [album] with two photographs, a text file and a
    subdirectory; deeper down a photograph without fingerprint, one whose
    size cannot be read and one that cannot be hashed. *)
Definition example_fs : FileSystem := {|
  Path_exists := λ path, String.eqb path "album";
  Path_glob := λ directory pattern,
    if negb (String.eqb directory "album") then []
    else if String.eqb pattern "*" then ["x.jpg"; "notes.txt"; "sub"; "y.jpg"]
    else ["x.jpg"; "notes.txt"; "sub"; "y.jpg"; "Z.JPG"; "w.jpg"; "v.jpg"];
  Path_is_file := λ path, negb (String.eqb path "sub");
  Path_suffix := λ path,
    if String.eqb path "notes.txt" then ".txt"
    else if String.eqb path "sub" then ""
    else if String.eqb path "Z.JPG" then ".JPG"
    else ".jpg";
  stat_st_size := λ path,
    if String.eqb path "x.jpg" then Some 2048%N
    else if String.eqb path "y.jpg" then Some 1024%N
    else if String.eqb path "w.jpg" then None
    else Some 512%N;
|}.

(** * Properties *)

Import DuplicateCandidate CandidateMethods.

(** ** Quality score *)

(** C5: the quality score is the weighted sum of the four normalized
    metrics, with the three-way brightness term, and the metrics
    sharpness 50, contrast 100, brightness 125, colour richness 8 score
    exactly 1.0. *)
Theorem quality_score_formula :
  (∀ m : QualityMetrics, _calculate_quality_score m = spec_quality_score m)
  ∧ _calculate_quality_score
      {| sharpness := 50; brightness := 125; contrast := 100;
         color_richness := 8 |} = 1%float.
Proof.
  split.
  - intros [s b c r].
    unfold _calculate_quality_score, spec_quality_score, spec_normalized,
      spec_brightness_term; simpl.
    reflexivity.
  - vm_compute. reflexivity.
Qed.

(** ** Hamming distance and similarity *)

Lemma str_count_nonneg (s : string) (c : ascii) : 0 <= str_count s c.
Proof.
  induction s as [|x s IH]; simpl; [lia|].
  destruct (Ascii.eqb x c); lia.
Qed.

(** The distance is never an exception. *)
Lemma calculate_hamming_distance_returns (self : DuplicateDetector.t)
    (hash1 hash2 : string) :
  ∃ d, DuplicateDetector.calculate_hamming_distance self hash1 hash2 = Ok d.
Proof.
  unfold DuplicateDetector.calculate_hamming_distance.
  destruct (_ || _); [eauto|].
  unfold py_int16.
  destruct (PyLong_FromString hash1); simpl; [|eauto].
  destruct (PyLong_FromString hash2); simpl; eauto.
Qed.

(** A finite distance: both strings are non-empty, of one length and valid. *)
Lemma calculate_hamming_distance_bits (self : DuplicateDetector.t)
    (hash1 hash2 : string) (n : Z) :
  DuplicateDetector.calculate_hamming_distance self hash1 hash2 = Ok (Bits n) →
  ∃ z1 z2,
    hash1 ≠ "" ∧ hash2 ≠ ""
    ∧ String.length hash1 = String.length hash2
    ∧ py_int16 hash1 = Ok z1 ∧ py_int16 hash2 = Ok z2
    ∧ n = str_count (bin (Z.lxor z1 z2)) "1".
Proof.
  unfold DuplicateDetector.calculate_hamming_distance.
  destruct hash1 as [|a1 s1]; [discriminate|].
  destruct hash2 as [|a2 s2]; [discriminate|].
  cbn [truthy negb orb].
  destruct (String.length _ =? String.length _)%nat eqn:Hlen; [|discriminate].
  apply Nat.eqb_eq in Hlen. cbn [negb].
  destruct (py_int16 (String a1 s1)) as [z1|e1]; [|by destruct e1].
  destruct (py_int16 (String a2 s2)) as [z2|e2]; [|by destruct e2].
  cbn. intros [= <-]. by exists z1, z2.
Qed.

Lemma are_similar_true (self : DuplicateDetector.t) (hash1 hash2 : string) :
  DuplicateDetector.are_similar self hash1 hash2 = Ok true ↔
  ∃ n, DuplicateDetector.calculate_hamming_distance self hash1 hash2
       = Ok (Bits n)
       ∧ n <= DuplicateDetector.threshold self.
Proof.
  unfold DuplicateDetector.are_similar.
  destruct (DuplicateDetector.calculate_hamming_distance self hash1 hash2)
    as [[n|]|e]; cbn.
  - split.
    + intros [= H]. exists n. split; [done|]. by apply Z.leb_le.
    + intros (m & [= <-] & Hm). f_equal. by apply Z.leb_le.
  - split; [discriminate|]. intros (m & [=] & _).
  - split; [discriminate|]. intros (m & [=] & _).
Qed.

Lemma are_similar_returns (self : DuplicateDetector.t) (hash1 hash2 : string) :
  ∃ b, DuplicateDetector.are_similar self hash1 hash2 = Ok b.
Proof.
  unfold DuplicateDetector.are_similar.
  destruct (calculate_hamming_distance_returns self hash1 hash2) as [d ->].
  cbn. eauto.
Qed.

(** Whatever is similar to something is similar to itself. *)
Lemma are_similar_self (self : DuplicateDetector.t) (hash1 hash2 : string) :
  DuplicateDetector.are_similar self hash1 hash2 = Ok true →
  DuplicateDetector.are_similar self hash1 hash1 = Ok true.
Proof.
  rewrite !are_similar_true. intros (n & Hn & Hle).
  apply calculate_hamming_distance_bits in Hn
    as (z1 & z2 & Hne & _ & _ & Hz1 & _ & ->).
  exists 0. split; [|pose proof (str_count_nonneg (bin (Z.lxor z1 z2)) "1"); lia].
  unfold DuplicateDetector.calculate_hamming_distance.
  destruct hash1 as [|a1 s1]; [done|].
  cbn [truthy negb orb]. rewrite Nat.eqb_refl. cbn [negb].
  rewrite Hz1. cbn. by rewrite Z.lxor_nilpotent.
Qed.

(** C9: similarity is the inclusive bound of the distance by the
    threshold, and it is monotone in the threshold. *)
Theorem are_similar_monotone (self self' : DuplicateDetector.t)
    (a b : string) :
  0 <= DuplicateDetector.threshold self →
  DuplicateDetector.threshold self < DuplicateDetector.threshold self' →
  DuplicateDetector.are_similar self a b = Ok true →
  DuplicateDetector.are_similar self' a b = Ok true
  ∧ ∃ n, DuplicateDetector.calculate_hamming_distance self a b = Ok (Bits n)
         ∧ n <= DuplicateDetector.threshold self.
Proof.
  intros _ Hlt Hsim.
  apply are_similar_true in Hsim as (n & Hn & Hle).
  split; [|eauto].
  apply are_similar_true. exists n. split; [|lia].
  rewrite <- Hn. reflexivity.
Qed.

Lemma are_similar_monotone_witness :
  DuplicateDetector.are_similar
    (DuplicateDetector.mk "dhash" 5 ["dhash"]) "F0F0" "F0F1" = Ok true
  ∧ ∃ n, DuplicateDetector.calculate_hamming_distance
           (DuplicateDetector.mk "dhash" 1 ["dhash"]) "F0F0" "F0F1"
         = Ok (Bits n)
         ∧ n <= 1.
Proof.
  apply (are_similar_monotone
           (DuplicateDetector.mk "dhash" 1 ["dhash"])
           (DuplicateDetector.mk "dhash" 5 ["dhash"]) "F0F0" "F0F1").
  - simpl. lia.
  - simpl. lia.
  - vm_compute. reflexivity.
Defined.

(** X1: a valid, non-empty hash is at distance 0 from itself. *)
Theorem hamming_distance_self (self : DuplicateDetector.t) (hash : string) :
  hash ≠ "" → valid_hex hash →
  DuplicateDetector.calculate_hamming_distance self hash hash = Ok (Bits 0).
Proof.
  intros Hne [z Hz]. unfold DuplicateDetector.calculate_hamming_distance.
  destruct hash as [|a s]; [done|].
  cbn [truthy negb orb]. rewrite Nat.eqb_refl. cbn [negb].
  rewrite Hz. cbn. by rewrite Z.lxor_nilpotent.
Qed.

Lemma hamming_distance_self_witness :
  DuplicateDetector.calculate_hamming_distance example_detector
    "abc123" "abc123" = Ok (Bits 0).
Proof.
  apply (hamming_distance_self example_detector "abc123").
  - discriminate.
  - exists 11256099. reflexivity.
Defined.

(** X2: the distance is symmetric, on malformed input too. *)
Theorem hamming_distance_symmetric (self : DuplicateDetector.t)
    (hash1 hash2 : string) :
  DuplicateDetector.calculate_hamming_distance self hash1 hash2
  = DuplicateDetector.calculate_hamming_distance self hash2 hash1.
Proof.
  unfold DuplicateDetector.calculate_hamming_distance.
  rewrite (Nat.eqb_sym (String.length hash2)).
  rewrite (orb_comm (negb (truthy (Some hash2)))).
  destruct (_ || _); [done|].
  unfold py_int16.
  destruct (PyLong_FromString hash1) as [z1|],
    (PyLong_FromString hash2) as [z2|]; cbn; try done.
  by rewrite Z.lxor_comm.
Qed.

(** X3: on no candidates both finders return no group, and the statistics
    of no groups are all zero. *)
Theorem empty_input (env : Env) (self : DuplicateDetector.t) (h : heap) :
  DuplicateDetector.find_duplicates self h [] = Ok []
  ∧ DuplicateDetector.find_exact_duplicates env self [] h = ([], h)
  ∧ DuplicateDetector.get_statistics env self [] h
    = Ok ({| duplicate_groups := 0; total_files_in_groups := 0;
             duplicate_files := 0; original_files := 0;
             total_size_bytes := 0; wasted_space_bytes := 0;
             space_savings_percent := PyInt 0 |}, [], h).
Proof. done. Qed.

(** A hexadecimal digit is no white space, sign, underscore or [x]. *)
Lemma digit_value_plain (c : ascii) (d : Z) :
  digit_value c = Some d →
  is_space c = false ∧ c ≠ "+"%char ∧ c ≠ "-"%char ∧ c ≠ "_"%char
  ∧ c ≠ "x"%char ∧ c ≠ "X"%char ∧ 0 <= d < 16.
Proof.
  destruct c as [[] [] [] [] [] [] [] []]; vm_compute; intros [= <-];
    repeat split; discriminate.
Qed.

(** Examples of what [int(s, 16)] takes for a number and of what it
    rejects: white space around the digits, a sign, the prefix [0x] and
    single underscores are accepted, so such strings have a finite
    distance. *)
Lemma py_int16_accepts :
  py_int16 "abc123" = Ok 11256099
  ∧ py_int16 " f" = Ok 15 ∧ py_int16 "-f" = Ok (-15)
  ∧ py_int16 "0xf" = Ok 15 ∧ py_int16 "f_f" = Ok 255
  ∧ ¬ valid_hex "hash" ∧ ¬ valid_hex "f__f" ∧ ¬ valid_hex "0x"
  ∧ DuplicateDetector.calculate_hamming_distance example_detector "-f" "+f"
    = Ok (Bits 1).
Proof.
  repeat split; try reflexivity; intros [z Hz]; discriminate Hz.
Qed.

(** The first worked example of the specification: sizes 2048 and 1024,
    fingerprints [F0F0] and [F0F1], threshold 4.  The distance is 1, the
    two are grouped, the larger one is kept, the other is to remove, and
    1024 bytes are wasted. *)
Lemma worked_example_pair :
  DuplicateDetector.calculate_hamming_distance example_detector
    "F0F0" "F0F1" = Ok (Bits 1)
  ∧ DuplicateDetector.find_duplicates example_detector example_store
      [0; 1]%nat
    = Ok [DuplicateGroup.__init__ [0; 1]%nat]
  ∧ (∃ h',
       DuplicateGroup.duplicates_to_remove example_env
         (DuplicateGroup.__init__ [0; 1]%nat) example_store
       = Ok ([1%nat], DuplicateGroup.mk [0; 1]%nat (Some 0%nat), h'))
  ∧ (∃ h',
       DuplicateGroup.get_wasted_space example_env
         (DuplicateGroup.__init__ [0; 1]%nat) example_store
       = Ok (1024, DuplicateGroup.mk [0; 1]%nat (Some 0%nat), h')).
Proof.
  split; [by vm_compute|]. split; [by vm_compute|].
  split; eexists; vm_compute; reflexivity.
Qed.

(** ** Construction of the detector *)

Lemma available_names_lower (env : Env) (name : string) :
  name ∈ DuplicateDetector._get_available_algorithms env →
  py_lower name = name.
Proof.
  unfold DuplicateDetector._get_available_algorithms.
  destruct (IMAGEHASH_AVAILABLE env), (imagehash_has_colorhash env); cbn;
    rewrite ?elem_of_cons, ?elem_of_nil; intros H;
    repeat (destruct H as [->|H]; [reflexivity|]); done.
Qed.

(** C8 (as amended): constructing a detector raises [ValueError] when the
    requested name, lower-cased, is not among the available algorithms,
    and succeeds when it is, with the lower-cased name as its algorithm;
    the outcome depends on nothing but the imports: no file is read and
    nothing is hashed. *)
Theorem detector_init_algorithm (env : Env) (algorithm : string)
    (threshold : Z) :
  (py_lower algorithm ∉ DuplicateDetector._get_available_algorithms env →
   ∃ msg, DuplicateDetector.__init__ env algorithm threshold
          = Raise (ValueError msg))
  ∧ (py_lower algorithm ∈ DuplicateDetector._get_available_algorithms env →
     DuplicateDetector.__init__ env algorithm threshold
     = Ok (DuplicateDetector.mk (py_lower algorithm) threshold
             (DuplicateDetector._get_available_algorithms env)))
  ∧ (algorithm ∈ DuplicateDetector._get_available_algorithms env →
     DuplicateDetector.__init__ env algorithm threshold
     = Ok (DuplicateDetector.mk algorithm threshold
             (DuplicateDetector._get_available_algorithms env)))
  ∧ (∀ env' : Env,
       IMAGEHASH_AVAILABLE env' = IMAGEHASH_AVAILABLE env →
       imagehash_has_colorhash env' = imagehash_has_colorhash env →
       DuplicateDetector.__init__ env' algorithm threshold
       = DuplicateDetector.__init__ env algorithm threshold).
Proof.
  assert (Hin : py_lower algorithm
                ∈ DuplicateDetector._get_available_algorithms env →
    DuplicateDetector.__init__ env algorithm threshold
    = Ok (DuplicateDetector.mk (py_lower algorithm) threshold
            (DuplicateDetector._get_available_algorithms env))).
  { intros H. unfold DuplicateDetector.__init__.
    by rewrite bool_decide_eq_true_2. }
  repeat split.
  - intros H. unfold DuplicateDetector.__init__.
    rewrite bool_decide_eq_false_2 by done. cbn. eauto.
  - exact Hin.
  - intros H. pose proof (available_names_lower env algorithm H) as Hl.
    rewrite <- Hl at 2. apply Hin. by rewrite Hl.
  - intros env' H1 H2.
    unfold DuplicateDetector.__init__, DuplicateDetector._get_available_algorithms.
    by rewrite H1, H2.
Qed.

(** C8 as stated fails for a name that is outside the supported set by
    its case only: [DHash] is not among the names, and the detector is
    constructed, with the algorithm [dhash]. *)
Lemma detector_init_mixed_case :
  ¬ (∀ (env : Env) (algorithm : string) (threshold : Z),
       algorithm ∉ DuplicateDetector._get_available_algorithms env →
       ∃ e, DuplicateDetector.__init__ env algorithm threshold = Raise e)
  ∧ ("DHash" ∉ DuplicateDetector._get_available_algorithms example_env)
  ∧ DuplicateDetector.__init__ example_env "DHash" 4
    = Ok (DuplicateDetector.mk "dhash" 4
            (DuplicateDetector._get_available_algorithms example_env)).
Proof.
  assert (Hout : "DHash"
                 ∉ DuplicateDetector._get_available_algorithms example_env)
    by (by apply (bool_decide_unpack _)).
  split; [|by split].
  intros H. by destruct (H example_env "DHash" 4 Hout) as [e [=]].
Qed.

(** ** Groups: the best candidate *)

Lemma py_sum_sum_of (l : list Z) : py_sum l = sum_of id l.
Proof.
  unfold py_sum, sum_of.
  assert (H : ∀ acc, fold_left Z.add l acc
                     = acc + foldr (λ x a, id x + a) 0 l).
  { induction l as [|x l IH]; intros acc; simpl; [lia|].
    rewrite IH. unfold id. lia. }
  rewrite H. lia.
Qed.

Lemma py_sum_map {A} (f : A -> Z) (l : list A) :
  py_sum (map f l) = sum_of f l.
Proof.
  rewrite py_sum_sum_of. unfold sum_of.
  induction l as [|x l IH]; [done|].
  cbn [map foldr]. unfold id at 1. by f_equal.
Qed.

Lemma sum_of_cons {A} (f : A -> Z) (x : A) (l : list A) :
  sum_of f (x :: l) = f x + sum_of f l.
Proof. reflexivity. Qed.

Lemma sum_of_ext {A} (f g : A -> Z) (l : list A) :
  (∀ x, f x = g x) → sum_of f l = sum_of g l.
Proof.
  intros H. unfold sum_of. induction l as [|x l IH]; simpl; [done|].
  by rewrite H, IH.
Qed.

Lemma filter_all {A} (P : A -> Prop) `{!∀ x, Decision (P x)} (l : list A) :
  (∀ x, x ∈ l → P x) → filter P l = l.
Proof.
  induction l as [|y l IH]; intros Hall; [done|].
  rewrite filter_cons_True by (apply Hall; left).
  f_equal. apply IH. intros x Hx. apply Hall. by right.
Qed.

(** Removing a member that occurs once takes its summand away. *)
Lemma sum_of_filter_ne (f : ref -> Z) (b : ref) (l : list ref) :
  NoDup l → b ∈ l →
  sum_of f (filter (λ c, c ≠ b) l) + f b = sum_of f l.
Proof.
  unfold sum_of.
  induction l as [|x l IH]; intros Hnd Hin; [by apply elem_of_nil in Hin|].
  apply NoDup_cons in Hnd as [Hx Hnd].
  rewrite filter_cons. destruct (decide (x ≠ b)) as [Hne|Heq].
  - simpl. apply elem_of_cons in Hin as [->|Hin]; [done|].
    specialize (IH Hnd Hin). lia.
  - assert (x = b) as -> by (destruct (decide (x = b)); done).
    simpl. rewrite filter_all by (by intros c Hc ->). lia.
Qed.

Lemma length_filter_ne (b : ref) (l : list ref) :
  NoDup l → b ∈ l →
  (length (filter (λ c, c ≠ b) l) + 1 = length l)%nat.
Proof.
  intros Hnd Hin.
  pose proof (sum_of_filter_ne (λ _, 1) b l Hnd Hin) as H.
  assert (Hlen : ∀ l' : list ref, sum_of (λ _, 1) l' = Z.of_nat (length l')).
  { unfold sum_of. induction l' as [|y l' IHl]; simpl; [done|]. lia. }
  rewrite !Hlen in H. lia.
Qed.

Section Group.
Context (env : Env).

Lemma caches_filled_refl (h : heap) : caches_filled env h h.
Proof. by intros r. Qed.

Lemma caches_filled_trans (h1 h2 h3 : heap) :
  caches_filled env h1 h2 → caches_filled env h2 h3 → caches_filled env h1 h3.
Proof.
  intros H12 H23 r.
  destruct (H12 r) as (?&?&?&?&?&?), (H23 r) as (?&?&?&?&?&?).
  repeat split; congruence.
Qed.

(** Once the property has returned a pair, reading it again returns this
    pair and leaves the store as it is. *)
Lemma image_dimensions_reread (h h' : heap) (r : ref) (size : Z * Z) :
  image_dimensions env h r = (Some size, h') →
  image_dimensions env h' r = (Some size, h').
Proof.
  unfold image_dimensions.
  destruct (_image_dimensions (h r)) as [d|] eqn:Hd.
  - intros [= <- <-]. by rewrite Hd.
  - destruct (PIL_AVAILABLE env); [|done].
    intros [= <- <-]. by rewrite fn_lookup_insert.
Qed.

(** What the lazy attributes evaluate to depends on the object alone. *)
Lemma image_area_fields (h1 h2 : heap) (r : ref) :
  file_path (h1 r) = file_path (h2 r) →
  _image_dimensions (h1 r) = _image_dimensions (h2 r) →
  fst (image_area env h1 r) = fst (image_area env h2 r).
Proof.
  intros Hp Hd. unfold image_area, image_dimensions. rewrite <- Hp, <- Hd.
  repeat case_match; simplify_eq; done.
Qed.

Lemma image_area_ext (h1 h2 : heap) (r : ref) :
  h1 r = h2 r → fst (image_area env h1 r) = fst (image_area env h2 r).
Proof. intros H. apply image_area_fields; by rewrite H. Qed.

Lemma get_md5_hash_ext (h1 h2 : heap) (r : ref) :
  h1 r = h2 r → fst (get_md5_hash env h1 r) = fst (get_md5_hash env h2 r).
Proof.
  intros H. unfold get_md5_hash. rewrite <- H.
  repeat case_match; simplify_eq; done.
Qed.

Lemma image_area_fills (h : heap) (r : ref) :
  caches_filled env h (snd (image_area env h r)).
Proof.
  unfold image_area at 1, image_dimensions.
  destruct (_image_dimensions (h r)) as [[w ht]|] eqn:Hd;
    [apply caches_filled_refl|].
  destruct (PIL_AVAILABLE env) eqn:Hpil; [|apply caches_filled_refl].
  set (size := match Image_size env (file_path (h r)) with
               | Some size => size | None => (0, 0) end).
  destruct size as [w ht] eqn:Hsz. cbn [snd].
  intros r'. destruct (decide (r = r')) as [<-|Hne].
  - unfold image_area, image_dimensions, get_md5_hash.
    rewrite fn_lookup_insert. cbn. rewrite Hd, Hpil. fold size.
    rewrite Hsz. cbn. by destruct (md5_hash (h r)).
  - rewrite (image_area_ext _ h r'), (get_md5_hash_ext _ h r');
      by rewrite fn_lookup_insert_ne.
Qed.

Lemma get_md5_hash_fills (h : heap) (r : ref) :
  caches_filled env h (snd (get_md5_hash env h r)).
Proof.
  unfold get_md5_hash at 1.
  destruct (md5_hash (h r)) as [d|] eqn:Hd; [apply caches_filled_refl|].
  cbn [snd]. intros r'. destruct (decide (r = r')) as [<-|Hne].
  - unfold image_area, image_dimensions, get_md5_hash.
    rewrite fn_lookup_insert. cbn. rewrite Hd. cbn. repeat split.
    repeat case_match; simplify_eq; done.
  - rewrite (image_area_ext _ h r'), (get_md5_hash_ext _ h r');
      by rewrite fn_lookup_insert_ne.
Qed.

Lemma size_and_area_filled (h h' : heap) (c : ref) :
  caches_filled env h h' → size_and_area env h' c = size_and_area env h c.
Proof.
  intros H. destruct (H c) as (_ & Hs & _ & _ & Ha & _).
  unfold size_and_area, area_of. by rewrite Hs, Ha.
Qed.

(** The key that [best_candidate] hands to [max] is the pair (byte size,
    pixel area), in this order. *)
Lemma sort_key_spec (h : heap) (c : ref) :
  DuplicateGroup.sort_key env h c
  = (size_and_area env h c, snd (image_area env h c)).
Proof.
  unfold size_and_area, area_of, DuplicateGroup.sort_key.
  by destruct (image_area env h c).
Qed.

Lemma earliest_maximal_filled (h h' : heap) (l : list ref) (i : nat) (b : ref) :
  caches_filled env h h' →
  earliest_maximal env h' l i b ↔ earliest_maximal env h l i b.
Proof.
  intros H. unfold earliest_maximal.
  rewrite (size_and_area_filled h h' b H).
  split; intros (Hi & Hmax & Hearly); (split; [done|split]).
  - intros c Hc. rewrite <- (size_and_area_filled h h' c H). by apply Hmax.
  - intros j c Hj Hc. rewrite <- (size_and_area_filled h h' c H). by eapply Hearly.
  - intros c Hc. rewrite (size_and_area_filled h h' c H). by apply Hmax.
  - intros j c Hj Hc. rewrite (size_and_area_filled h h' c H). by eapply Hearly.
Qed.

Lemma key_gt_true (k1 k2 : Z * Z) :
  DuplicateGroup.key_gt k1 k2 = true ↔ key_lt k2 k1.
Proof.
  unfold DuplicateGroup.key_gt, key_lt. destruct k1 as [a1 b1], k2 as [a2 b2].
  cbn. destruct (Z.eqb_spec a1 a2), (Z.eqb_spec b1 b2); cbn;
    rewrite ?Z.ltb_lt; split; try lia; try discriminate.
Qed.

Lemma key_gt_false (k1 k2 : Z * Z) :
  DuplicateGroup.key_gt k1 k2 = false ↔ key_le k1 k2.
Proof.
  unfold DuplicateGroup.key_gt, key_le. destruct k1 as [a1 b1], k2 as [a2 b2].
  cbn. destruct (Z.eqb_spec a1 a2), (Z.eqb_spec b1 b2); cbn;
    rewrite ?Z.ltb_ge; split; try lia; try discriminate.
Qed.

Lemma key_le_refl (k : Z * Z) : key_le k k.
Proof. unfold key_le. lia. Qed.

Lemma key_le_lt_trans (k1 k2 k3 : Z * Z) :
  key_le k1 k2 → key_lt k2 k3 → key_lt k1 k3.
Proof. unfold key_lt, key_le. lia. Qed.

Lemma key_lt_le (k1 k2 : Z * Z) : key_lt k1 k2 → key_le k1 k2.
Proof. unfold key_lt, key_le. lia. Qed.

Lemma key_lt_not_le (k1 k2 : Z * Z) : key_lt k1 k2 → key_le k2 k1 → False.
Proof. unfold key_lt, key_le. lia. Qed.

End Group.

Section BestCandidate.
Context (env : Env).

Lemma earliest_maximal_unique (h : heap) (l : list ref) (i i' : nat)
    (b b' : ref) :
  earliest_maximal env h l i b → earliest_maximal env h l i' b' →
  i = i' ∧ b = b'.
Proof.
  intros (Hi & Hmax & Hearly) (Hi' & Hmax' & Hearly').
  assert (i = i') as <-.
  { destruct (Nat.lt_trichotomy i i') as [Hlt|[?|Hlt]]; [|done|]; exfalso.
    - eapply key_lt_not_le; [by eapply (Hearly' i b)|].
      apply Hmax. by eapply list_elem_of_lookup_2.
    - eapply key_lt_not_le; [by eapply (Hearly i' b')|].
      apply Hmax'. by eapply list_elem_of_lookup_2. }
  split; [done|congruence].
Qed.

Lemma earliest_maximal_elem (h : heap) (l : list ref) (i : nat) (b : ref) :
  earliest_maximal env h l i b → b ∈ l.
Proof. intros (Hi & _). by eapply list_elem_of_lookup_2. Qed.

(** The loop of [max] keeps the earliest maximal member of what it has seen. *)
Lemma max_loop_spec (items : list ref) :
  ∀ (pre : list ref) (maxitem : ref) (maxval : Z * Z) (h : heap) (i : nat),
    maxval = size_and_area env h maxitem →
    earliest_maximal env h pre i maxitem →
    ∃ i',
      earliest_maximal env h (pre ++ items) i'
        (DuplicateGroup.max_loop env items maxitem maxval h).1
      ∧ caches_filled env h
          (DuplicateGroup.max_loop env items maxitem maxval h).2.
Proof.
  induction items as [|item rest IH]; intros pre maxitem maxval h i Hval Hbest.
  - cbn. rewrite app_nil_r. exists i. split; [done|apply caches_filled_refl].
  - cbn [DuplicateGroup.max_loop]. rewrite sort_key_spec.
    set (h1 := (image_area env h item).2).
    assert (Hfill : caches_filled env h h1) by apply image_area_fills.
    destruct Hbest as (Hi & Hmax & Hearly).
    assert (Hlen : (i < length pre)%nat) by by eapply lookup_lt_Some.
    rewrite (cons_middle item pre rest), app_assoc.
    destruct (DuplicateGroup.key_gt (size_and_area env h item) maxval) eqn:Hgt.
    + apply key_gt_true in Hgt. subst maxval.
      destruct (IH (pre ++ [item])%list item (size_and_area env h item) h1 (List.length pre))
        as (i' & Hb & Hf).
      { symmetry. by apply size_and_area_filled. }
      { apply (earliest_maximal_filled env h h1); [done|].
        split; [|split].
        - by rewrite lookup_app_r, Nat.sub_diag.
        - intros c Hc. apply elem_of_app in Hc as [Hc|Hc].
          + apply key_lt_le. eapply key_le_lt_trans; [by apply Hmax|done].
          + apply list_elem_of_singleton in Hc as ->. apply key_le_refl.
        - intros j c Hj Hc. rewrite lookup_app_l in Hc by done.
          eapply key_le_lt_trans; [|done].
          apply Hmax. by eapply list_elem_of_lookup_2. }
      exists i'. split.
      * by apply (earliest_maximal_filled env h h1).
      * by eapply caches_filled_trans.
    + apply key_gt_false in Hgt. subst maxval.
      destruct (IH (pre ++ [item])%list maxitem (size_and_area env h maxitem) h1 i)
        as (i' & Hb & Hf).
      { symmetry. by apply size_and_area_filled. }
      { apply (earliest_maximal_filled env h h1); [done|].
        split; [|split].
        - by rewrite lookup_app_l.
        - intros c Hc. apply elem_of_app in Hc as [Hc|Hc]; [by apply Hmax|].
          by apply list_elem_of_singleton in Hc as ->.
        - intros j c Hj Hc. rewrite lookup_app_l in Hc by lia.
          by eapply Hearly. }
      exists i'. split.
      * by apply (earliest_maximal_filled env h h1).
      * by eapply caches_filled_trans.
Qed.

Lemma py_max_spec (h : heap) (items : list ref) :
  items ≠ [] →
  ∃ i best h',
    DuplicateGroup.py_max env items h = Ok (best, h')
    ∧ earliest_maximal env h items i best
    ∧ caches_filled env h h'.
Proof.
  destruct items as [|item rest]; [done|]. intros _.
  cbn [DuplicateGroup.py_max]. rewrite sort_key_spec.
  set (h1 := (image_area env h item).2).
  assert (Hfill : caches_filled env h h1) by apply image_area_fills.
  destruct (max_loop_spec rest [item] item (size_and_area env h item) h1 0)
    as (i' & Hb & Hf).
  { symmetry. by apply size_and_area_filled. }
  { split; [done|split].
    - intros c Hc. apply list_elem_of_singleton in Hc as ->. apply key_le_refl.
    - intros j c Hj. lia. }
  destruct (DuplicateGroup.max_loop env rest item (size_and_area env h item) h1)
    as [best h'] eqn:Hloop.
  exists i', best, h'. split; [done|]. split.
  - by apply (earliest_maximal_filled env h h1).
  - by eapply caches_filled_trans.
Qed.

(** The first access computes the earliest maximal member and caches it. *)
Lemma best_candidate_fresh (h : heap) (members : list ref) :
  members ≠ [] →
  ∃ i best h',
    DuplicateGroup.best_candidate env (DuplicateGroup.__init__ members) h
    = Ok (best, DuplicateGroup.mk members (Some best), h')
    ∧ earliest_maximal env h members i best
    ∧ caches_filled env h h'.
Proof.
  intros Hne. destruct (py_max_spec h members Hne) as (i & best & h' & Hm & ?).
  exists i, best, h'. split; [|done].
  unfold DuplicateGroup.best_candidate. cbn. by rewrite Hm.
Qed.

(** A later access returns the cached member and changes nothing. *)
Lemma best_candidate_cached (h : heap) (members : list ref) (best : ref) :
  DuplicateGroup.best_candidate env (DuplicateGroup.mk members (Some best)) h
  = Ok (best, DuplicateGroup.mk members (Some best), h).
Proof. reflexivity. Qed.

Lemma best_candidate_ok (h : heap) (g : DuplicateGroup.t) :
  group_ok env h g →
  ∃ i best h',
    DuplicateGroup.best_candidate env g h
    = Ok (best,
          DuplicateGroup.mk (DuplicateGroup.candidates g) (Some best), h')
    ∧ earliest_maximal env h (DuplicateGroup.candidates g) i best
    ∧ caches_filled env h h'.
Proof.
  destruct g as [members [b|]]; intros [Hne Hcache]; cbn in *.
  - destruct (Hcache b eq_refl) as [i Hb].
    exists i, b, h. split; [done|]. split; [done|apply caches_filled_refl].
  - by apply best_candidate_fresh.
Qed.

Lemma duplicates_to_remove_ok (h : heap) (g : DuplicateGroup.t) :
  group_ok env h g →
  ∃ i best h',
    DuplicateGroup.duplicates_to_remove env g h
    = Ok (filter (λ c, c ≠ best) (DuplicateGroup.candidates g),
          DuplicateGroup.mk (DuplicateGroup.candidates g) (Some best), h')
    ∧ earliest_maximal env h (DuplicateGroup.candidates g) i best
    ∧ caches_filled env h h'.
Proof.
  intros Hok. destruct (best_candidate_ok h g Hok) as (i & best & h' & Hb & ?).
  exists i, best, h'. split; [|done].
  unfold DuplicateGroup.duplicates_to_remove. by rewrite Hb.
Qed.

Lemma get_wasted_space_ok (h : heap) (g : DuplicateGroup.t) :
  group_ok env h g →
  ∃ i best h',
    DuplicateGroup.get_wasted_space env g h
    = Ok (sum_of (λ c, file_size (h c))
            (filter (λ c, c ≠ best) (DuplicateGroup.candidates g)),
          DuplicateGroup.mk (DuplicateGroup.candidates g) (Some best), h')
    ∧ earliest_maximal env h (DuplicateGroup.candidates g) i best
    ∧ caches_filled env h h'.
Proof.
  intros Hok.
  destruct (duplicates_to_remove_ok h g Hok) as (i & best & h' & Hd & ? & Hf).
  exists i, best, h'. split; [|done].
  unfold DuplicateGroup.get_wasted_space. rewrite Hd. cbn.
  rewrite py_sum_map. do 3 f_equal. apply sum_of_ext.
  intros c. by destruct (Hf c) as (_ & -> & _).
Qed.

Lemma group_ok_filled (h h' : heap) (g : DuplicateGroup.t) :
  caches_filled env h h' → group_ok env h g → group_ok env h' g.
Proof.
  intros Hf [Hne Hc]. split; [done|]. intros b Hb.
  destruct (Hc b Hb) as [i Hi]. exists i.
  by apply (earliest_maximal_filled env h h').
Qed.

Lemma group_ok_cached (h : heap) (members : list ref) (i : nat) (best : ref) :
  earliest_maximal env h members i best →
  group_ok env h (DuplicateGroup.mk members (Some best)).
Proof.
  intros Hb. split.
  - cbn. intros ->. by destruct Hb as [Hb _].
  - cbn. intros b [= <-]. eauto.
Qed.

Lemma size_and_area_same_but_quality (h h2 : heap) (c : ref) :
  same_but_quality h h2 → size_and_area env h2 c = size_and_area env h c.
Proof.
  intros H. specialize (H c). unfold set_quality_metrics in H.
  injection H as Hp Hs _ _ Hd.
  unfold size_and_area, area_of.
  rewrite (image_area_fields env h2 h c (eq_sym Hp) (eq_sym Hd)).
  by rewrite Hs.
Qed.

Lemma earliest_maximal_same_but_quality (h h2 : heap) (l : list ref) (i : nat)
    (b : ref) :
  same_but_quality h h2 →
  earliest_maximal env h2 l i b → earliest_maximal env h l i b.
Proof.
  intros H (Hi & Hmax & Hearly). split; [done|split].
  - intros c Hc. rewrite <- !(size_and_area_same_but_quality h h2) by done.
    by apply Hmax.
  - intros j c Hj Hc. rewrite <- !(size_and_area_same_but_quality h h2) by done.
    by eapply Hearly.
Qed.

End BestCandidate.

Lemma group_ok_init (env : Env) (h : heap) (members : list ref) :
  members ≠ [] → group_ok env h (DuplicateGroup.__init__ members).
Proof. intros Hne. split; [done|]. intros b [=]. Qed.

Lemma get_total_size_sum (g : DuplicateGroup.t) (h : heap) :
  DuplicateGroup.get_total_size g h
  = sum_of (λ c, file_size (h c)) (DuplicateGroup.candidates g).
Proof. unfold DuplicateGroup.get_total_size. apply py_sum_map. Qed.

(** Members before the best one differ from it; the best one goes. *)
Lemma filter_ne_earliest (env : Env) (h : heap) (members : list ref)
    (i : nat) (best : ref) :
  earliest_maximal env h members i best →
  filter (λ c, c ≠ best) members
  = (take i members ++ filter (λ c, c ≠ best) (drop (S i) members))%list.
Proof.
  intros (Hi & _ & Hearly).
  rewrite <- (take_drop_middle members i best Hi) at 1.
  rewrite filter_app, filter_cons.
  destruct (decide (best ≠ best)) as [?|_]; [done|]. f_equal.
  apply filter_all. intros c Hc%list_elem_of_lookup_1.
  destruct Hc as [j Hj]. intros ->.
  pose proof (lookup_lt_Some _ _ _ Hj) as Hlt.
  rewrite length_take in Hlt. rewrite lookup_take_lt in Hj by lia.
  apply (key_lt_not_le (size_and_area env h best) (size_and_area env h best));
    [eapply Hearly; [|done]; lia|apply key_le_refl].
Qed.

Lemma filter_ne_NoDup (members : list ref) (i : nat) (best : ref) :
  NoDup members → members !! i = Some best →
  filter (λ c, c ≠ best) members = delete i members.
Proof.
  revert i. induction members as [|m members IH]; intros i Hnd Hi; [done|].
  apply NoDup_cons in Hnd as [Hm Hnd]. rewrite filter_cons.
  destruct i as [|i]; cbn in Hi.
  - injection Hi as ->. destruct (decide (best ≠ best)); [done|].
    cbn. apply filter_all. by intros c Hc ->.
  - destruct (decide (m ≠ best)) as [_|Heq].
    + cbn. f_equal. by apply IH.
    + exfalso. apply Hm. assert (m = best) as -> by
        (destruct (decide (m = best)); done).
      by eapply list_elem_of_lookup_2.
Qed.

(** C3: in a group of distinct candidates the best candidate is a member
    whose pair (size, area) is greatest in the lexicographic order: every
    member is a smaller file, or a file of the same size with no larger
    picture; the quality metrics play no part (changing them changes nothing, and the
    call leaves them as they were); and the wasted space plus the size of
    the best candidate is the total size.  An empty group has no best
    candidate: there [max] raises. *)
Theorem best_candidate_maximal (env : Env) (h : heap) (members : list ref) :
  NoDup members →
  match DuplicateGroup.best_candidate env (DuplicateGroup.__init__ members) h
  with
  | Raise _ => members = []
  | Ok (best, group, h') =>
      best ∈ members
      ∧ (∀ c, c ∈ members →
           file_size (h c) < file_size (h best)
           ∨ (file_size (h c) = file_size (h best)
              ∧ area_of env h c <= area_of env h best))
      ∧ (∀ h2, same_but_quality h h2 →
           ∃ group2 h2',
             DuplicateGroup.best_candidate env
               (DuplicateGroup.__init__ members) h2
             = Ok (best, group2, h2'))
      ∧ (∀ r, _quality_metrics (h' r) = _quality_metrics (h r))
      ∧ ∃ wasted group1 h1,
          DuplicateGroup.get_wasted_space env
            (DuplicateGroup.__init__ members) h
          = Ok (wasted, group1, h1)
          ∧ DuplicateGroup.best_candidate env group1 h1
            = Ok (best, group1, h1)
          ∧ wasted + file_size (h1 best)
            = DuplicateGroup.get_total_size group1 h1
  end.
Proof.
  intros Hnd. destruct (decide (members = [])) as [->|Hne]; [done|].
  destruct (best_candidate_fresh env h members Hne)
    as (i & best & h' & -> & Hbest & Hfill).
  split; [by eapply earliest_maximal_elem|].
  split; [exact (proj1 (proj2 Hbest))|].
  split.
  { intros h2 Hq.
    destruct (best_candidate_fresh env h2 members Hne)
      as (i2 & best2 & h2' & Hb2 & Hbest2 & _).
    apply (earliest_maximal_same_but_quality env h h2) in Hbest2; [|done].
    destruct (earliest_maximal_unique env h members i i2 best best2)
      as [_ <-]; eauto. }
  split; [intros r; by destruct (Hfill r) as (_ & _ & _ & ? & _)|].
  destruct (get_wasted_space_ok env h (DuplicateGroup.__init__ members))
    as (i1 & best1 & h1 & Hw & Hbest1 & Hfill1);
    [by apply group_ok_init|].
  destruct (earliest_maximal_unique env h members i i1 best best1)
    as [_ <-]; [done..|].
  eexists _, _, _. split; [exact Hw|]. split; [reflexivity|].
  rewrite get_total_size_sum.
  cbn [DuplicateGroup.candidates DuplicateGroup.__init__].
  destruct (Hfill1 best) as (_ & -> & _).
  rewrite (sum_of_ext (λ c, file_size (h1 c)) (λ c, file_size (h c)))
    by (intros c; by destruct (Hfill1 c) as (_ & -> & _)).
  apply sum_of_filter_ne; [done|by eapply earliest_maximal_elem].
Qed.

Lemma best_candidate_maximal_witness :
  match DuplicateGroup.best_candidate example_env
          (DuplicateGroup.__init__ [1; 0; 2]%nat) example_store
  with
  | Raise _ => [1; 0; 2]%nat = []
  | Ok (best, group, h') =>
      best ∈ [1; 0; 2]%nat
      ∧ (∀ c, c ∈ [1; 0; 2]%nat →
           file_size (example_store c) < file_size (example_store best)
           ∨ (file_size (example_store c) = file_size (example_store best)
              ∧ area_of example_env example_store c
                <= area_of example_env example_store best))
      ∧ (∀ h2, same_but_quality example_store h2 →
           ∃ group2 h2',
             DuplicateGroup.best_candidate example_env
               (DuplicateGroup.__init__ [1; 0; 2]%nat) h2
             = Ok (best, group2, h2'))
      ∧ (∀ r, _quality_metrics (h' r) = _quality_metrics (example_store r))
      ∧ ∃ wasted group1 h1,
          DuplicateGroup.get_wasted_space example_env
            (DuplicateGroup.__init__ [1; 0; 2]%nat) example_store
          = Ok (wasted, group1, h1)
          ∧ DuplicateGroup.best_candidate example_env group1 h1
            = Ok (best, group1, h1)
          ∧ wasted + file_size (h1 best)
            = DuplicateGroup.get_total_size group1 h1
  end.
Proof.
  apply (best_candidate_maximal example_env example_store [1; 0; 2]%nat).
  by apply (bool_decide_unpack _).
Defined.

(** C10: in a non-empty group the best candidate is the earliest of the
    members that tie for the greatest pair (size, area); the first access
    caches it and every later access returns it; and the list of duplicates
    to remove is the member list, in its order, without that member: what
    stands before it stays, and in a group of distinct candidates exactly
    its one entry goes. *)
Theorem best_candidate_earliest_cached (env : Env) (h : heap)
    (members : list ref) :
  members ≠ [] →
  ∃ (i : nat) (best : ref) (h' : heap),
    DuplicateGroup.best_candidate env (DuplicateGroup.__init__ members) h
    = Ok (best, DuplicateGroup.mk members (Some best), h')
    ∧ earliest_maximal env h members i best
    ∧ (∀ members'' h'',
         DuplicateGroup.best_candidate env
           (DuplicateGroup.mk members'' (Some best)) h''
         = Ok (best, DuplicateGroup.mk members'' (Some best), h''))
    ∧ DuplicateGroup.duplicates_to_remove env
        (DuplicateGroup.__init__ members) h
      = Ok (filter (λ c, c ≠ best) members,
            DuplicateGroup.mk members (Some best), h')
    ∧ DuplicateGroup.duplicates_to_remove env
        (DuplicateGroup.mk members (Some best)) h'
      = Ok (filter (λ c, c ≠ best) members,
            DuplicateGroup.mk members (Some best), h')
    ∧ filter (λ c, c ≠ best) members
      = (take i members ++ filter (λ c, c ≠ best) (drop (S i) members))%list
    ∧ (NoDup members → filter (λ c, c ≠ best) members = delete i members).
Proof.
  intros Hne.
  destruct (best_candidate_fresh env h members Hne)
    as (i & best & h' & Hb & Hbest & Hfill).
  exists i, best, h'. split; [done|]. split; [done|].
  split; [done|].
  split; [unfold DuplicateGroup.duplicates_to_remove; by rewrite Hb|].
  split; [done|].
  split; [by eapply filter_ne_earliest|].
  intros Hnd. apply filter_ne_NoDup; [done|]. by destruct Hbest.
Qed.

Lemma best_candidate_earliest_cached_witness :
  ∃ (i : nat) (best : ref) (h' : heap),
    DuplicateGroup.best_candidate example_env
      (DuplicateGroup.__init__ [1; 0; 2]%nat) example_store
    = Ok (best, DuplicateGroup.mk [1; 0; 2]%nat (Some best), h')
    ∧ earliest_maximal example_env example_store [1; 0; 2]%nat i best
    ∧ (∀ members'' h'',
         DuplicateGroup.best_candidate example_env
           (DuplicateGroup.mk members'' (Some best)) h''
         = Ok (best, DuplicateGroup.mk members'' (Some best), h''))
    ∧ DuplicateGroup.duplicates_to_remove example_env
        (DuplicateGroup.__init__ [1; 0; 2]%nat) example_store
      = Ok (filter (λ c, c ≠ best) [1; 0; 2]%nat,
            DuplicateGroup.mk [1; 0; 2]%nat (Some best), h')
    ∧ DuplicateGroup.duplicates_to_remove example_env
        (DuplicateGroup.mk [1; 0; 2]%nat (Some best)) h'
      = Ok (filter (λ c, c ≠ best) [1; 0; 2]%nat,
            DuplicateGroup.mk [1; 0; 2]%nat (Some best), h')
    ∧ filter (λ c, c ≠ best) [1; 0; 2]%nat
      = (take i [1; 0; 2]%nat
         ++ filter (λ c, c ≠ best) (drop (S i) [1; 0; 2]%nat))%list
    ∧ (NoDup [1; 0; 2]%nat →
       filter (λ c, c ≠ best) [1; 0; 2]%nat = delete i [1; 0; 2]%nat).
Proof.
  apply (best_candidate_earliest_cached example_env example_store
           [1; 0; 2]%nat).
  discriminate.
Defined.

(** ** Statistics *)

Section Statistics.
Context (env : Env).

Lemma bests_of_filled (h h' : heap) (groups : list DuplicateGroup.t)
    (bests : list ref) :
  caches_filled env h h' →
  bests_of env h' groups bests → bests_of env h groups bests.
Proof.
  intros Hf H. eapply Forall2_impl; [exact H|]. intros g b [i Hi]. exists i.
  by apply (earliest_maximal_filled env h h').
Qed.

Lemma bests_of_unique (h : heap) (groups : list DuplicateGroup.t)
    (bests bests' : list ref) :
  bests_of env h groups bests → bests_of env h groups bests' → bests = bests'.
Proof.
  intros H. revert bests'.
  induction H as [|g b groups bests [i Hi] _ IH]; intros bests' H';
    inversion H' as [|? b' ? bests'' [i' Hi'] Hrest]; subst; [done|].
  destruct (earliest_maximal_unique env h _ i i' b b' Hi Hi') as [_ ->].
  f_equal. by apply IH.
Qed.

Lemma with_bests_ok (h : heap) (groups : list DuplicateGroup.t)
    (bests : list ref) :
  bests_of env h groups bests →
  Forall (group_ok env h) (with_bests groups bests).
Proof.
  induction 1 as [|g b groups bests [i Hi] _ IH]; [constructor|].
  constructor; [|done]. by eapply group_ok_cached.
Qed.

Section SumGroups.
Context (f : DuplicateGroup.t -> heap -> Result (Z * DuplicateGroup.t * heap)).
Context (v : heap -> list ref -> ref -> Z).
Context (f_spec : ∀ h g, group_ok env h g →
  ∃ i best h',
    f g h = Ok (v h (DuplicateGroup.candidates g) best,
                DuplicateGroup.mk (DuplicateGroup.candidates g) (Some best),
                h')
    ∧ earliest_maximal env h (DuplicateGroup.candidates g) i best
    ∧ caches_filled env h h').
Context (v_filled : ∀ h h' l b, caches_filled env h h' → v h' l b = v h l b).

Lemma sum_groups_spec (groups : list DuplicateGroup.t) :
  ∀ (acc : Z) (h : heap),
    Forall (group_ok env h) groups →
    ∃ bests h',
      DuplicateDetector.sum_groups f groups acc h
      = Ok (acc + sum_of (λ gb, v h (DuplicateGroup.candidates gb.1) gb.2)
                    (zip groups bests),
            with_bests groups bests, h')
      ∧ bests_of env h groups bests
      ∧ caches_filled env h h'.
Proof.
  induction groups as [|g groups IH]; intros acc h Hok.
  - exists [], h. cbn. rewrite Z.add_0_r.
    split; [done|]. split; [constructor|apply caches_filled_refl].
  - apply Forall_cons in Hok as [Hg Hok].
    destruct (f_spec h g Hg) as (i & best & h1 & Hf & Hbest & Hfill1).
    destruct (IH (acc + v h (DuplicateGroup.candidates g) best) h1)
      as (bests & h2 & Hs & Hbests & Hfill2).
    { eapply Forall_impl; [exact Hok|].
      intros g'. by apply group_ok_filled. }
    exists (best :: bests), h2.
    cbn [DuplicateDetector.sum_groups]. rewrite Hf. cbn. rewrite Hs. cbn.
    split; [|split].
    + do 3 f_equal. rewrite sum_of_cons. cbn [fst snd].
      rewrite (sum_of_ext
                 (λ gb, v h1 (DuplicateGroup.candidates gb.1) gb.2)
                 (λ gb, v h (DuplicateGroup.candidates gb.1) gb.2))
        by (intros gb; by apply v_filled).
      lia.
    + constructor; [eauto|]. by eapply bests_of_filled.
    + by eapply caches_filled_trans.
Qed.

End SumGroups.

End Statistics.

Section GetStatistics.
Context (env : Env).

Lemma bests_of_with_bests (h : heap) (groups : list DuplicateGroup.t)
    (bests bests' : list ref) :
  length groups = length bests →
  bests_of env h (with_bests groups bests) bests' →
  bests_of env h groups bests'.
Proof.
  revert bests bests'.
  induction groups as [|g groups IH]; intros [|b bests] bests' Hlen H;
    try done.
  cbn in H. inversion H as [|? b' ? bests'' Hb Hrest]; subst.
  constructor; [done|]. eapply IH; [|done]. by injection Hlen.
Qed.

Lemma sum_of_with_bests (f : list ref -> Z) (groups : list DuplicateGroup.t)
    (bests : list ref) :
  length groups = length bests →
  sum_of (λ g, f (DuplicateGroup.candidates g)) (with_bests groups bests)
  = sum_of (λ g, f (DuplicateGroup.candidates g)) groups.
Proof.
  revert bests. induction groups as [|g groups IH]; intros [|b bests] Hlen;
    try done.
  cbn [with_bests zip_with]. rewrite !sum_of_cons. cbn.
  f_equal. apply IH. by injection Hlen.
Qed.

Lemma sum_of_zip_with_bests (f : list ref -> ref -> Z)
    (groups : list DuplicateGroup.t) (bests : list ref) :
  length groups = length bests →
  sum_of (λ gb, f (DuplicateGroup.candidates gb.1) gb.2)
    (zip (with_bests groups bests) bests)
  = sum_of (λ gb, f (DuplicateGroup.candidates gb.1) gb.2) (zip groups bests).
Proof.
  revert bests. induction groups as [|g groups IH]; intros [|b bests] Hlen;
    try done.
  cbn [with_bests zip_with]. rewrite !sum_of_cons. cbn.
  f_equal. apply IH. by injection Hlen.
Qed.

(** In groups of distinct candidates each list of duplicates to remove is
    one shorter than the group. *)
Lemma sum_of_removed_NoDup (h : heap) (groups : list DuplicateGroup.t)
    (bests : list ref) :
  bests_of env h groups bests →
  Forall (λ g, NoDup (DuplicateGroup.candidates g)) groups →
  sum_of (λ gb, Z.of_nat
                  (length (filter (λ c, c ≠ gb.2)
                             (DuplicateGroup.candidates gb.1))))
    (zip groups bests)
  = sum_of (λ g, DuplicateGroup.size g - 1) groups.
Proof.
  induction 1 as [|g b groups bests [i Hi] _ IH]; intros Hnd; [done|].
  apply Forall_cons in Hnd as [Hg Hnd].
  cbn [zip zip_with]. rewrite !sum_of_cons, IH by done. cbn [fst snd].
  pose proof (length_filter_ne b (DuplicateGroup.candidates g) Hg
                (earliest_maximal_elem env h _ i b Hi)).
  unfold DuplicateGroup.size. lia.
Qed.

End GetStatistics.

(** *** The quotient of two integers as a float *)

Lemma digits2_pos_lt (p : positive) : Zpos p < 2 ^ Zpos (digits2_pos p).
Proof.
  induction p as [p IH|p IH|]; cbn [digits2_pos]; [| |done].
  - rewrite Pos2Z.inj_succ, Z.pow_succ_r by lia. lia.
  - rewrite Pos2Z.inj_succ, Z.pow_succ_r by lia. lia.
Qed.

Lemma digits2_pos_ge (p : positive) : 2 ^ (Zpos (digits2_pos p) - 1) <= Zpos p.
Proof.
  induction p as [p IH|p IH|]; cbn [digits2_pos]; [| |done].
  - rewrite Pos2Z.inj_succ. replace (Z.succ (Zpos (digits2_pos p)) - 1)
      with (Z.succ (Zpos (digits2_pos p) - 1)) by lia.
    rewrite Z.pow_succ_r by lia. lia.
  - rewrite Pos2Z.inj_succ. replace (Z.succ (Zpos (digits2_pos p)) - 1)
      with (Z.succ (Zpos (digits2_pos p) - 1)) by lia.
    rewrite Z.pow_succ_r by lia. lia.
Qed.

(** A number below [2 ^ n] has at most [n] binary digits. *)
Lemma Zdigits2_le (m n : Z) : 0 <= m < 2 ^ n → 0 <= n → Zdigits2 m <= n.
Proof.
  intros [Hm Hlt] Hn. destruct m as [|p|p]; [done| |lia]. cbn.
  pose proof (digits2_pos_ge p) as Hge.
  destruct (Z.le_gt_cases (Zpos (digits2_pos p)) n) as [|Hgt]; [done|].
  exfalso.
  assert (2 ^ n <= 2 ^ (Zpos (digits2_pos p) - 1))
    by (apply Z.pow_le_mono_r; lia).
  lia.
Qed.

Lemma Zdigits2_nonneg (m : Z) : 0 <= Zdigits2 m.
Proof. by destruct m. Qed.

Lemma Zdigits2_lt (m : Z) : 0 <= m → m < 2 ^ Zdigits2 m.
Proof.
  intros Hm. destruct m as [|p|p]; [done| |lia]. apply digits2_pos_lt.
Qed.

Lemma shr_1_m (mrs : shr_record) :
  0 <= shr_m mrs → shr_m (shr_1 mrs) = shr_m mrs / 2.
Proof.
  destruct mrs as [m r s]. cbn [shr_m]. intros Hm.
  destruct m as [|[p|p|]|p]; cbn [shr_1 shr_m]; try done; try lia.
  - rewrite Pos2Z.inj_xI. apply Z.div_unique with 1; lia.
  - rewrite Pos2Z.inj_xO. apply Z.div_unique with 0; lia.
Qed.

Lemma iter_shr_1_m (p : positive) (mrs : shr_record) :
  0 <= shr_m mrs →
  shr_m (SpecFloat.iter_pos shr_1 p mrs) = shr_m mrs / 2 ^ Zpos p.
Proof.
  revert mrs. induction p as [p IH|p IH|]; intros mrs Hm; cbn [SpecFloat.iter_pos].
  - assert (0 <= shr_m (shr_1 mrs))
      by (rewrite shr_1_m by done; by apply Z.div_pos).
    assert (0 <= shr_m (SpecFloat.iter_pos shr_1 p (shr_1 mrs)))
      by (rewrite IH by done; apply Z.div_pos; lia).
    rewrite !IH, shr_1_m by done.
    rewrite !Z.div_div by lia. f_equal.
    rewrite Pos2Z.inj_xI, <- Z.pow_add_r, <- (Z.pow_1_r 2) at 1 by lia.
    rewrite <- Z.pow_add_r by lia. f_equal. lia.
  - assert (0 <= shr_m (SpecFloat.iter_pos shr_1 p mrs))
      by (rewrite IH by done; apply Z.div_pos; lia).
    rewrite !IH by done. rewrite Z.div_div by lia. f_equal.
    rewrite Pos2Z.inj_xO, <- Z.pow_add_r by lia. f_equal. lia.
  - rewrite shr_1_m by done. by rewrite Z.pow_1_r.
Qed.

Lemma shr_m_of_loc (m : Z) (l : location) : shr_m (shr_record_of_loc m l) = m.
Proof. by destruct l as [|[| |]]. Qed.

(** What [shr_fexp] leaves: a mantissa that is not negative, with no more
    digits above the exponent than before, and the exponent. *)
Lemma shr_fexp_bound (m e : Z) (l : location) (B : Z) :
  0 <= m → Zdigits2 m + e <= B → -1074 <= B →
  let '(mrs, e') := shr_fexp prec emax m e l in
  0 <= shr_m mrs ∧ Zdigits2 (shr_m mrs) + e' <= B
  ∧ e' = Z.max e (fexp prec emax (Zdigits2 m + e)).
Proof.
  intros Hm HB HB'. unfold shr_fexp, shr.
  set (X := Zdigits2 m + e). set (F := fexp prec emax X).
  assert (HF : F = Z.max (X - 53) (-1074)) by done.
  destruct (F - e) as [|n|n] eqn:Hn.
  - rewrite shr_m_of_loc. split; [done|]. split; [done|]. lia.
  - set (mrs0 := shr_record_of_loc m l).
    assert (Hm0 : shr_m mrs0 = m) by apply shr_m_of_loc.
    rewrite iter_shr_1_m by (by rewrite Hm0). rewrite Hm0.
    assert (Hq : 0 <= m / 2 ^ Zpos n) by (apply Z.div_pos; lia).
    split; [done|]. split; [|lia].
    pose proof (Zdigits2_lt m Hm) as Hlt.
    pose proof (Zdigits2_nonneg m) as Hd.
    destruct (Z.le_gt_cases (Zpos n) (Zdigits2 m)) as [Hle|Hgt].
    + assert (Zdigits2 (m / 2 ^ Zpos n) <= Zdigits2 m - Zpos n); [|lia].
      apply Zdigits2_le; [|lia]. split; [done|].
      apply Z.div_lt_upper_bound; [lia|].
      rewrite <- Z.pow_add_r by lia.
      by replace (Zpos n + (Zdigits2 m - Zpos n)) with (Zdigits2 m) by lia.
    + rewrite Z.div_small; [cbn; lia|]. split; [done|].
      assert (2 ^ Zdigits2 m <= 2 ^ Zpos n) by (apply Z.pow_le_mono_r; lia).
      lia.
  - rewrite shr_m_of_loc. split; [done|]. split; [done|]. lia.
Qed.

Lemma round_nearest_even_bound (m : Z) (l : location) :
  0 <= m →
  0 <= round_nearest_even m l
  ∧ Zdigits2 (round_nearest_even m l) <= Zdigits2 m + 1.
Proof.
  intros Hm.
  assert (H1 : Zdigits2 (m + 1) <= Zdigits2 m + 1).
  { pose proof (Zdigits2_lt m Hm). pose proof (Zdigits2_nonneg m).
    apply Zdigits2_le; [|lia]. rewrite Z.pow_add_r, Z.pow_1_r by lia. lia. }
  destruct l as [|[| |]]; cbn [round_nearest_even]; try (split; [done|lia]).
  - destruct (Z.even m); split; lia.
  - split; lia.
Qed.

(** Rounding a mantissa that is not negative does not overflow when it
    has few digits above a small exponent. *)
Lemma binary_round_aux_finite (s : bool) (m e : Z) (l : location) :
  0 <= m → e <= 971 → Zdigits2 m + e <= 1023 →
  ∀ s', binary_round_aux prec emax s m e l ≠ S754_infinity s'.
Proof.
  intros Hm He HX s'. unfold binary_round_aux.
  pose proof (shr_fexp_bound m e l 1023 Hm HX) as H1.
  destruct (shr_fexp prec emax m e l) as [mrs1 e1].
  destruct H1 as (Hm1 & HX1 & He1); [lia|].
  destruct (round_nearest_even_bound (shr_m mrs1) (loc_of_shr_record mrs1) Hm1)
    as [Hm2 Hd2].
  set (m2 := round_nearest_even (shr_m mrs1) (loc_of_shr_record mrs1)) in *.
  pose proof (shr_fexp_bound m2 e1 loc_Exact 1024 Hm2) as H2.
  destruct (shr_fexp prec emax m2 e1 loc_Exact) as [mrs2 e2].
  destruct H2 as (Hm3 & HX3 & He2); [lia|lia|].
  assert (He1' : e1 <= 971).
  { rewrite He1. unfold fexp. change prec with 53.
    change (SpecFloat.emin 53 emax) with (-1074). lia. }
  assert (He2' : e2 <= 971).
  { rewrite He2. unfold fexp. change prec with 53.
    change (SpecFloat.emin 53 emax) with (-1074). lia. }
  destruct (shr_m mrs2) as [|p|p]; [done| |done].
  change (emax - prec) with 971.
  destruct (Z.leb_spec e2 971); [done|lia].
Qed.

Lemma SFdiv_le_finite (pa pb : positive) :
  (pa <= pb)%positive →
  ∀ s', SFdiv prec emax (S754_finite false pa 0) (S754_finite false pb 0)
        ≠ S754_infinity s'.
Proof.
  intros Hle s'. unfold SFdiv, SFdiv_core_binary.
  set (e' := Z.min _ _).
  assert (He' : e' <= 0) by (subst e'; lia).
  set (m' := match 0 - 0 - e' with Z0 => Zpos pa | Zpos _ => _ | Zneg _ => 0 end).
  assert (Hm' : m' = Zpos pa * 2 ^ (- e')).
  { subst m'. destruct (0 - 0 - e') as [|n|n] eqn:Hs.
    - replace (- e') with 0 by lia. lia.
    - rewrite Z.shiftl_mul_pow2 by lia. f_equal. f_equal. lia.
    - lia. }
  pose proof (Z_div_mod m' (Zpos pb) eq_refl) as Hdm.
  destruct (Z.div_eucl m' (Zpos pb)) as [q r]. destruct Hdm as [Hq Hr].
  assert (Hpow : 0 < 2 ^ (- e')) by (apply Z.pow_pos_nonneg; lia).
  assert (Hq0 : 0 <= q) by nia.
  assert (Hq1 : q <= 2 ^ (- e')) by nia.
  apply binary_round_aux_finite; [done|lia|].
  assert (Zdigits2 q <= - e' + 1); [|lia].
  apply Zdigits2_le; [|lia]. rewrite Z.pow_add_r, Z.pow_1_r by lia. lia.
Qed.

(** The quotient of a part by the whole is within the range of a float. *)
Lemma int_truediv_le (a b : Z) :
  0 <= a <= b → 0 < b → ∃ quotient, int_truediv a b = Ok quotient.
Proof.
  intros [Ha Hab] Hb. unfold int_truediv.
  destruct b as [|pb|pb]; [lia| |lia].
  destruct a as [|pa|pa]; [by eexists| |lia].
  change (Z.pos pa <? 0) with false. change (Z.pos pb <? 0) with false.
  cbn [Z.abs Z.to_pos].
  pose proof (SFdiv_le_finite pa pb) as Hfin.
  destruct (SFdiv prec emax _ _) as [s|s| |s m e]; try by eexists.
  exfalso. by apply (Hfin ltac:(lia) s).
Qed.

Lemma percent_of_returns (wasted total : Z) :
  0 <= wasted <= total →
  ∃ percent,
    percent_of wasted total = Ok percent
    ∧ (0 < total →
       ∃ quotient, int_truediv wasted total = Ok quotient
                   ∧ percent = PyFloat (quotient * 100))
    ∧ (total <= 0 → percent = PyInt 0).
Proof.
  intros Hw. unfold percent_of.
  destruct (Z.ltb_spec 0 total) as [Hpos|Hle].
  - destruct (int_truediv_le wasted total Hw Hpos) as [quotient Hq].
    rewrite Hq. eexists. split; [done|]. split; [by eexists|lia].
  - eexists. split; [done|]. split; [lia|done].
Qed.

(** *** What [get_statistics] returns *)

Lemma with_bests_again (groups : list DuplicateGroup.t)
    (bests bests' : list ref) :
  length groups = length bests →
  with_bests (with_bests groups bests) bests' = with_bests groups bests'.
Proof.
  revert bests bests'.
  induction groups as [|g groups IH]; intros [|b bests] [|b' bests'] Hlen;
    try done.
  cbn. f_equal. apply IH. by injection Hlen.
Qed.


(** What [get_statistics] does for groups that have members: it returns
    unless the quotient of wasted by total bytes is beyond the floats. *)
Lemma get_statistics_result (env : Env) (self : DuplicateDetector.t)
    (groups : list DuplicateGroup.t) (h : heap) :
  Forall (group_ok env h) groups →
  ∃ (bests : list ref) (h' : heap),
    DuplicateDetector.get_statistics env self groups h
    = match percent_of (wasted_bytes h groups bests) (total_bytes h groups)
      with
      | Ok percent =>
          Ok (statistics_of h groups bests percent,
              with_bests groups bests, h')
      | Raise e => Raise e
      end
    ∧ bests_of env h groups bests
    ∧ caches_filled env h h'.
Proof.
  intros Hok. unfold DuplicateDetector.get_statistics.
  destruct (sum_groups_spec env
              (λ group h0,
                 '(dups, group', h0') ←
                   DuplicateGroup.duplicates_to_remove env group h0;
                 Ok (Z.of_nat (length dups), group', h0'))
              (λ _ l b, Z.of_nat (length (filter (λ c, c ≠ b) l))))
    with (groups := groups) (acc := 0) (h := h)
    as (bests & h1 & Hs1 & Hb1 & Hf1); [| |done|].
  { intros h0 g Hg.
    destruct (duplicates_to_remove_ok env h0 g Hg)
      as (i & best & h0' & Hd & ?).
    exists i, best, h0'. by rewrite Hd. }
  { done. }
  rewrite Hs1. cbn [mbind Result_bind].
  assert (Hlen : length groups = length bests) by by eapply Forall2_length.
  destruct (sum_groups_spec env (DuplicateGroup.get_wasted_space env)
              (λ h0 l b, sum_of (λ c, file_size (h0 c))
                           (filter (λ c, c ≠ b) l)))
    with (groups := with_bests groups bests) (acc := 0) (h := h1)
    as (bests2 & h2 & Hs2 & Hb2 & Hf2).
  { apply get_wasted_space_ok. }
  { intros h0 h0' l b Hf. apply sum_of_ext.
    intros c. by destruct (Hf c) as (_ & -> & _). }
  { eapply Forall_impl; [by apply (with_bests_ok env h)|].
    intros g. by apply group_ok_filled. }
  rewrite Hs2. cbn [mbind Result_bind].
  assert (bests2 = bests) as ->.
  { symmetry. apply (bests_of_unique env h groups); [done|].
    apply (bests_of_filled env h h1); [done|].
    by eapply bests_of_with_bests. }
  exists bests, h2. rewrite with_bests_again by done.
  split; [|split; [done|by eapply caches_filled_trans]].
  assert (Hsize : ∀ l, sum_of (λ c, file_size (h1 c)) l
                       = sum_of (λ c, file_size (h c)) l).
  { intros l. apply sum_of_ext. intros c. by destruct (Hf1 c) as (_ & -> & _). }
  assert (Htotal :
    py_sum (map (λ group, DuplicateGroup.get_total_size group h1)
              (with_bests groups bests))
    = total_bytes h groups).
  { rewrite py_sum_map.
    rewrite (sum_of_ext _
               (λ g, sum_of (λ c, file_size (h c))
                       (DuplicateGroup.candidates g)))
      by (intros g; rewrite get_total_size_sum; apply Hsize).
    exact (sum_of_with_bests (λ l, sum_of (λ c, file_size (h c)) l)
             groups bests Hlen). }
  assert (Hwasted :
    0 + sum_of (λ gb, sum_of (λ c, file_size (h1 c))
                        (filter (λ c, c ≠ gb.2)
                           (DuplicateGroup.candidates gb.1)))
          (zip (with_bests groups bests) bests)
    = wasted_bytes h groups bests).
  { rewrite Z.add_0_l.
    etrans;
      [exact (sum_of_zip_with_bests
                (λ l b, sum_of (λ c, file_size (h1 c))
                          (filter (λ c, c ≠ b) l)) groups bests Hlen)|].
    apply sum_of_ext. intros gb. apply Hsize. }
  rewrite Htotal, Hwasted, py_sum_map. unfold percent_of.
  destruct (0 <? total_bytes h groups); [|reflexivity].
  by destruct (int_truediv _ _).
Qed.

Lemma sum_of_filter_bounds (f : ref -> Z) (P : ref -> Prop)
    `{!∀ c, Decision (P c)} (l : list ref) :
  (∀ c, c ∈ l → 0 <= f c) →
  0 <= sum_of f (filter P l) <= sum_of f l.
Proof.
  induction l as [|x l IH]; intros Hpos; [done|].
  assert (0 <= f x) by (apply Hpos; left).
  assert (0 <= sum_of f (filter P l) <= sum_of f l)
    by (apply IH; intros c Hc; apply Hpos; by right).
  rewrite filter_cons. destruct (decide (P x)); rewrite ?sum_of_cons; lia.
Qed.


(** Without a negative size, the bytes of the members that are not the
    best candidates are part of the bytes of all members. *)
Lemma wasted_bytes_bounds (env : Env) (h : heap)
    (groups : list DuplicateGroup.t) (bests : list ref) :
  bests_of env h groups bests →
  (∀ g c, g ∈ groups → c ∈ DuplicateGroup.candidates g →
          0 <= file_size (h c)) →
  0 <= wasted_bytes h groups bests <= total_bytes h groups.
Proof.
  unfold wasted_bytes, total_bytes, bytes_of.
  induction 1 as [|g b groups bests [i Hi] _ IH]; intros Hpos; [done|].
  cbn [zip zip_with]. rewrite !sum_of_cons. cbn [fst snd].
  pose proof (sum_of_filter_bounds (λ c, file_size (h c)) (λ c, c ≠ b)
                (DuplicateGroup.candidates g)) as Hg.
  assert (0 <= sum_of (λ gb : DuplicateGroup.t * ref,
                         sum_of (λ c, file_size (h c))
                           (filter (λ c, c ≠ gb.2)
                              (DuplicateGroup.candidates gb.1)))
                 (zip groups bests)
          <= sum_of (λ g, sum_of (λ c, file_size (h c))
                           (DuplicateGroup.candidates g)) groups).
  { apply IH. intros g' c Hg'. apply Hpos. by right. }
  assert (0 <= sum_of (λ c, file_size (h c))
                 (filter (λ c, c ≠ b) (DuplicateGroup.candidates g))
          <= sum_of (λ c, file_size (h c)) (DuplicateGroup.candidates g)).
  { apply Hg. intros c Hc. apply (Hpos g); [left|done]. }
  lia.
Qed.

(** Groups that have members and hold no negative size: [get_statistics]
    returns. *)
Lemma get_statistics_returns (env : Env) (self : DuplicateDetector.t)
    (groups : list DuplicateGroup.t) (h : heap) :
  Forall (group_ok env h) groups →
  (∀ g c, g ∈ groups → c ∈ DuplicateGroup.candidates g →
          0 <= file_size (h c)) →
  ∃ (bests : list ref) (percent : Number) (h' : heap),
    DuplicateDetector.get_statistics env self groups h
    = Ok (statistics_of h groups bests percent, with_bests groups bests, h')
    ∧ percent_of (wasted_bytes h groups bests) (total_bytes h groups)
      = Ok percent
    ∧ 0 <= wasted_bytes h groups bests <= total_bytes h groups
    ∧ bests_of env h groups bests
    ∧ caches_filled env h h'.
Proof.
  intros Hok Hpos.
  destruct (get_statistics_result env self groups h Hok)
    as (bests & h' & Hres & Hbests & Hf).
  pose proof (wasted_bytes_bounds env h groups bests Hbests Hpos) as Hw.
  destruct (percent_of_returns _ _ Hw) as (percent & Hp & _).
  rewrite Hp in Hres. by exists bests, percent, h'.
Qed.

(** C7: for groups of distinct candidates, each with at least one member
    and none of a negative size, [get_statistics] returns the number of
    groups, the sum of their sizes, the sum of the lengths of their lists
    of duplicates to remove, which is one less than the size for every
    group, the difference of the two, the byte sums, and as the percentage
    the float quotient of wasted by total bytes times 100, or the integer
    0 when the total is not positive; on no groups every field is zero. *)
Theorem get_statistics_fields (env : Env) (self : DuplicateDetector.t)
    (groups : list DuplicateGroup.t) (h : heap) :
  Forall (group_ok env h) groups →
  Forall (λ g, NoDup (DuplicateGroup.candidates g)) groups →
  (∀ g c, g ∈ groups → c ∈ DuplicateGroup.candidates g →
          0 <= file_size (h c)) →
  ∃ (stats : Statistics) (groups' : list DuplicateGroup.t) (h' : heap)
    (bests : list ref),
    DuplicateDetector.get_statistics env self groups h
    = Ok (stats, groups', h')
    ∧ bests_of env h groups bests
    ∧ duplicate_groups stats = Z.of_nat (length groups)
    ∧ total_files_in_groups stats = sum_of DuplicateGroup.size groups
    ∧ duplicate_files stats
      = sum_of (λ gb, Z.of_nat
                        (length (filter (λ c, c ≠ gb.2)
                                   (DuplicateGroup.candidates gb.1))))
          (zip groups bests)
    ∧ duplicate_files stats
      = sum_of (λ g, DuplicateGroup.size g - 1) groups
    ∧ original_files stats
      = total_files_in_groups stats - duplicate_files stats
    ∧ total_size_bytes stats
      = sum_of (λ g, sum_of (λ c, file_size (h c))
                       (DuplicateGroup.candidates g)) groups
    ∧ wasted_space_bytes stats
      = sum_of (λ gb, sum_of (λ c, file_size (h c))
                        (filter (λ c, c ≠ gb.2)
                           (DuplicateGroup.candidates gb.1)))
          (zip groups bests)
    ∧ (0 < total_size_bytes stats →
       ∃ quotient,
         int_truediv (wasted_space_bytes stats) (total_size_bytes stats)
         = Ok quotient
         ∧ space_savings_percent stats = PyFloat (quotient * 100))
    ∧ (total_size_bytes stats <= 0 →
       space_savings_percent stats = PyInt 0)
    ∧ (groups = [] →
       stats = {| duplicate_groups := 0; total_files_in_groups := 0;
                  duplicate_files := 0; original_files := 0;
                  total_size_bytes := 0; wasted_space_bytes := 0;
                  space_savings_percent := PyInt 0 |}).
Proof.
  intros Hok Hnd Hpos.
  destruct (get_statistics_returns env self groups h Hok Hpos)
    as (bests & percent & h' & Hres & Hp & Hw & Hbests & _).
  exists (statistics_of h groups bests percent), (with_bests groups bests),
    h', bests.
  split; [exact Hres|]. split; [exact Hbests|].
  destruct (percent_of_returns _ _ Hw) as (percent' & Hp' & Hfloat & Hint).
  assert (percent' = percent) as -> by congruence.
  cbn [statistics_of duplicate_groups total_files_in_groups duplicate_files
       original_files total_size_bytes wasted_space_bytes
       space_savings_percent].
  split; [done|]. split; [done|]. split; [done|].
  split; [by eapply sum_of_removed_NoDup|].
  split; [done|]. split; [done|]. split; [done|].
  split; [exact Hfloat|]. split; [exact Hint|].
  intros ->. inversion Hbests; subst.
  rewrite (Hint ltac:(done)). reflexivity.
Qed.

Lemma get_statistics_fields_witness :
  ∃ (stats : Statistics) (groups' : list DuplicateGroup.t) (h' : heap)
    (bests : list ref),
    DuplicateDetector.get_statistics example_env example_detector
      [DuplicateGroup.__init__ [1; 0; 2]%nat] example_store
    = Ok (stats, groups', h')
    ∧ bests_of example_env example_store
        [DuplicateGroup.__init__ [1; 0; 2]%nat] bests
    ∧ duplicate_groups stats = 1
    ∧ total_files_in_groups stats
      = sum_of DuplicateGroup.size [DuplicateGroup.__init__ [1; 0; 2]%nat]
    ∧ duplicate_files stats
      = sum_of (λ gb, Z.of_nat
                        (length (filter (λ c, c ≠ gb.2)
                                   (DuplicateGroup.candidates gb.1))))
          (zip [DuplicateGroup.__init__ [1; 0; 2]%nat] bests)
    ∧ duplicate_files stats
      = sum_of (λ g, DuplicateGroup.size g - 1)
          [DuplicateGroup.__init__ [1; 0; 2]%nat]
    ∧ original_files stats
      = total_files_in_groups stats - duplicate_files stats
    ∧ total_size_bytes stats
      = sum_of (λ g, sum_of (λ c, file_size (example_store c))
                       (DuplicateGroup.candidates g))
          [DuplicateGroup.__init__ [1; 0; 2]%nat]
    ∧ wasted_space_bytes stats
      = sum_of (λ gb, sum_of (λ c, file_size (example_store c))
                        (filter (λ c, c ≠ gb.2)
                           (DuplicateGroup.candidates gb.1)))
          (zip [DuplicateGroup.__init__ [1; 0; 2]%nat] bests)
    ∧ (0 < total_size_bytes stats →
       ∃ quotient,
         int_truediv (wasted_space_bytes stats) (total_size_bytes stats)
         = Ok quotient
         ∧ space_savings_percent stats = PyFloat (quotient * 100))
    ∧ (total_size_bytes stats <= 0 →
       space_savings_percent stats = PyInt 0)
    ∧ ([DuplicateGroup.__init__ [1; 0; 2]%nat] = [] →
       stats = {| duplicate_groups := 0; total_files_in_groups := 0;
                  duplicate_files := 0; original_files := 0;
                  total_size_bytes := 0; wasted_space_bytes := 0;
                  space_savings_percent := PyInt 0 |}).
Proof.
  apply (get_statistics_fields example_env example_detector
           [DuplicateGroup.__init__ [1; 0; 2]%nat] example_store).
  - repeat constructor; [discriminate|]. intros b [=].
  - constructor; [|constructor]. by apply (bool_decide_unpack _).
  - intros g c _ _. destruct c as [|[|[|[|c]]]]; cbn; lia.
Defined.

(** The group of the candidates 1, 0 and 2 of the sample store, 5120 bytes
    of which 3072 are wasted: the percentage is the float 60. *)
Lemma get_statistics_sample :
  ∃ groups' h',
    DuplicateDetector.get_statistics example_env example_detector
      [DuplicateGroup.__init__ [1; 0; 2]%nat] example_store
    = Ok ({| duplicate_groups := 1; total_files_in_groups := 3;
             duplicate_files := 2; original_files := 1;
             total_size_bytes := 5120; wasted_space_bytes := 3072;
             space_savings_percent := PyFloat 60 |},
          groups', h').
Proof. eexists _, _. vm_compute. reflexivity. Qed.

(** Three files of one byte each: two thirds of the bytes are wasted, and
    the percentage is the float 66.66666666666666. *)
Lemma get_statistics_two_thirds :
  ∃ groups' h',
    DuplicateDetector.get_statistics example_env example_detector
      [DuplicateGroup.__init__ [0; 1; 2]%nat]
      (λ _, DuplicateCandidate.__init__ "a.jpg" 1 (Some "F0F0"))
    = Ok ({| duplicate_groups := 1; total_files_in_groups := 3;
             duplicate_files := 2; original_files := 1;
             total_size_bytes := 3; wasted_space_bytes := 2;
             space_savings_percent := PyFloat 66.66666666666666 |},
          groups', h').
Proof. eexists _, _. vm_compute. reflexivity. Qed.

(** Outside these groups: when a group lists one candidate twice, both
    entries are removed, so the group of size 2 counts 0 duplicate files;
    on a group without members no statistics are returned, as [max]
    raises; and sizes of opposite signs can put the quotient beyond the
    floats, where the division raises. *)
Lemma get_statistics_outside :
  (∃ stats groups' h',
     DuplicateDetector.get_statistics example_env example_detector
       [DuplicateGroup.__init__ [0; 0]%nat] example_store
     = Ok (stats, groups', h')
     ∧ duplicate_files stats = 0)
  ∧ (∃ msg,
       DuplicateDetector.get_statistics example_env example_detector
         [DuplicateGroup.__init__ []] example_store
       = Raise (ValueError msg))
  ∧ (∃ msg,
       DuplicateDetector.get_statistics example_env example_detector
         [DuplicateGroup.__init__ [0; 1]%nat]
         (λ r, DuplicateCandidate.__init__ "a.jpg"
                 (if (r =? 0)%nat then 2 ^ 1025 else 1 - 2 ^ 1025) None)
       = Raise (OverflowError msg)).
Proof.
  split; [|split].
  - eexists _, _, _. split; [vm_compute; reflexivity|]. done.
  - eexists. vm_compute. reflexivity.
  - eexists. vm_compute. reflexivity.
Qed.

(** ** Similarity grouping *)

Section FindDuplicates.
Context (self : DuplicateDetector.t) (h : heap).

Lemma unskipped_Some (processed : gset nat) (i : nat)
    (c : DuplicateCandidate.t) (s : string) :
  DuplicateDetector.unskipped processed i c = Some s ↔
  (i ∉ processed) ∧ image_hash c = Some s ∧ s ≠ "".
Proof.
  unfold DuplicateDetector.unskipped.
  destruct (decide (i ∈ processed)) as [Hin|Hin].
  - rewrite bool_decide_eq_true_2 by done. cbn. naive_solver.
  - rewrite bool_decide_eq_false_2 by done. cbn.
    destruct (image_hash c) as [[|x s']|]; cbn; naive_solver.
Qed.

Lemma unskipped_None (processed : gset nat) (i : nat)
    (c : DuplicateCandidate.t) :
  DuplicateDetector.unskipped processed i c = None ↔
  i ∈ processed ∨ ¬ fingerprint_present c.
Proof.
  unfold DuplicateDetector.unskipped, fingerprint_present.
  destruct (decide (i ∈ processed)) as [Hin|Hin].
  - rewrite bool_decide_eq_true_2 by done. cbn. naive_solver.
  - rewrite bool_decide_eq_false_2 by done. cbn.
    destruct (image_hash c) as [[|x s']|]; cbn; naive_solver.
Qed.

(** The inner loop: what it adds is a sublist of what it scans, each added
    candidate was unprocessed, has a fingerprint and is similar to the
    anchor; and whatever scanned candidate has a fingerprint similar to the
    anchor's is processed afterwards. *)
Lemma find_similar_spec (hash1 : string) (items : list (nat * ref)) :
  ∀ (group : list ref) (processed : gset nat),
  ∃ added : list (nat * ref),
    DuplicateDetector.find_similar self h hash1 items group processed
    = Ok ((group ++ added.*2)%list, list_to_set added.*1 ∪ processed)
    ∧ sublist added items
    ∧ (∀ j c, (j, c) ∈ added →
         (j ∉ processed)
         ∧ ∃ hash2, image_hash (h c) = Some hash2 ∧ hash2 ≠ ""
                    ∧ DuplicateDetector.are_similar self hash1 hash2
                      = Ok true)
    ∧ (∀ j c hash2, (j, c) ∈ items →
         image_hash (h c) = Some hash2 → hash2 ≠ "" →
         DuplicateDetector.are_similar self hash1 hash2 = Ok true →
         j ∈ list_to_set (C := gset nat) added.*1 ∪ processed).
Proof.
  induction items as [|[j c2] rest IH]; intros group processed.
  - exists []. cbn. rewrite app_nil_r, (left_id_L ∅ (∪)).
    split; [done|]. split; [done|].
    split; [intros ?? H%elem_of_nil; done|intros ??? H%elem_of_nil; done].
  - cbn [DuplicateDetector.find_similar].
    destruct (DuplicateDetector.unskipped processed j (h c2)) as [hash2|]
      eqn:Hskip.
    + apply unskipped_Some in Hskip as (Hj & Hhash & Hne).
      destruct (are_similar_returns self hash1 hash2) as [[|] Hsim];
        rewrite Hsim; cbn [mbind Result_bind].
      * destruct (IH (group ++ [c2])%list ({[j]} ∪ processed))
          as (added & Hres & Hsub & Hadded & Hclosed).
        exists ((j, c2) :: added). rewrite Hres. cbn.
        split; [|split; [|split]].
        -- f_equal. f_equal; [by rewrite <- app_assoc|set_solver].
        -- by apply sublist_skip.
        -- intros j' c' [[= -> ->]|Hin]%elem_of_cons; [eauto|].
           destruct (Hadded j' c' Hin) as [Hj' ?]. split; [set_solver|done].
        -- intros j' c' hash' [[= -> ->]|Hin]%elem_of_cons ???;
             [set_solver|].
           pose proof (Hclosed j' c' hash' Hin). set_solver.
      * destruct (IH group processed)
          as (added & Hres & Hsub & Hadded & Hclosed).
        exists added. rewrite Hres.
        split; [done|]. split; [by apply sublist_cons|]. split; [done|].
        intros j' c' hash' [[= -> ->]|Hin]%elem_of_cons ???; [|by eauto].
        congruence.
    + apply unskipped_None in Hskip.
      destruct (IH group processed)
        as (added & Hres & Hsub & Hadded & Hclosed).
      exists added. rewrite Hres.
      split; [done|]. split; [by apply sublist_cons|]. split; [done|].
      intros j' c' hash' [[= -> ->]|Hin]%elem_of_cons Hh Hne Hsim;
        [|by eauto].
      destruct Hskip as [?|Hnp]; [set_solver|].
      exfalso. apply Hnp. red. eauto.
Qed.

Lemma enumerate_cons {A} (x : A) (l : list A) (start : nat) :
  enumerate (x :: l) start = (start, x) :: enumerate l (S start).
Proof. reflexivity. Qed.

Lemma enumerate_snd {A} (l : list A) (start : nat) :
  (enumerate l start).*2 = l.
Proof.
  revert start. induction l as [|x l IH]; intros start; [done|].
  rewrite enumerate_cons. cbn. by rewrite IH.
Qed.

Lemma elem_of_enumerate_drop {A} (l : list A) (i j : nat) (x : A) :
  (j, x) ∈ enumerate (drop i l) i ↔ (i <= j)%nat ∧ l !! j = Some x.
Proof.
  revert i. induction l as [|y l IH] using rev_ind; intros i.
  - rewrite drop_nil. cbn. rewrite elem_of_nil. naive_solver.
  - destruct (decide (i <= length l)%nat) as [Hle|Hgt].
    + rewrite drop_app_le by done. unfold enumerate in *.
      rewrite length_app. cbn [length].
      replace (length (drop i l) + 1)%nat with (S (length (drop i l)))
        by lia.
      rewrite seq_S, zip_with_app by by rewrite length_seq.
      rewrite elem_of_app, IH. cbn. rewrite list_elem_of_singleton.
      rewrite length_drop.
      replace (i + (length l - i))%nat with (length l) by lia.
      split.
      * intros [[? Hl]|[= -> ->]].
        -- split; [done|]. by apply lookup_app_l_Some.
        -- split; [done|]. by rewrite lookup_app_r, Nat.sub_diag.
      * intros [Hij Hl]. apply lookup_app_Some in Hl as [Hl|[Hge Hl]];
          [by left|].
        right. apply list_lookup_singleton_Some in Hl as [Hz ->].
        f_equal. lia.
    + rewrite drop_ge by (rewrite length_app; cbn; lia). cbn.
      rewrite elem_of_nil. split; [done|]. intros [Hij Hl].
      apply lookup_lt_Some in Hl. rewrite length_app in Hl. cbn in Hl. lia.
Qed.

(** The outer loop, entered at index [i] with the groups formed so far:
    everything from [i] on that is similar to the anchor of a formed group
    is processed already. *)
Lemma find_groups_spec (candidates : list ref) :
  ∀ (k i : nat) (groups : list DuplicateGroup.t) (processed : gset nat),
    (i + k = length candidates)%nat →
    (∀ g a j c,
       g ∈ groups → head (DuplicateGroup.candidates g) = Some a →
       (i <= j)%nat → candidates !! j = Some c →
       fingerprint_present (h c) → similar_hashes self h a c →
       j ∈ processed) →
    ∃ new : list DuplicateGroup.t,
      DuplicateDetector.find_groups self h candidates
        (enumerate (drop i candidates) i) groups processed
      = Ok (groups ++ new)%list
      ∧ Forall (λ g, DuplicateGroup._best_candidate g = None
                     ∧ anchored_group self h (DuplicateGroup.candidates g)
                     ∧ sublist (DuplicateGroup.candidates g)
                         (drop i candidates)) new
      ∧ (∀ g a g' r,
           g ∈ groups → head (DuplicateGroup.candidates g) = Some a →
           g' ∈ new → r ∈ DuplicateGroup.candidates g' →
           ¬ similar_hashes self h a r)
      ∧ separated self h new.
Proof.
  induction k as [|k IH]; intros i groups processed Hik Hinv.
  { rewrite drop_ge by lia. exists []. cbn. rewrite app_nil_r.
    split; [done|]. split; [done|]. split.
    - intros ???? _ _ Hg'. by apply elem_of_nil in Hg'.
    - intros k1 k2 g1 g2 a r _ Hg1. by rewrite lookup_nil in Hg1. }
  destruct (lookup_lt_is_Some_2 candidates i) as [c1 Hc1]; [lia|].
  rewrite (drop_S _ _ _ Hc1), enumerate_cons.
  cbn [DuplicateDetector.find_groups].
  assert (Hweaken : ∀ new : list DuplicateGroup.t,
    Forall (λ g, DuplicateGroup._best_candidate g = None
                 ∧ anchored_group self h (DuplicateGroup.candidates g)
                 ∧ sublist (DuplicateGroup.candidates g)
                     (drop (S i) candidates)) new →
    Forall (λ g, DuplicateGroup._best_candidate g = None
                 ∧ anchored_group self h (DuplicateGroup.candidates g)
                 ∧ sublist (DuplicateGroup.candidates g)
                     (c1 :: drop (S i) candidates)) new).
  { intros new Hnew. eapply Forall_impl; [exact Hnew|]. intros g (? & ? & ?).
    split; [done|]. split; [done|]. by apply sublist_cons. }
  destruct (DuplicateDetector.unskipped processed i (h c1)) as [hash1|]
    eqn:Hskip.
  2:{ destruct (IH (S i) groups processed) as (new & Hres & Hnew & Hold & Hsep);
        [lia|intros g a j c ?? Hj ???; eapply (Hinv g a j c); try done; lia|].
      exists new. rewrite Hres. split; [done|]. split; [by apply Hweaken|].
      by split. }
  apply unskipped_Some in Hskip as (Hi & Hhash1 & Hne1).
  rewrite Nat.add_1_r.
  destruct (find_similar_spec hash1
              (enumerate (drop (S i) candidates) (S i)) [c1]
              ({[i]} ∪ processed))
    as (added & Hres & Hsub & Hadded & Hclosed).
  rewrite Hres. cbn [mbind Result_bind].
  assert (Hin_added : ∀ j c, (j, c) ∈ added →
            (S i <= j)%nat ∧ candidates !! j = Some c).
  { intros j c Hjc. apply elem_of_enumerate_drop.
    by eapply elem_of_sublist. }
  destruct added as [|[j0 c0] added'].
  { cbn [length app fmap list_fmap Nat.ltb Nat.leb].
    destruct (IH (S i) groups
                (list_to_set (C := gset nat) [] ∪ ({[i]} ∪ processed)))
      as (new & Hres' & Hnew & Hold & Hsep); [lia| |].
    { intros g a j c ?? Hj ???.
      assert (j ∈ processed) by (eapply (Hinv g a j c); try done; lia).
      set_solver. }
    exists new. rewrite Hres'. split; [done|]. split; [by apply Hweaken|].
    by split. }
  set (added := (j0, c0) :: added') in *.
  set (g0 := DuplicateGroup.__init__ ([c1] ++ added.*2)).
  replace (1 <? length ([c1] ++ added.*2))%nat with true by done.
  destruct (IH (S i) (groups ++ [g0])%list
              (list_to_set added.*1 ∪ ({[i]} ∪ processed)))
    as (new & Hres' & Hnew & Hold & Hsep); [lia| |].
  { intros g a j c Hg Ha Hj Hc Hpres Hsim.
    apply elem_of_app in Hg as [Hg|Hg].
    - assert (j ∈ processed) by (eapply (Hinv g a j c); try done; lia).
      set_solver.
    - apply list_elem_of_singleton in Hg as ->. cbn in Ha.
      injection Ha as <-.
      destruct Hsim as (ha & hc & Hha & Hhc & Hsim).
      assert (ha = hash1) as -> by congruence.
      destruct Hpres as (s & Hs & Hsne).
      assert (s = hc) as -> by congruence.
      eapply (Hclosed j c hc); [|done..].
      by apply elem_of_enumerate_drop. }
  assert (Hg0 : anchored_group self h (DuplicateGroup.candidates g0)).
  { exists c1, added.*2. split; [done|]. split; [done|]. split.
    - intros c [->|Hc]%elem_of_cons; [red; eauto|].
      apply list_elem_of_fmap in Hc as ([j c'] & -> & Hjc).
      destruct (Hadded j c' Hjc) as (_ & hash2 & ? & ? & _). red. eauto.
    - intros c Hc. apply list_elem_of_fmap in Hc as ([j c'] & -> & Hjc).
      destruct (Hadded j c' Hjc) as (_ & hash2 & ? & ? & ?).
      exists hash1, hash2. eauto. }
  assert (Hg0_old : ∀ g a r,
            g ∈ groups → head (DuplicateGroup.candidates g) = Some a →
            r ∈ DuplicateGroup.candidates g0 → ¬ similar_hashes self h a r).
  { intros g a r Hg Ha Hr Hsim. change (r ∈ c1 :: added.*2) in Hr.
    apply elem_of_cons in Hr as [->|Hr].
    - apply Hi. eapply (Hinv g a i c1); try done. red. eauto.
    - apply list_elem_of_fmap in Hr as ([j c'] & -> & Hjc).
      destruct (Hadded j c' Hjc) as (Hj & hash2 & ? & ? & _).
      destruct (Hin_added j c' Hjc) as [Hle Hc'].
      apply Hj. apply elem_of_union_r.
      eapply (Hinv g a j c'); try done; [lia|]. red. eauto. }
  exists (g0 :: new). rewrite Hres'.
  split; [by rewrite <- app_assoc|]. split; [|split].
  - constructor; [|by apply Hweaken].
    split; [done|]. split; [done|].
    change (sublist (c1 :: added.*2) (c1 :: drop (S i) candidates)).
    apply sublist_skip.
    rewrite <- (enumerate_snd (drop (S i) candidates) (S i)).
    by apply fmap_sublist.
  - intros g a g' r Hg Ha [->|Hg']%elem_of_cons Hr.
    + by eapply Hg0_old.
    + eapply (Hold g a g' r); try done. apply elem_of_app. by left.
  - intros k1 k2 g1 g2 a r Hlt Hg1 Hg2 Ha Hr.
    destruct k2 as [|k2]; [lia|]. cbn in Hg2.
    destruct k1 as [|k1]; cbn in Hg1.
    + injection Hg1 as <-.
      eapply (Hold g0 a g2 r); try done.
      * apply elem_of_app. right. by apply list_elem_of_singleton.
      * by eapply list_elem_of_lookup_2.
    + eapply (Hsep k1 k2 g1 g2 a r); try done. lia.
Qed.

End FindDuplicates.

Lemma similar_hashes_self (self : DuplicateDetector.t) (h : heap) (a c : ref) :
  similar_hashes self h a c → similar_hashes self h a a.
Proof.
  intros (ha & hc & Ha & Hc & Hsim). exists ha, ha.
  split; [done|]. split; [done|]. by eapply are_similar_self.
Qed.

(** Groups that are anchored and separated share no member. *)
Lemma anchored_separated_disjoint (self : DuplicateDetector.t) (h : heap)
    (groups : list DuplicateGroup.t) :
  Forall (λ g, anchored_group self h (DuplicateGroup.candidates g)) groups →
  separated self h groups →
  pairwise_disjoint (DuplicateGroup.candidates <$> groups).
Proof.
  intros Hanch Hsep.
  assert (Hlt : ∀ k1 k2 g1 g2 x,
    (k1 < k2)%nat → groups !! k1 = Some g1 → groups !! k2 = Some g2 →
    x ∈ DuplicateGroup.candidates g1 → x ∈ DuplicateGroup.candidates g2 →
    False).
  { intros k1 k2 g1 g2 x Hk Hg1 Hg2 Hx1 Hx2.
    rewrite Forall_lookup in Hanch.
    destruct (Hanch k1 g1 Hg1) as (a & rest & Hmem & Hrest & _ & Hsim).
    rewrite Hmem in Hx1.
    assert (Hax : similar_hashes self h a x).
    { apply elem_of_cons in Hx1 as [->|Hx1]; [|by apply Hsim].
      destruct rest as [|m rest]; [done|].
      apply (similar_hashes_self self h a m). apply Hsim. left. }
    eapply (Hsep k1 k2 g1 g2 a x); try done. by rewrite Hmem. }
  intros k1 k2 l1 l2 x Hl1 Hl2 Hne Hx1 Hx2.
  rewrite list_lookup_fmap in Hl1, Hl2.
  destruct (groups !! k1) as [g1|] eqn:Hg1; [|done].
  destruct (groups !! k2) as [g2|] eqn:Hg2; [|done].
  injection Hl1 as <-. injection Hl2 as <-.
  destruct (Nat.lt_trichotomy k1 k2) as [?|[?|?]]; [|done|]; by eapply Hlt.
Qed.

(** A sublist of consecutive numbers is increasing. *)
Lemma sublist_seq_increasing (n s a : nat) (js : list nat) :
  sublist (a :: js) (seq s n) → ∀ j, j ∈ js → (a < j)%nat.
Proof.
  revert s. induction n as [|n IH]; intros s Hsub.
  { by apply sublist_nil_r in Hsub. }
  cbn [seq] in Hsub. apply sublist_cons_r in Hsub as [Hsub|(l' & [= -> ->] & Hsub)].
  - by eapply IH.
  - intros j Hj. pose proof (elem_of_sublist _ _ _ Hj Hsub) as Hin.
    apply elem_of_seq in Hin. lia.
Qed.

Lemma enumerate_fmap {A B} (f : A -> B) (l : list A) (start : nat) :
  enumerate (f <$> l) start = prod_map id f <$> enumerate l start.
Proof.
  revert start. induction l as [|x l IH]; intros start; [done|].
  cbn [fmap list_fmap]. rewrite !enumerate_cons. cbn. f_equal. apply IH.
Qed.

Section Renaming.
Context (self : DuplicateDetector.t) (h : heap) (f : nat -> ref).

Lemma find_similar_map (hash1 : string) (items : list (nat * nat)) :
  ∀ (group : list nat) (processed : gset nat) res,
    DuplicateDetector.find_similar self (λ i, h (f i)) hash1 items group
      processed = Ok res →
    DuplicateDetector.find_similar self h hash1 (prod_map id f <$> items)
      (f <$> group) processed = Ok (f <$> res.1, res.2).
Proof.
  induction items as [|[j c2] rest IH]; intros group processed res.
  - cbn. by intros [= <-].
  - cbn [fmap list_fmap prod_map DuplicateDetector.find_similar fst snd id].
    destruct (DuplicateDetector.unskipped processed j (h (f c2)))
      as [hash2|]; [|apply IH].
    destruct (DuplicateDetector.are_similar self hash1 hash2) as [[|]|e];
      cbn [mbind Result_bind]; [|apply IH|done].
    intros Hres. apply IH in Hres. by rewrite fmap_app in Hres.
Qed.

Lemma find_groups_map (l : list nat) (items : list (nat * nat)) :
  ∀ (groups : list DuplicateGroup.t) (processed : gset nat) res,
    DuplicateDetector.find_groups self (λ i, h (f i)) l items groups
      processed = Ok res →
    DuplicateDetector.find_groups self h (f <$> l) (prod_map id f <$> items)
      (map_group f <$> groups) processed = Ok (map_group f <$> res).
Proof.
  induction items as [|[i c1] rest IH]; intros groups processed res.
  - cbn. by intros [= <-].
  - cbn [fmap list_fmap prod_map DuplicateDetector.find_groups fst snd id].
    destruct (DuplicateDetector.unskipped processed i (h (f c1)))
      as [hash1|]; [|apply IH].
    rewrite <- fmap_drop, enumerate_fmap.
    destruct (DuplicateDetector.find_similar self (λ i0, h (f i0)) hash1
                (enumerate (drop (i + 1) l) (i + 1)) [c1]
                ({[i]} ∪ processed)) as [[g p]|e] eqn:Hinner; [|done].
    apply find_similar_map in Hinner. cbn [fmap list_fmap] in Hinner.
    rewrite Hinner. cbn [mbind Result_bind fst snd].
    rewrite length_fmap.
    destruct (1 <? length g)%nat; [|apply IH].
    intros Hres. apply IH in Hres. by rewrite fmap_app in Hres.
Qed.

End Renaming.

Lemma fmap_lookup_seq (candidates : list ref) :
  (λ i, default 0%nat (candidates !! i)) <$> seq 0 (length candidates)
  = candidates.
Proof.
  apply list_eq. intros i. rewrite list_lookup_fmap.
  destruct (decide (i < length candidates)%nat) as [Hlt|Hge].
  - rewrite lookup_seq_lt by done. cbn.
    by destruct (lookup_lt_is_Some_2 candidates i Hlt) as [c ->].
  - rewrite lookup_seq_ge by lia. cbn. symmetry.
    apply lookup_ge_None. lia.
Qed.

(** C1: every group that [find_duplicates] emits has at least two members,
    all with a fingerprint; its first member, the anchor, comes earliest in
    the input, and every other member is similar to the anchor (and only
    this is tested: see [find_duplicates_not_clique]); no input position
    and no candidate belongs to two emitted groups. *)
Theorem find_duplicates_groups (self : DuplicateDetector.t) (h : heap)
    (candidates : list ref) :
  ∃ (groups : list DuplicateGroup.t) (idx : list (list nat)),
    DuplicateDetector.find_duplicates self h candidates = Ok groups
    ∧ Forall2
        (λ g ig,
           DuplicateGroup._best_candidate g = None
           ∧ members_at candidates ig (DuplicateGroup.candidates g)
           ∧ similarity_group self h candidates ig)
        groups idx
    ∧ pairwise_disjoint idx
    ∧ pairwise_disjoint (DuplicateGroup.candidates <$> groups).
Proof.
  set (n := length candidates).
  set (f := λ i, default 0%nat (candidates !! i)).
  assert (Hf : f <$> seq 0 n = candidates) by apply fmap_lookup_seq.
  assert (Hfi : ∀ i, i ∈ seq 0 n → candidates !! i = Some (f i)).
  { intros i Hi%elem_of_seq. unfold f.
    destruct (lookup_lt_is_Some_2 candidates i) as [c ->]; [|done].
    unfold n in Hi. lia. }
  destruct (find_groups_spec self (λ i, h (f i)) (seq 0 n) n 0 [] ∅)
    as (newI & HresI & HnewI & _ & HsepI).
  { by rewrite length_seq. }
  { intros g a j c Hg. by apply elem_of_nil in Hg. }
  rewrite drop_0, app_nil_l in HresI.
  apply (find_groups_map self h f) in HresI.
  rewrite <- enumerate_fmap, Hf in HresI. cbn [fmap list_fmap] in HresI.
  destruct (find_groups_spec self h candidates n 0 [] ∅)
    as (new & Hres & Hnew & _ & Hsep).
  { done. }
  { intros g a j c Hg. by apply elem_of_nil in Hg. }
  rewrite drop_0, app_nil_l in Hres.
  assert (new = map_group f <$> newI) as -> by congruence.
  exists (map_group f <$> newI), (DuplicateGroup.candidates <$> newI).
  split; [exact Hres|]. split; [|split].
  - apply Forall2_fmap. apply Forall_Forall2_diag.
    eapply Forall_impl; [exact HnewI|].
    intros gI (Hfresh & (a & js & Hmem & Hjs & Hpres & Hsim) & Hsub).
    rewrite drop_0 in Hsub.
    assert (Hin : ∀ i, i ∈ DuplicateGroup.candidates gI → i ∈ seq 0 n)
      by (intros i Hi; by eapply elem_of_sublist).
    split; [cbn; by rewrite Hfresh|]. split.
    + cbn. apply Forall2_fmap_r, Forall_Forall2_diag, Forall_forall.
      intros i Hi. by apply Hfi, Hin.
    + exists a, js. split; [done|]. split.
      { rewrite Hmem. destruct js; [done|cbn; lia]. }
      split.
      { apply (sublist_seq_increasing n 0). by rewrite <- Hmem. }
      split.
      { intros i Hi. exists (f i).
        split; [by apply Hfi, Hin|]. by apply Hpres. }
      intros j Hj. exists (f a), (f j).
      split; [apply Hfi, Hin; rewrite Hmem; left|].
      split; [apply Hfi, Hin; rewrite Hmem; by right|].
      by apply Hsim.
  - apply (anchored_separated_disjoint self (λ i, h (f i))); [|done].
    eapply Forall_impl; [exact HnewI|]. by intros g (_ & ? & _).
  - apply (anchored_separated_disjoint self h); [|done].
    eapply Forall_impl; [exact Hnew|]. by intros g (_ & ? & _).
Qed.

(** The members of a group need not be similar to one another: candidates
    1 and 3 of the sample store both join the group anchored at candidate
    0 and are 5 bits apart, above the threshold 4. *)
Lemma find_duplicates_not_clique :
  DuplicateDetector.find_duplicates example_detector example_store
    [0; 1; 2; 3]%nat
  = Ok [DuplicateGroup.__init__ [0; 1; 3]%nat]
  ∧ DuplicateDetector.calculate_hamming_distance example_detector
      "F0F1" "F1FE" = Ok (Bits 5)
  ∧ ¬ similar_hashes example_detector example_store 1%nat 3%nat.
Proof.
  split; [by vm_compute|]. split; [by vm_compute|].
  intros (ha & hc & [= <-] & [= <-] & Hsim). by vm_compute in Hsim.
Qed.

(** ** Exact duplicates *)

Lemma dict_get_None (d : list (string * list ref)) (k : string) :
  dict_get d k = None ↔ k ∉ d.*1.
Proof.
  unfold dict_get. induction d as [|[k' v'] d IH]; cbn.
  - split; [intros _ H; by apply elem_of_nil in H|done].
  - rewrite not_elem_of_cons.
    destruct (String.eqb_spec k' k) as [->|Hne]; cbn; [naive_solver|].
    rewrite IH. naive_solver.
Qed.

Lemma dict_get_elem (d : list (string * list ref)) (k : string)
    (v : list ref) :
  NoDup d.*1 → (k, v) ∈ d → dict_get d k = Some v.
Proof.
  unfold dict_get. induction d as [|[k' v'] d IH]; cbn; intros Hnd Hin.
  - by apply elem_of_nil in Hin.
  - apply NoDup_cons in Hnd as [Hk' Hnd].
    apply elem_of_cons in Hin as [[= <- <-]|Hin].
    + by rewrite String.eqb_refl.
    + destruct (String.eqb_spec k' k) as [->|Hne]; cbn; [|by apply IH].
      exfalso. apply Hk'. apply list_elem_of_fmap. by exists (k, v).
Qed.

Lemma dict_set_get (d : list (string * list ref)) (k : string)
    (v : list ref) :
  dict_get (dict_set d k v) k = Some v.
Proof.
  unfold dict_get. induction d as [|[k' v'] d IH]; cbn.
  - by rewrite String.eqb_refl.
  - destruct (String.eqb_spec k' k) as [->|Hne]; cbn.
    + by rewrite String.eqb_refl.
    + by destruct (String.eqb_spec k' k).
Qed.

Lemma dict_set_get_ne (d : list (string * list ref)) (k k' : string)
    (v : list ref) :
  k' ≠ k → dict_get (dict_set d k v) k' = dict_get d k'.
Proof.
  intros Hne. unfold dict_get. induction d as [|[k0 v0] d IH]; cbn.
  - by destruct (String.eqb_spec k k').
  - destruct (String.eqb_spec k0 k) as [->|Hne0]; cbn.
    + by destruct (String.eqb_spec k k').
    + destruct (String.eqb_spec k0 k'); [done|apply IH].
Qed.

Lemma dict_set_keys (d : list (string * list ref)) (k : string)
    (v : list ref) :
  (dict_set d k v).*1 = if decide (k ∈ d.*1) then d.*1 else (d.*1 ++ [k])%list.
Proof.
  induction d as [|[k0 v0] d IH]; cbn.
  - by rewrite decide_False by (intros H; by apply elem_of_nil in H).
  - destruct (String.eqb_spec k0 k) as [->|Hne0]; cbn.
    + by rewrite decide_True by left.
    + rewrite IH. destruct (decide (k ∈ d.*1)) as [Hin|Hin].
      * by rewrite decide_True by by right.
      * rewrite decide_False; [done|].
        rewrite not_elem_of_cons. naive_solver.
Qed.

(** Appending to the list of a key: that list grows at its end, the others
    stay, and a new key goes last. *)
Lemma dict_append_spec (d : list (string * list ref)) (k : string) (c : ref) :
  dict_get (dict_append d k c) k
  = Some (default [] (dict_get d k) ++ [c])%list
  ∧ (∀ k', k' ≠ k → dict_get (dict_append d k c) k' = dict_get d k')
  ∧ (dict_append d k c).*1
    = if decide (k ∈ d.*1) then d.*1 else (d.*1 ++ [k])%list.
Proof.
  unfold dict_append.
  destruct (dict_get d k) as [v|] eqn:Hget.
  - rewrite bool_decide_eq_true_2 by eauto. cbn [negb]. rewrite Hget.
    split; [apply dict_set_get|]. split; [intros; by apply dict_set_get_ne|].
    apply dict_set_keys.
  - rewrite bool_decide_eq_false_2 by (by intros [? [=]]). cbn [negb].
    rewrite !dict_set_get. cbn [default].
    split; [done|].
    split; [intros; by rewrite !dict_set_get_ne|].
    apply dict_get_None in Hget.
    rewrite (dict_set_keys (dict_set d k [])), (dict_set_keys d).
    destruct (decide (k ∈ d.*1)) as [?|_]; [done|].
    rewrite decide_True; [done|]. apply elem_of_app. right. left.
Qed.

Section ExactDuplicates.
Context (env : Env).

Lemma digest_of_filled (h h' : heap) (r : ref) :
  caches_filled env h h' → digest_of env h' r = digest_of env h r.
Proof. intros H. by destruct (H r) as (_ & _ & _ & _ & _ & ?). Qed.

Lemma digest_fails_empty (h : heap) (r : ref) :
  digest_fails env h r →
  get_md5_hash env h r = ("", <[r := set_md5_hash (h r) (Some "")]> h).
Proof. intros [Hc Hr]. unfold get_md5_hash. by rewrite Hc, Hr. Qed.

(** The first loop: the list of a non-empty digest grows by the scanned
    candidates that have this digest, in their order; the empty digest gets
    no entry. *)
Lemma collect_by_md5_spec (candidates : list ref) :
  ∀ (d : list (string * list ref)) (h : heap),
    NoDup d.*1 →
    ∃ d' h',
      DuplicateDetector.collect_by_md5 env candidates d h = (d', h')
      ∧ NoDup d'.*1
      ∧ (∀ k, k ≠ "" →
           default [] (dict_get d' k)
           = (default [] (dict_get d k)
              ++ filter (λ r, digest_of env h r = k) candidates)%list)
      ∧ (∀ k, k ∈ d'.*1 ↔
              k ∈ d.*1
              ∨ (k ≠ "" ∧ ∃ r, r ∈ candidates ∧ digest_of env h r = k))
      ∧ caches_filled env h h'.
Proof.
  induction candidates as [|c rest IH]; intros d h Hnd.
  { exists d, h. split; [done|]. split; [done|].
    split; [intros; by rewrite app_nil_r|].
    split; [|apply caches_filled_refl].
    intros k. split; [by left|]. intros [?|(_ & r & Hr & _)]; [done|].
    by apply elem_of_nil in Hr. }
  cbn [DuplicateDetector.collect_by_md5].
  destruct (get_md5_hash env h c) as [k0 h1] eqn:Hmd5.
  assert (Hk0 : digest_of env h c = k0) by (unfold digest_of; by rewrite Hmd5).
  assert (Hfill : caches_filled env h h1).
  { pose proof (get_md5_hash_fills env h c) as Hf. by rewrite Hmd5 in Hf. }
  assert (Hfilter : ∀ k,
    filter (λ r, digest_of env h1 r = k) rest
    = filter (λ r, digest_of env h r = k) rest).
  { intros k. apply list_filter_iff. intros r.
    by rewrite (digest_of_filled h h1). }
  destruct k0 as [|x k0]; cbn [truthy].
  - destruct (IH d h1 Hnd) as (d' & h' & Hres & Hnd' & Hget & Hkeys & Hfill').
    exists d', h'. split; [done|]. split; [done|]. split; [|split].
    + intros k Hk. rewrite Hget, Hfilter by done.
      by rewrite filter_cons_False by congruence.
    + intros k. rewrite Hkeys. split; intros [?|(Hk & r & Hr & Hd)];
        try (by left); right; (split; [done|]).
      * exists r. split; [by right|]. by rewrite <- (digest_of_filled h h1).
      * exists r. apply elem_of_cons in Hr as [->|Hr]; [congruence|].
        split; [done|]. by rewrite (digest_of_filled h h1).
    + by eapply caches_filled_trans.
  - set (k1 := String x k0) in *.
    destruct (dict_append_spec d k1 c) as (Hget1 & Hother1 & Hkeys1).
    destruct (IH (dict_append d k1 c) h1)
      as (d' & h' & Hres & Hnd' & Hget & Hkeys & Hfill').
    { rewrite Hkeys1. destruct (decide (k1 ∈ d.*1)); [done|].
      apply NoDup_app. split; [done|]. split; [|apply NoDup_singleton].
      intros k Hk ->%list_elem_of_singleton. done. }
    exists d', h'. split; [exact Hres|]. split; [done|]. split; [|split].
    + intros k Hk. rewrite Hget, Hfilter by done.
      destruct (decide (k = k1)) as [->|Hne].
      * rewrite Hget1. cbn [from_option id].
        rewrite filter_cons_True by done. by rewrite <- app_assoc.
      * rewrite Hother1 by done.
        by rewrite filter_cons_False by congruence.
    + intros k. rewrite Hkeys, Hkeys1.
      assert (Hk1 : k ∈ (if decide (k1 ∈ d.*1) then d.*1
                         else (d.*1 ++ [k1])%list)
                    ↔ k ∈ d.*1 ∨ k = k1).
      { destruct (decide (k1 ∈ d.*1)).
        - split; [by left|]. by intros [?| ->].
        - rewrite elem_of_app, list_elem_of_singleton. done. }
      rewrite Hk1. split.
      * intros [[?| ->]|(Hk & r & Hr & Hd)]; [by left|right..].
        -- split; [done|]. exists c. split; [left|done].
        -- split; [done|]. exists r. split; [by right|].
           by rewrite <- (digest_of_filled h h1).
      * intros [?|(Hk & r & Hr & Hd)]; [by left; left|].
        apply elem_of_cons in Hr as [->|Hr]; [left; right; congruence|].
        right. split; [done|]. exists r. split; [done|].
        by rewrite (digest_of_filled h h1).
    + by eapply caches_filled_trans.
Qed.

(** The dictionary of [find_exact_duplicates] and the groups made of it. *)
Lemma find_exact_duplicates_dict (self : DuplicateDetector.t)
    (candidates : list ref) (h : heap) :
  ∃ d' h',
    DuplicateDetector.find_exact_duplicates env self candidates h
    = (DuplicateGroup.__init__
         <$> filter (λ l, (1 < length l)%nat) d'.*2, h')
    ∧ NoDup d'.*1
    ∧ (∀ k v, (k, v) ∈ d' →
         k ≠ "" ∧ v = filter (λ r, digest_of env h r = k) candidates)
    ∧ (∀ k, k ≠ "" → (∃ r, r ∈ candidates ∧ digest_of env h r = k) →
         (k, filter (λ r, digest_of env h r = k) candidates) ∈ d')
    ∧ caches_filled env h h'.
Proof.
  destruct (collect_by_md5_spec candidates [] h)
    as (d' & h' & Hres & Hnd & Hget & Hkeys & Hfill); [constructor|].
  exists d', h'. unfold DuplicateDetector.find_exact_duplicates.
  rewrite Hres. split; [done|]. split; [done|]. split; [|split; [|done]].
  - intros k v Hkv.
    assert (Hk : k ∈ d'.*1) by (apply list_elem_of_fmap; by exists (k, v)).
    apply Hkeys in Hk as [Hk|[Hk _]]; [by apply elem_of_nil in Hk|].
    split; [done|]. specialize (Hget k Hk).
    by rewrite (dict_get_elem d' k v Hnd Hkv) in Hget.
  - intros k Hk Hr.
    assert (Hin : k ∈ d'.*1) by (apply Hkeys; right; done).
    apply list_elem_of_fmap in Hin as ([k' v] & Hk' & Hkv).
    cbn in Hk'. subst k'. specialize (Hget k Hk).
    rewrite (dict_get_elem d' k v Hnd Hkv) in Hget. cbn in Hget.
    by rewrite <- Hget.
Qed.

(** The members of an emitted group: more than one, all with one digest,
    which is not empty. *)
Lemma exact_group_members (self : DuplicateDetector.t)
    (candidates : list ref) (h : heap) (g : DuplicateGroup.t) :
  g ∈ (DuplicateDetector.find_exact_duplicates env self candidates h).1 →
  (1 < length (DuplicateGroup.candidates g))%nat
  ∧ ∃ d, d ≠ ""
         ∧ DuplicateGroup.candidates g
           = filter (λ r, digest_of env h r = d) candidates.
Proof.
  destruct (find_exact_duplicates_dict self candidates h)
    as (d' & h' & -> & Hnd & Hval & _). cbn [fst].
  intros Hg. apply list_elem_of_fmap in Hg as (v & -> & Hv).
  apply list_elem_of_filter in Hv as [Hlen Hv].
  apply list_elem_of_fmap in Hv as ([k v'] & -> & Hkv).
  split; [done|]. destruct (Hval k v' Hkv) as [Hk ->]. by exists k.
Qed.

End ExactDuplicates.

(** C6 (as amended): every group that [find_exact_duplicates] emits has
    more than one member, and its members, taken from the input, share one
    digest, which is not empty; and every non-empty digest that more than
    one candidate of the input has gives exactly one emitted group, made of
    those candidates in their order: no other group has a member with this
    digest. *)
Theorem exact_duplicates_groups (env : Env) (self : DuplicateDetector.t)
    (candidates : list ref) (h : heap) :
  (∀ g,
     g ∈ (DuplicateDetector.find_exact_duplicates env self candidates h).1 →
     (1 < length (DuplicateGroup.candidates g))%nat
     ∧ ∃ d, d ≠ ""
            ∧ ∀ r, r ∈ DuplicateGroup.candidates g →
                   r ∈ candidates ∧ digest_of env h r = d)
  ∧ (∀ d,
       d ≠ "" →
       (1 < length (filter (λ r, digest_of env h r = d) candidates))%nat →
       ∃ before after,
         (DuplicateDetector.find_exact_duplicates env self candidates h).1
         = (before
            ++ [DuplicateGroup.__init__
                  (filter (λ r, digest_of env h r = d) candidates)]
            ++ after)%list
         ∧ ∀ g r, g ∈ (before ++ after)%list →
                  r ∈ DuplicateGroup.candidates g →
                  digest_of env h r ≠ d)
  ∧ caches_filled env h
      (DuplicateDetector.find_exact_duplicates env self candidates h).2.
Proof.
  split; [|split].
  - intros g Hg.
    destruct (exact_group_members env self candidates h g Hg)
      as (Hlen & d & Hd & Hmem).
    split; [done|]. exists d. split; [done|].
    intros r Hr. rewrite Hmem in Hr.
    by apply list_elem_of_filter in Hr as [? ?].
  - intros d Hd Hlen.
    destruct (find_exact_duplicates_dict env self candidates h)
      as (d' & h' & -> & Hnd & Hval & Hkey & _). cbn [fst].
    set (v := filter (λ r, digest_of env h r = d) candidates) in *.
    assert (Hin : (d, v) ∈ d').
    { apply Hkey; [done|]. destruct v as [|r v'] eqn:Hv; [cbn in Hlen; lia|].
      assert (Hrv : r ∈ v) by (rewrite Hv; left).
      apply list_elem_of_filter in Hrv as [? ?]. by exists r. }
    apply list_elem_of_split in Hin as (d1 & d2 & ->).
    exists (DuplicateGroup.__init__
              <$> filter (λ l, (1 < length l)%nat) d1.*2),
           (DuplicateGroup.__init__
              <$> filter (λ l, (1 < length l)%nat) d2.*2).
    split.
    { rewrite fmap_app, filter_app. cbn [fmap list_fmap snd].
      rewrite filter_cons_True by done. by rewrite fmap_app. }
    intros g r Hg Hr Hdig.
    rewrite fmap_app in Hnd. cbn in Hnd.
    apply NoDup_app in Hnd as (_ & Hd1 & Hd2%NoDup_cons).
    destruct Hd2 as [Hd2 _].
    assert (Hother : ∀ dd : list (string * list ref),
      (∀ kv, kv ∈ dd → kv ∈ (d1 ++ (d, v) :: d2)%list) →
      d ∉ dd.*1 →
      g ∉ DuplicateGroup.__init__ <$> filter (λ l, (1 < length l)%nat) dd.*2).
    { intros dd Hsub Hnot Hgin.
      apply list_elem_of_fmap in Hgin as (v' & -> & Hv').
      apply list_elem_of_filter in Hv' as [_ Hv'].
      apply list_elem_of_fmap in Hv' as ([k' v''] & -> & Hkv).
      destruct (Hval k' v'' (Hsub _ Hkv)) as [_ ->].
      cbn in Hr. apply list_elem_of_filter in Hr as [Hk' _].
      apply Hnot. apply list_elem_of_fmap. exists (k', filter (λ r0, digest_of env h r0 = k') candidates).
      split; [cbn; congruence|done]. }
    apply elem_of_app in Hg as [Hg|Hg].
    + eapply (Hother d1); [|intros Hx; by eapply Hd1; [exact Hx|left]|done].
      intros kv ?. apply elem_of_app. by left.
    + eapply (Hother d2); [|done..].
      intros kv ?. apply elem_of_app. right. by right.
  - by destruct (find_exact_duplicates_dict env self candidates h)
      as (d' & h' & -> & _ & _ & _ & ?).
Qed.

(** C6 as stated fails for the empty digest: candidates 4 and 5 of the
    sample store share it (their files cannot be read), and no group is
    emitted for them. *)
Lemma exact_duplicates_empty_digest :
  digest_of example_env example_store 4%nat = ""
  ∧ digest_of example_env example_store 5%nat = ""
  ∧ filter (λ r, digest_of example_env example_store r = "") [4; 5]%nat
    = [4; 5]%nat
  ∧ (DuplicateDetector.find_exact_duplicates example_env example_detector
       [4; 5]%nat example_store).1 = [].
Proof. by vm_compute. Qed.

(** C2 (as amended): when computing a digest fails, the digest is
    the empty string, which is cached; [find_exact_duplicates] skips such
    a candidate, so it is in no emitted group. *)
Theorem digest_failure_not_grouped (env : Env) (self : DuplicateDetector.t)
    (candidates : list ref) (h : heap) (r : ref) :
  digest_fails env h r →
  get_md5_hash env h r = ("", <[r := set_md5_hash (h r) (Some "")]> h)
  ∧ ∀ g,
      g ∈ (DuplicateDetector.find_exact_duplicates env self candidates h).1 →
      r ∉ DuplicateGroup.candidates g.
Proof.
  intros Hfail. pose proof (digest_fails_empty env h r Hfail) as Hmd5.
  split; [done|]. intros g Hg Hr.
  destruct (exact_group_members env self candidates h g Hg)
    as (_ & d & Hd & Hmem).
  rewrite Hmem in Hr. apply list_elem_of_filter in Hr as [Hdig _].
  unfold digest_of in Hdig. rewrite Hmd5 in Hdig. by cbn in Hdig.
Qed.

Lemma digest_failure_not_grouped_witness :
  digest_fails example_env example_store 4%nat
  ∧ get_md5_hash example_env example_store 4%nat
    = ("", <[4%nat := set_md5_hash (example_store 4%nat) (Some "")]>
             example_store)
  ∧ ∀ g,
      g ∈ (DuplicateDetector.find_exact_duplicates example_env
             example_detector [0; 4; 1; 5; 4]%nat example_store).1 →
      4%nat ∉ DuplicateGroup.candidates g.
Proof.
  assert (Hfail : digest_fails example_env example_store 4%nat)
    by (split; reflexivity).
  split; [exact Hfail|].
  apply (digest_failure_not_grouped example_env example_detector
           [0; 4; 1; 5; 4]%nat example_store 4%nat Hfail).
Defined.

(** C2 as stated fails: candidates whose digest computation failed are
    never pooled.  On the sample store the unreadable candidates 3, 4 and 5
    stay out and only the two readable copies are grouped; and in general
    no emitted group holds two failed candidates (nor one). *)
Lemma failed_digests_never_pooled :
  (DuplicateDetector.find_exact_duplicates example_env example_detector
     [3; 4; 0; 5; 1]%nat example_store).1
  = [DuplicateGroup.__init__ [0; 1]%nat]
  ∧ ¬ ∃ (env : Env) (self : DuplicateDetector.t) (candidates : list ref)
        (h : heap) (g : DuplicateGroup.t) (r1 r2 : ref),
        digest_fails env h r1 ∧ digest_fails env h r2
        ∧ g ∈ (DuplicateDetector.find_exact_duplicates env self candidates
                 h).1
        ∧ r1 ∈ DuplicateGroup.candidates g
        ∧ r2 ∈ DuplicateGroup.candidates g.
Proof.
  split; [by vm_compute|].
  intros (env & self & candidates & h & g & r1 & r2 & Hf1 & _ & Hg & Hr1 & _).
  destruct (exact_group_members env self candidates h g Hg)
    as (_ & d & Hd & Hmem).
  rewrite Hmem in Hr1. apply list_elem_of_filter in Hr1 as [Hdig _].
  unfold digest_of in Hdig.
  rewrite (digest_fails_empty env h r1 Hf1) in Hdig. by cbn in Hdig.
Qed.

(** A group with members, none of them twice, and nothing cached is
    fresh when it has two members. *)
Lemma fresh_group_intro (env : Env) (h : heap) (g : DuplicateGroup.t) :
  (2 <= length (DuplicateGroup.candidates g))%nat →
  NoDup (DuplicateGroup.candidates g) →
  DuplicateGroup._best_candidate g = None →
  group_ok env h g ∧ fresh_group env h g.
Proof.
  intros Hlen Hnd Hnone.
  assert (Hok : group_ok env h g).
  { split; [intros Hnil; rewrite Hnil in Hlen; cbn in Hlen; lia|].
    intros b Hb. by rewrite Hnone in Hb. }
  split; [exact Hok|]. split; [done|]. split; [done|]. split; [done|].
  destruct (duplicates_to_remove_ok env h g Hok)
    as (i & best & h' & Hd & Hbest & _).
  eexists _, _, _. split; [exact Hd|].
  pose proof (length_filter_ne best (DuplicateGroup.candidates g) Hnd
                (earliest_maximal_elem env h _ i best Hbest)).
  unfold DuplicateGroup.size. lia.
Qed.

(** X8: from a list of distinct candidates both searches emit groups that
    the statistics can take: every group has at least two members, no
    member twice, and an empty cache, so that its list of duplicates to
    remove is one shorter than the group. *)
Theorem emitted_groups_distinct (env : Env) (self : DuplicateDetector.t)
    (h : heap) (candidates : list ref) :
  NoDup candidates →
  (∃ groups,
     DuplicateDetector.find_duplicates self h candidates = Ok groups
     ∧ Forall (λ g, group_ok env h g ∧ fresh_group env h g) groups)
  ∧ Forall (λ g, group_ok env h g
                 ∧ fresh_group env
                     (DuplicateDetector.find_exact_duplicates env self
                        candidates h).2 g)
      (DuplicateDetector.find_exact_duplicates env self candidates h).1.
Proof.
  intros Hnd. split.
  - destruct (find_groups_spec self h candidates (length candidates) 0 [] ∅)
      as (new & Hres & Hnew & _); [done| |].
    { intros g a j c Hg. by apply elem_of_nil in Hg. }
    rewrite drop_0, app_nil_l in Hres. exists new. split; [exact Hres|].
    eapply Forall_impl; [exact Hnew|].
    intros g (Hfresh & (a & rest & Hmem & Hrest & _) & Hsub).
    rewrite drop_0 in Hsub. apply fresh_group_intro; [| |done].
    + rewrite Hmem. destruct rest; [done|cbn; lia].
    + by eapply sublist_NoDup.
  - destruct (find_exact_duplicates_dict env self candidates h)
      as (d' & h' & -> & _ & Hval & _). cbn [fst snd].
    apply Forall_forall. intros g Hg.
    apply list_elem_of_fmap in Hg as (v & -> & Hv).
    apply list_elem_of_filter in Hv as [Hlen Hv].
    apply list_elem_of_fmap in Hv as ([k v'] & -> & Hkv). cbn in Hlen.
    destruct (Hval k v' Hkv) as [_ Hv'].
    assert (Hlen' : (2 <= length (DuplicateGroup.candidates
                                    (DuplicateGroup.__init__ v')))%nat)
      by (cbn; lia).
    assert (Hnd' : NoDup (DuplicateGroup.candidates
                            (DuplicateGroup.__init__ v')))
      by (cbn; rewrite Hv'; by apply NoDup_filter).
    split.
    + by apply (fresh_group_intro env h _ Hlen' Hnd').
    + by apply (fresh_group_intro env h' _ Hlen' Hnd').
Qed.

Lemma emitted_groups_distinct_witness :
  (∃ groups,
     DuplicateDetector.find_duplicates example_detector example_store
       [0; 1; 2; 3]%nat = Ok groups
     ∧ Forall (λ g, group_ok example_env example_store g
                    ∧ fresh_group example_env example_store g) groups)
  ∧ Forall (λ g, group_ok example_env example_store g
                 ∧ fresh_group example_env
                     (DuplicateDetector.find_exact_duplicates example_env
                        example_detector [0; 1; 2; 3]%nat example_store).2 g)
      (DuplicateDetector.find_exact_duplicates example_env example_detector
         [0; 1; 2; 3]%nat example_store).1.
Proof.
  apply (emitted_groups_distinct example_env example_detector example_store
           [0; 1; 2; 3]%nat).
  by apply (bool_decide_unpack _).
Defined.

(** ** The Hamming distance on well-formed fingerprints *)

Lemma str_count_bin_digits (p : positive) (acc : string) :
  str_count (bin_digits p acc) "1" = popcount_pos p + str_count acc "1".
Proof.
  revert acc. induction p as [q IH|q IH|]; intros acc; cbn [bin_digits].
  - rewrite IH. cbn. lia.
  - rewrite IH. cbn. lia.
  - cbn. lia.
Qed.

(** [bin(z).count('1')] is the number of one bits of [|z|]. *)
Lemma str_count_bin (z : Z) : str_count (bin z) "1" = popcount z.
Proof.
  destruct z as [|p|p]; [done| |]; unfold bin.
  - change ("0b" ++ bin_digits p "")
      with (String "0" (String "b" (bin_digits p ""))).
    cbn [str_count]. rewrite str_count_bin_digits. cbn. lia.
  - change ("-0b" ++ bin_digits p "")
      with (String "-" (String "0" (String "b" (bin_digits p "")))).
    cbn [str_count]. rewrite str_count_bin_digits. cbn. lia.
Qed.

Lemma popcount_pos_pos (p : positive) : 1 <= popcount_pos p.
Proof. induction p; cbn; lia. Qed.

Lemma popcount_zero (z : Z) : popcount z = 0 ↔ z = 0.
Proof.
  destruct z as [|p|p]; cbn; [done| |];
    pose proof (popcount_pos_pos p); split; (lia || discriminate).
Qed.

Lemma popcount_Ndouble (n : N) :
  popcount (Z.of_N (Pos.Ndouble n)) = popcount (Z.of_N n).
Proof. by destruct n. Qed.

Lemma popcount_Nsucc_double (n : N) :
  popcount (Z.of_N (Pos.Nsucc_double n)) = 1 + popcount (Z.of_N n).
Proof. by destruct n. Qed.

Lemma popcount_pos_lxor (p q : positive) :
  popcount (Z.of_N (Pos.lxor p q)) <= popcount_pos p + popcount_pos q.
Proof.
  revert q. induction p as [p IH|p IH|]; intros [q|q|];
    try specialize (IH q); try pose proof (popcount_pos_pos p);
    try pose proof (popcount_pos_pos q); cbn [popcount_pos].
  - change (Pos.lxor p~1 q~1) with (Pos.Ndouble (Pos.lxor p q)).
    rewrite popcount_Ndouble. lia.
  - change (Pos.lxor p~1 q~0) with (Pos.Nsucc_double (Pos.lxor p q)).
    rewrite popcount_Nsucc_double. lia.
  - change (popcount_pos p <= 1 + popcount_pos p + 1). lia.
  - change (Pos.lxor p~0 q~1) with (Pos.Nsucc_double (Pos.lxor p q)).
    rewrite popcount_Nsucc_double. lia.
  - change (Pos.lxor p~0 q~0) with (Pos.Ndouble (Pos.lxor p q)).
    rewrite popcount_Ndouble. lia.
  - change (1 + popcount_pos p <= popcount_pos p + 1). lia.
  - change (popcount_pos q <= 1 + (1 + popcount_pos q)). lia.
  - change (1 + popcount_pos q <= 1 + popcount_pos q). lia.
  - change (0 <= 1 + 1). lia.
Qed.

Lemma popcount_lxor (x y : Z) :
  0 <= x → 0 <= y → popcount (Z.lxor x y) <= popcount x + popcount y.
Proof.
  intros Hx Hy. destruct x as [|p|p], y as [|q|q]; try lia.
  - done.
  - rewrite Z.lxor_0_l. cbn [popcount]. lia.
  - rewrite Z.lxor_0_r. cbn [popcount]. lia.
  - apply popcount_pos_lxor.
Qed.

Lemma popcount_triangle (x y z : Z) :
  0 <= x → 0 <= y → 0 <= z →
  popcount (Z.lxor x z)
  <= popcount (Z.lxor x y) + popcount (Z.lxor y z).
Proof.
  intros Hx Hy Hz.
  replace (Z.lxor x z) with (Z.lxor (Z.lxor x y) (Z.lxor y z)).
  - apply popcount_lxor; by apply Z.lxor_nonneg.
  - rewrite Z.lxor_assoc, <- (Z.lxor_assoc y y z), Z.lxor_nilpotent.
    by rewrite Z.lxor_0_l.
Qed.

Lemma popcount_pos_bound (p : positive) (n : nat) :
  Zpos p < 2 ^ Z.of_nat n → popcount_pos p <= Z.of_nat n.
Proof.
  revert n. induction p as [p IH|p IH|]; intros [|n] Hp; cbn in *; try lia.
  - rewrite Nat2Z.inj_succ, Z.pow_succ_r in Hp by lia.
    specialize (IH n). lia.
  - rewrite Nat2Z.inj_succ, Z.pow_succ_r in Hp by lia.
    specialize (IH n). lia.
Qed.

Lemma popcount_bound (z : Z) (n : nat) :
  0 <= z < 2 ^ Z.of_nat n → popcount z <= Z.of_nat n.
Proof.
  destruct z as [|p|p]; cbn; [lia| |lia]. intros [_ H].
  by apply popcount_pos_bound.
Qed.

Lemma lxor_bound (x y : Z) (n : nat) :
  0 <= x < 2 ^ Z.of_nat n → 0 <= y < 2 ^ Z.of_nat n →
  0 <= Z.lxor x y < 2 ^ Z.of_nat n.
Proof.
  intros Hx Hy. split; [apply Z.lxor_nonneg; lia|].
  destruct (decide (Z.lxor x y = 0)) as [->|Hne]; [lia|].
  assert (0 <= Z.lxor x y) by (apply Z.lxor_nonneg; lia).
  assert (Hn : 0 < Z.of_nat n).
  { destruct n; [|lia]. exfalso. apply Hne.
    change (2 ^ Z.of_nat 0) with 1 in *.
    assert (x = 0) as -> by lia. assert (y = 0) as -> by lia. done. }
  apply Z.log2_lt_pow2; [lia|].
  eapply Z.le_lt_trans; [apply Z.log2_lxor; lia|].
  assert (Hlog : ∀ a, 0 <= a < 2 ^ Z.of_nat n → Z.log2 a < Z.of_nat n).
  { intros a Ha. destruct (decide (a = 0)) as [->|Hpos]; [done|].
    apply Z.log2_lt_pow2; lia. }
  pose proof (Hlog x Hx). pose proof (Hlog y Hy). lia.
Qed.

Lemma scan_digits_hex_value (s : string) (acc : Z) :
  all_hex_digits s = true →
  ∃ v, scan_digits s false acc
       = Some (acc * 16 ^ Z.of_nat (String.length s) + v, "")
       ∧ 0 <= v < 16 ^ Z.of_nat (String.length s).
Proof.
  revert acc. induction s as [|c s IH]; intros acc Hs.
  { exists 0. cbn. split; [f_equal; f_equal; lia|lia]. }
  cbn in Hs. destruct (digit_value c) as [d|] eqn:Hd; [|done].
  destruct (digit_value_plain c d Hd) as (_ & _ & _ & Hus & _ & _ & Hrange).
  destruct (IH (16 * acc + d) Hs) as (v & Hv & Hvr).
  exists (d * 16 ^ Z.of_nat (String.length s) + v).
  cbn [scan_digits String.length].
  destruct (Ascii.eqb_spec c "_"); [done|]. rewrite Hd, Hv.
  rewrite Nat2Z.inj_succ, Z.pow_succ_r by lia.
  split; [f_equal; f_equal; lia|nia].
Qed.

(** What the parser does on a non-empty string of hexadecimal digits: no
    white space, sign, prefix or leading underscore to take off. *)
Lemma hex_string_plain (s : string) :
  hex_string s →
  skip_space s = s ∧ strip_sign s = (1, s) ∧ strip_prefix s = s
  ∧ (∀ x y : option Z,
       match s with String "_" _ => x | _ => y end = y)
  ∧ ∃ c rest, s = String c rest.
Proof.
  intros [Hne Hs]. destruct s as [|c s]; [done|].
  cbn in Hs. destruct (digit_value c) as [d|] eqn:Hd; [|done].
  destruct (digit_value_plain c d Hd)
    as (Hsp & Hplus & Hminus & Hus & Hx & HX & _).
  split; [by cbn [skip_space]; rewrite Hsp|]. split; [|split; [|split]].
  - unfold strip_sign.
    destruct c as [[] [] [] [] [] [] [] []]; try done;
      by (exfalso; (apply Hplus || apply Hminus)).
  - unfold strip_prefix. destruct s as [|x s']; [by repeat case_match|].
    cbn in Hs. destruct (digit_value x) as [dx|] eqn:Hdx; [|done].
    destruct (digit_value_plain x dx Hdx) as (_ & _ & _ & _ & Hxx & HxX & _).
    destruct (Ascii.eqb_spec x "x"); [done|].
    destruct (Ascii.eqb_spec x "X"); [done|].
    cbn. by repeat case_match.
  - intros x y. destruct c as [[] [] [] [] [] [] [] []]; done.
  - by exists c, s.
Qed.

(** On a non-empty string of hexadecimal digits [int(s, 16)] is the plain
    reading of the digits. *)
Lemma PyLong_FromString_hex (s : string) (z : Z) :
  hex_string s → scan_digits s false 0 = Some (z, "") →
  PyLong_FromString s = Some z.
Proof.
  intros Hs Hz.
  destruct (hex_string_plain s Hs) as (Hsp & Hsign & Hpre & Hus & c & rest & ->).
  unfold PyLong_FromString. rewrite Hsp, Hsign, Hpre, Hus, Hz.
  cbn [String.length skip_space Nat.eqb]. f_equal. lia.
Qed.

(** The number that a non-empty string of hexadecimal digits denotes. *)
Lemma hex_string_value (s : string) :
  hex_string s →
  ∃ z, py_int16 s = Ok z ∧ 0 <= z < 2 ^ Z.of_nat (4 * String.length s).
Proof.
  intros Hs. destruct (scan_digits_hex_value s 0 (proj2 Hs)) as (v & Hv & Hr).
  exists v. unfold py_int16.
  rewrite (PyLong_FromString_hex s v Hs) by (by rewrite Hv).
  split; [done|].
  replace (2 ^ Z.of_nat (4 * String.length s))
    with (16 ^ Z.of_nat (String.length s)); [done|].
  rewrite Nat2Z.inj_mul, Z.pow_mul_r by lia. done.
Qed.

(** The distance of two well-formed hashes of one length: the number of
    bits in which the numbers they denote differ. *)
Lemma hamming_distance_value (self : DuplicateDetector.t)
    (hash1 hash2 : string) :
  hex_string hash1 → hex_string hash2 →
  String.length hash1 = String.length hash2 →
  ∃ z1 z2,
    py_int16 hash1 = Ok z1 ∧ py_int16 hash2 = Ok z2
    ∧ 0 <= z1 < 2 ^ Z.of_nat (4 * String.length hash1)
    ∧ 0 <= z2 < 2 ^ Z.of_nat (4 * String.length hash1)
    ∧ DuplicateDetector.calculate_hamming_distance self hash1 hash2
      = Ok (Bits (popcount (Z.lxor z1 z2))).
Proof.
  intros H1 H2 Hlen.
  destruct (hex_string_value hash1 H1) as (z1 & Hz1 & Hr1).
  destruct (hex_string_value hash2 H2) as (z2 & Hz2 & Hr2).
  rewrite <- Hlen in Hr2.
  exists z1, z2. do 4 (split; [done|]).
  unfold DuplicateDetector.calculate_hamming_distance.
  destruct H1 as [Hne1 _], H2 as [Hne2 _].
  destruct hash1 as [|a1 s1]; [done|]. destruct hash2 as [|a2 s2]; [done|].
  cbn [truthy negb orb]. rewrite Hlen, Nat.eqb_refl. cbn [negb].
  rewrite Hz1, Hz2. cbn. by rewrite str_count_bin.
Qed.

Lemma popcount_nonneg (z : Z) : 0 <= popcount z.
Proof. destruct z as [|p|p]; cbn; [lia| |]; pose proof (popcount_pos_pos p); lia. Qed.

(** X7: two non-empty strings of hexadecimal digits of one length have a
    finite distance, between 0 and the number of bits they hold (four times
    the length); a threshold of at least that many bits makes them
    similar. *)
Theorem hamming_distance_well_formed (self : DuplicateDetector.t)
    (hash1 hash2 : string) :
  hex_string hash1 → hex_string hash2 →
  String.length hash1 = String.length hash2 →
  ∃ n, DuplicateDetector.calculate_hamming_distance self hash1 hash2
       = Ok (Bits n)
       ∧ 0 <= n <= 4 * Z.of_nat (String.length hash1)
       ∧ (4 * Z.of_nat (String.length hash1)
          <= DuplicateDetector.threshold self →
          DuplicateDetector.are_similar self hash1 hash2 = Ok true).
Proof.
  intros H1 H2 Hlen.
  destruct (hamming_distance_value self hash1 hash2 H1 H2 Hlen)
    as (z1 & z2 & _ & _ & Hr1 & Hr2 & Hd).
  exists (popcount (Z.lxor z1 z2)). split; [done|].
  assert (Hn : 0 <= popcount (Z.lxor z1 z2)
               <= 4 * Z.of_nat (String.length hash1)).
  { split; [apply popcount_nonneg|].
    rewrite <- Nat2Z.inj_mul with (n := 4%nat).
    apply popcount_bound. by apply lxor_bound. }
  split; [done|]. intros Ht.
  unfold DuplicateDetector.are_similar. rewrite Hd. cbn.
  f_equal. apply Z.leb_le. lia.
Qed.

Lemma hamming_distance_well_formed_witness :
  ∃ n, DuplicateDetector.calculate_hamming_distance example_detector
         "abc123" "abc124" = Ok (Bits n)
       ∧ 0 <= n <= 4 * Z.of_nat (String.length "abc123")
       ∧ (4 * Z.of_nat (String.length "abc123")
          <= DuplicateDetector.threshold example_detector →
          DuplicateDetector.are_similar example_detector "abc123" "abc124"
          = Ok true).
Proof.
  apply (hamming_distance_well_formed example_detector "abc123" "abc124").
  - split; [discriminate|reflexivity].
  - split; [discriminate|reflexivity].
  - reflexivity.
Defined.

(** X9: on well-formed fingerprints of one length the distance obeys the
    triangle inequality. *)
Theorem hamming_distance_triangle (self : DuplicateDetector.t)
    (hash1 hash2 hash3 : string) :
  hex_string hash1 → hex_string hash2 → hex_string hash3 →
  String.length hash1 = String.length hash2 →
  String.length hash2 = String.length hash3 →
  ∃ n12 n23 n13,
    DuplicateDetector.calculate_hamming_distance self hash1 hash2
    = Ok (Bits n12)
    ∧ DuplicateDetector.calculate_hamming_distance self hash2 hash3
      = Ok (Bits n23)
    ∧ DuplicateDetector.calculate_hamming_distance self hash1 hash3
      = Ok (Bits n13)
    ∧ n13 <= n12 + n23.
Proof.
  intros H1 H2 H3 L12 L23.
  destruct (hamming_distance_value self hash1 hash2 H1 H2 L12)
    as (z1 & z2 & Hz1 & Hz2 & Hr1 & Hr2 & D12).
  destruct (hamming_distance_value self hash2 hash3 H2 H3 L23)
    as (z2' & z3 & Hz2' & Hz3 & _ & Hr3 & D23).
  destruct (hamming_distance_value self hash1 hash3 H1 H3)
    as (z1' & z3' & Hz1' & Hz3' & _ & _ & D13); [congruence|].
  assert (z2' = z2) as -> by congruence.
  assert (z1' = z1) as -> by congruence.
  assert (z3' = z3) as -> by congruence.
  eexists _, _, _. do 3 (split; [done|]).
  apply popcount_triangle; lia.
Qed.

Lemma hamming_distance_triangle_witness :
  ∃ n12 n23 n13,
    DuplicateDetector.calculate_hamming_distance example_detector
      "F0F1" "F0F0" = Ok (Bits n12)
    ∧ DuplicateDetector.calculate_hamming_distance example_detector
        "F0F0" "F1FE" = Ok (Bits n23)
    ∧ DuplicateDetector.calculate_hamming_distance example_detector
        "F0F1" "F1FE" = Ok (Bits n13)
    ∧ n13 <= n12 + n23.
Proof.
  apply (hamming_distance_triangle example_detector "F0F1" "F0F0" "F1FE");
    try reflexivity; (split; [discriminate|reflexivity]).
Defined.

(** The lower-case digit with a given value. *)
Lemma digit_value_lower (c : ascii) (d : Z) :
  digit_value c = Some d →
  digit_value (lower_char c) = Some d
  ∧ lower_char c
    = ascii_of_N (Z.to_N (if d <? 10 then 48 + d else 87 + d)).
Proof.
  destruct c as [[] [] [] [] [] [] [] []]; vm_compute; intros [= <-]; done.
Qed.

Lemma length_py_lower (s : string) :
  String.length (py_lower s) = String.length s.
Proof. induction s as [|c s IH]; cbn; [done|by rewrite IH]. Qed.

Lemma all_hex_digits_lower (s : string) :
  all_hex_digits s = true → all_hex_digits (py_lower s) = true.
Proof.
  induction s as [|c s IH]; [done|]. cbn.
  destruct (digit_value c) as [d|] eqn:Hd; [|done].
  destruct (digit_value_lower c d Hd) as [-> _]. done.
Qed.

Lemma hex_string_lower (s : string) : hex_string s → hex_string (py_lower s).
Proof.
  intros [Hne Hs]. split; [by destruct s|by apply all_hex_digits_lower].
Qed.

Lemma scan_digits_lower (s : string) (acc : Z) :
  all_hex_digits s = true →
  scan_digits (py_lower s) false acc = scan_digits s false acc.
Proof.
  revert acc. induction s as [|c s IH]; intros acc Hs; [done|].
  cbn in Hs. destruct (digit_value c) as [d|] eqn:Hd; [|done].
  destruct (digit_value_lower c d Hd) as [Hdl _].
  destruct (digit_value_plain c d Hd) as (_ & _ & _ & Hus & _).
  destruct (digit_value_plain _ d Hdl) as (_ & _ & _ & Husl & _).
  cbn [py_lower scan_digits].
  destruct (Ascii.eqb_spec c "_"); [done|].
  destruct (Ascii.eqb_spec (lower_char c) "_"); [done|].
  rewrite Hd, Hdl. by apply IH.
Qed.

(** Strings of hexadecimal digits of one length that denote the same number
    are equal up to the case of their letters. *)
Lemma scan_digits_inj (s1 : string) :
  ∀ (s2 : string) (acc1 acc2 z : Z),
    all_hex_digits s1 = true → all_hex_digits s2 = true →
    String.length s1 = String.length s2 →
    scan_digits s1 false acc1 = Some (z, "") →
    scan_digits s2 false acc2 = Some (z, "") →
    acc1 = acc2 ∧ py_lower s1 = py_lower s2.
Proof.
  induction s1 as [|c1 s1 IH]; intros [|c2 s2] acc1 acc2 z H1 H2 Hlen Hz1 Hz2;
    try done.
  { cbn in Hz1, Hz2. split; [congruence|done]. }
  cbn in H1, H2.
  destruct (digit_value c1) as [d1|] eqn:Hd1; [|done].
  destruct (digit_value c2) as [d2|] eqn:Hd2; [|done].
  destruct (digit_value_plain c1 d1 Hd1) as (_ & _ & _ & Hus1 & _ & _ & Hr1).
  destruct (digit_value_plain c2 d2 Hd2) as (_ & _ & _ & Hus2 & _ & _ & Hr2).
  cbn [scan_digits] in Hz1, Hz2.
  destruct (Ascii.eqb_spec c1 "_"); [done|].
  destruct (Ascii.eqb_spec c2 "_"); [done|].
  rewrite Hd1 in Hz1. rewrite Hd2 in Hz2.
  destruct (IH s2 _ _ z H1 H2 ltac:(by injection Hlen) Hz1 Hz2) as [Hacc Hl].
  assert (acc1 = acc2 ∧ d1 = d2) as [-> ->] by lia.
  split; [done|]. cbn [py_lower]. f_equal; [|done].
  destruct (digit_value_lower c1 d2 Hd1) as [_ ->].
  by destruct (digit_value_lower c2 d2 Hd2) as [_ ->].
Qed.

(** X10: two well-formed fingerprints are at distance 0 exactly when they
    are equal up to the case of their letters. *)
Theorem hamming_distance_zero (self : DuplicateDetector.t)
    (hash1 hash2 : string) :
  hex_string hash1 → hex_string hash2 →
  DuplicateDetector.calculate_hamming_distance self hash1 hash2
  = Ok (Bits 0)
  ↔ py_lower hash1 = py_lower hash2.
Proof.
  intros H1 H2.
  destruct (scan_digits_hex_value hash1 0 (proj2 H1)) as (v1 & Hv1 & _).
  destruct (scan_digits_hex_value hash2 0 (proj2 H2)) as (v2 & Hv2 & _).
  rewrite Z.mul_0_l, Z.add_0_l in Hv1, Hv2.
  pose proof (PyLong_FromString_hex hash1 v1 H1 Hv1) as P1.
  pose proof (PyLong_FromString_hex hash2 v2 H2 Hv2) as P2.
  split.
  - intros Hd.
    destruct (calculate_hamming_distance_bits self hash1 hash2 0 Hd)
      as (z1 & z2 & _ & _ & Hlen & Hz1 & Hz2 & Hn).
    unfold py_int16 in Hz1, Hz2. rewrite P1 in Hz1. rewrite P2 in Hz2.
    injection Hz1 as <-. injection Hz2 as <-.
    rewrite str_count_bin in Hn. symmetry in Hn.
    apply popcount_zero, Z.lxor_eq in Hn. subst v2.
    by destruct (scan_digits_inj hash1 hash2 0 0 v1 (proj2 H1) (proj2 H2)
                   Hlen Hv1 Hv2).
  - intros Hl.
    assert (Hlen : String.length hash1 = String.length hash2)
      by (by rewrite <- (length_py_lower hash1), Hl, length_py_lower).
    assert (v1 = v2) as <-.
    { rewrite <- (scan_digits_lower hash1 0 (proj2 H1)) in Hv1.
      rewrite <- (scan_digits_lower hash2 0 (proj2 H2)), <- Hl, Hv1 in Hv2.
      congruence. }
    destruct (hamming_distance_value self hash1 hash2 H1 H2 Hlen)
      as (z1 & z2 & Hz1 & Hz2 & _ & _ & Hd).
    unfold py_int16 in Hz1, Hz2. rewrite P1 in Hz1. rewrite P2 in Hz2.
    injection Hz1 as <-. injection Hz2 as <-.
    by rewrite Hd, Z.lxor_nilpotent.
Qed.

Lemma hamming_distance_zero_witness :
  DuplicateDetector.calculate_hamming_distance example_detector
    "F0f1" "f0F1" = Ok (Bits 0)
  ↔ py_lower "F0f1" = py_lower "f0F1".
Proof.
  apply (hamming_distance_zero example_detector "F0f1" "f0F1");
    (split; [discriminate|reflexivity]).
Defined.

(** X4: what [int(s, 16)] takes for a number goes beyond strings of
    hexadecimal digits: with a blank, a plus sign or the prefix [0x] in
    front, a well-formed fingerprint denotes the same number, and so is at
    distance 0 from itself padded with zeros to the same length. *)
Theorem int16_lenient (self : DuplicateDetector.t) (s : string) :
  hex_string s →
  py_int16 (" " ++ s) = py_int16 s
  ∧ py_int16 ("+" ++ s) = py_int16 s
  ∧ py_int16 ("0x" ++ s) = py_int16 s
  ∧ DuplicateDetector.calculate_hamming_distance self (" " ++ s) ("0" ++ s)
    = Ok (Bits 0)
  ∧ DuplicateDetector.calculate_hamming_distance self ("+" ++ s) ("0" ++ s)
    = Ok (Bits 0)
  ∧ DuplicateDetector.calculate_hamming_distance self ("0x" ++ s) ("00" ++ s)
    = Ok (Bits 0).
Proof.
  intros Hs.
  destruct (hex_string_plain s Hs) as (Hsp & Hsign & Hpre & Hus & c & rest & ->).
  destruct (hex_string_value _ Hs) as (z & Hz & _).
  assert (Hblank : py_int16 (" " ++ String c rest) = py_int16 (String c rest))
    by reflexivity.
  assert (Hplus : py_int16 ("+" ++ String c rest) = py_int16 (String c rest)).
  { unfold py_int16, PyLong_FromString.
    change (skip_space ("+" ++ String c rest)) with ("+" ++ String c rest).
    change (strip_sign ("+" ++ String c rest)) with (1, String c rest).
    by rewrite Hsp, Hsign. }
  assert (Hprefix :
    py_int16 ("0x" ++ String c rest) = py_int16 (String c rest)).
  { unfold py_int16, PyLong_FromString.
    change (skip_space ("0x" ++ String c rest)) with ("0x" ++ String c rest).
    change (strip_sign ("0x" ++ String c rest))
      with (1, "0x" ++ String c rest).
    assert (Hp : strip_prefix ("0x" ++ String c rest) = String c rest).
    { unfold strip_prefix. cbn.
      by destruct c as [[] [] [] [] [] [] [] []]. }
    cbv zeta. rewrite Hsp, Hsign, Hpre.
    cbv beta iota. rewrite Hp. done. }
  assert (Hzero : py_int16 ("0" ++ String c rest) = py_int16 (String c rest)).
  { assert (H0 : hex_string ("0" ++ String c rest))
      by (split; [done|exact (proj2 Hs)]).
    destruct (scan_digits_hex_value _ 0 (proj2 Hs)) as (v & Hv & _).
    unfold py_int16.
    rewrite (PyLong_FromString_hex _ v H0) by exact Hv.
    by rewrite (PyLong_FromString_hex _ v Hs) by exact Hv. }
  assert (Hzero2 : py_int16 ("00" ++ String c rest) = py_int16 (String c rest)).
  { assert (H0 : hex_string ("00" ++ String c rest))
      by (split; [done|exact (proj2 Hs)]).
    destruct (scan_digits_hex_value _ 0 (proj2 Hs)) as (v & Hv & _).
    unfold py_int16.
    rewrite (PyLong_FromString_hex _ v H0) by exact Hv.
    by rewrite (PyLong_FromString_hex _ v Hs) by exact Hv. }
  do 3 (split; [done|]).
  assert (Hdist : ∀ s1 s2,
    s1 ≠ "" → s2 ≠ "" → String.length s1 = String.length s2 →
    py_int16 s1 = Ok z → py_int16 s2 = Ok z →
    DuplicateDetector.calculate_hamming_distance self s1 s2 = Ok (Bits 0)).
  { intros s1 s2 Hn1 Hn2 Hlen H1 H2.
    unfold DuplicateDetector.calculate_hamming_distance.
    destruct s1 as [|a1 s1]; [done|]. destruct s2 as [|a2 s2]; [done|].
    cbn [truthy negb orb]. rewrite Hlen, Nat.eqb_refl. cbn [negb].
    rewrite H1, H2. cbn. by rewrite Z.lxor_nilpotent. }
  split; [|split]; apply Hdist; try done; congruence.
Qed.

Lemma int16_lenient_witness :
  py_int16 (" " ++ "f0") = py_int16 "f0"
  ∧ py_int16 ("+" ++ "f0") = py_int16 "f0"
  ∧ py_int16 ("0x" ++ "f0") = py_int16 "f0"
  ∧ DuplicateDetector.calculate_hamming_distance example_detector
      (" " ++ "f0") ("0" ++ "f0") = Ok (Bits 0)
  ∧ DuplicateDetector.calculate_hamming_distance example_detector
      ("+" ++ "f0") ("0" ++ "f0") = Ok (Bits 0)
  ∧ DuplicateDetector.calculate_hamming_distance example_detector
      ("0x" ++ "f0") ("00" ++ "f0") = Ok (Bits 0).
Proof.
  apply (int16_lenient example_detector "f0").
  split; [discriminate|reflexivity].
Defined.

(** ** The Hamming distance on malformed fingerprints *)








(** Malformed pairs: a character that is no hexadecimal digit, different
    lengths, an empty hash. *)
Lemma hamming_distance_malformed_sample :
  DuplicateDetector.calculate_hamming_distance example_detector "g0f0" "F0F0"
  = Ok Infinite
  ∧ DuplicateDetector.calculate_hamming_distance example_detector
      "abc" "abcdef" = Ok Infinite
  ∧ DuplicateDetector.calculate_hamming_distance example_detector "" "F0F0"
    = Ok Infinite
  ∧ DuplicateDetector.are_similar
      (DuplicateDetector.mk "dhash" 1000 ["dhash"]) "g0f0" "F0F0" = Ok false
  ∧ str_forall int16_char "g0f0" = false.
Proof. by repeat split. Qed.


(** ** Similarity grouping: what the groups cover *)

Lemma are_similar_sym (self : DuplicateDetector.t) (hash1 hash2 : string) :
  DuplicateDetector.are_similar self hash1 hash2
  = DuplicateDetector.are_similar self hash2 hash1.
Proof.
  unfold DuplicateDetector.are_similar,
    DuplicateDetector.calculate_hamming_distance.
  rewrite (Nat.eqb_sym (String.length hash2)).
  rewrite (orb_comm (negb (truthy (Some hash2)))).
  destruct (_ || _); [done|].
  unfold py_int16.
  destruct (PyLong_FromString hash1) as [z1|],
    (PyLong_FromString hash2) as [z2|]; cbn; try done.
  by rewrite Z.lxor_comm.
Qed.

Lemma similar_hashes_sym (self : DuplicateDetector.t) (h : heap) (a c : ref) :
  similar_hashes self h a c → similar_hashes self h c a.
Proof.
  intros (ha & hc & Ha & Hc & Hsim). exists hc, ha.
  split; [done|]. split; [done|]. by rewrite are_similar_sym.
Qed.

Section Covers.
Context (self : DuplicateDetector.t) (h : heap) (candidates : list ref).

(** The outer loop, entered at index [i]: besides the groups it keeps track
    of which earlier candidates are left alone, namely those all of whose
    later similar candidates are processed. *)
Lemma find_groups_covers :
  ∀ (k i : nat) (groups : list DuplicateGroup.t) (processed : gset nat),
    (i + k = length candidates)%nat →
    (∀ g a j c,
       g ∈ groups → head (DuplicateGroup.candidates g) = Some a →
       (i <= j)%nat → candidates !! j = Some c →
       fingerprint_present (h c) → similar_hashes self h a c →
       j ∈ processed) →
    (∀ j c, j ∈ processed → (i <= j)%nat → candidates !! j = Some c →
            ∃ g, g ∈ groups ∧ c ∈ DuplicateGroup.candidates g) →
    (∀ j c, (j < i)%nat → candidates !! j = Some c →
            fingerprint_present (h c) →
            (∃ g, g ∈ groups ∧ c ∈ DuplicateGroup.candidates g)
            ∨ (∀ j' c', (i <= j')%nat → candidates !! j' = Some c' →
                        fingerprint_present (h c') →
                        similar_hashes self h c c' → j' ∈ processed)) →
    (∀ g a j c,
       g ∈ groups → head (DuplicateGroup.candidates g) = Some a →
       (j < i)%nat → candidates !! j = Some c →
       fingerprint_present (h c) → similar_hashes self h a c →
       ∃ g', g' ∈ groups ∧ c ∈ DuplicateGroup.candidates g') →
    ∃ new : list DuplicateGroup.t,
      DuplicateDetector.find_groups self h candidates
        (enumerate (drop i candidates) i) groups processed
      = Ok (groups ++ new)%list
      ∧ ∀ g a j c,
          g ∈ (groups ++ new)%list →
          head (DuplicateGroup.candidates g) = Some a →
          candidates !! j = Some c →
          fingerprint_present (h c) → similar_hashes self h a c →
          ∃ g', g' ∈ (groups ++ new)%list
                ∧ c ∈ DuplicateGroup.candidates g'.
Proof.
  induction k as [|k IH]; intros i groups processed Hik I1 I2 I4 I5.
  { rewrite drop_ge by lia. exists []. cbn. rewrite app_nil_r.
    split; [done|]. intros g a j c Hg Ha Hc Hfp Hsim.
    eapply I5; try done. apply lookup_lt_Some in Hc. lia. }
  destruct (lookup_lt_is_Some_2 candidates i) as [c1 Hc1]; [lia|].
  rewrite (drop_S _ _ _ Hc1), enumerate_cons.
  cbn [DuplicateDetector.find_groups].
  destruct (DuplicateDetector.unskipped processed i (h c1)) as [hash1|]
    eqn:Hskip.
  - (* an anchor *)
    apply (unskipped_Some h) in Hskip as (Hi & Hhash1 & Hne1).
    assert (Hfp1 : fingerprint_present (h c1)) by by exists hash1.
    destruct (find_similar_spec self h hash1
                (enumerate (drop (i + 1) candidates) (i + 1))
                [c1] ({[i]} ∪ processed))
      as (added & Hres & Hsub & Hadded & Hclosed).
    rewrite Hres. cbn [mbind Result_bind].
    replace (i + 1)%nat with (S i) in * by lia.
    assert (Hpos : ∀ j c, (j, c) ∈ added →
                     (S i <= j)%nat ∧ candidates !! j = Some c).
    { intros j c Hjc. apply (elem_of_enumerate_drop h candidates (S i) j c).
      by eapply elem_of_sublist. }
    assert (Hclosed' : ∀ j c, (S i <= j)%nat → candidates !! j = Some c →
               fingerprint_present (h c) → similar_hashes self h c1 c →
               j ∈ list_to_set (C := gset nat) added.*1 ∪ ({[i]} ∪ processed)).
    { intros j c Hj Hc (hc & Hhc & Hnec) (ha' & hc' & Ha' & Hc' & Hsim).
      assert (ha' = hash1) as -> by congruence.
      assert (hc' = hc) as -> by congruence.
      apply (Hclosed j c hc); try done.
      by apply (elem_of_enumerate_drop h candidates (S i) j c). }
    destruct added as [|[j0 c0] added'] eqn:Hadd.
    + (* nothing joins: no group *)
      cbn [fmap list_fmap app length Nat.ltb Nat.leb].
      destruct (IH (S i) groups
                  (list_to_set (C := gset nat) [] ∪ ({[i]} ∪ processed)))
        as (new & Hnew & Hcov); [lia| | | | |].
      * intros g a j c Hg Ha Hj Hc Hfp Hsim.
        assert (j ∈ processed) by (eapply (I1 g a j c); try done; lia).
        set_solver.
      * intros j c Hj Hij Hc. apply (I2 j c); [|lia|done].
        assert (j ≠ i) by lia. set_solver.
      * intros j c Hj Hc Hfp.
        destruct (decide (j = i)) as [->|Hne].
        -- right. intros j' c' Hj' Hc' Hfp' Hsim.
           assert (c = c1) as -> by congruence.
           by apply (Hclosed' j' c').
        -- destruct (I4 j c ltac:(lia) Hc Hfp) as [?|Hright]; [by left|].
           right. intros j' c' Hj' Hc' Hfp' Hsim.
           assert (j' ∈ processed)
             by (apply (Hright j' c'); try done; lia).
           set_solver.
      * intros g a j c Hg Ha Hj Hc Hfp Hsim.
        destruct (decide (j = i)) as [->|Hne].
        -- exfalso. apply Hi. by apply (I1 g a i c).
        -- apply (I5 g a j c); try done. lia.
      * exists new. by split.
    + (* a group is formed *)
      rewrite <- Hadd in *.
      assert (Hlen : (1 <? length ([c1] ++ added.*2))%nat = true).
      { rewrite Hadd. cbn. done. }
      rewrite Hlen.
      set (G := DuplicateGroup.__init__ ([c1] ++ added.*2)).
      destruct (IH (S i) (groups ++ [G])%list
                  (list_to_set (C := gset nat) added.*1
                   ∪ ({[i]} ∪ processed)))
        as (new & Hnew & Hcov); [lia| | | | |].
      * intros g a j c Hg Ha Hj Hc Hfp Hsim.
        apply elem_of_app in Hg as [Hg|Hg].
        -- assert (j ∈ processed) by (eapply (I1 g a j c); try done; lia).
           set_solver.
        -- apply list_elem_of_singleton in Hg as ->. cbn in Ha.
           injection Ha as <-. by apply (Hclosed' j c).
      * intros j c Hj Hij Hc.
        apply elem_of_union in Hj as [Hj|Hj].
        -- exists G. split; [apply elem_of_app; right; by left|].
           apply elem_of_list_to_set, list_elem_of_fmap in Hj
             as ([j' c'] & -> & Hin).
           destruct (Hpos _ _ Hin) as [_ Hc']. cbn in Hc.
           assert (c' = c) as -> by congruence.
           cbn. right. apply list_elem_of_fmap. by exists (j', c).
        -- assert (j ∈ processed) by (assert (j ≠ i) by lia; set_solver).
           destruct (I2 j c) as (g & Hg & Hcg); [done|lia|done|].
           exists g. split; [apply elem_of_app; by left|done].
      * intros j c Hj Hc Hfp.
        destruct (decide (j = i)) as [->|Hne].
        -- left. exists G. split; [apply elem_of_app; right; by left|].
           assert (c = c1) as -> by congruence. cbn. by left.
        -- destruct (I4 j c ltac:(lia) Hc Hfp) as [(g & Hg & Hcg)|Hright].
           ++ left. exists g. split; [apply elem_of_app; by left|done].
           ++ right. intros j' c' Hj' Hc' Hfp' Hsim.
              assert (j' ∈ processed)
                by (apply (Hright j' c'); try done; lia).
              set_solver.
      * intros g a j c Hg Ha Hj Hc Hfp Hsim.
        destruct (decide (j = i)) as [->|Hne].
        { exists G. split; [apply elem_of_app; right; by left|].
          assert (c = c1) as -> by congruence. cbn. by left. }
        apply elem_of_app in Hg as [Hg|Hg].
        -- destruct (I5 g a j c) as (g' & Hg' & Hcg'); try done; [lia|].
           exists g'. split; [apply elem_of_app; by left|done].
        -- apply list_elem_of_singleton in Hg as ->. cbn in Ha.
           injection Ha as <-.
           destruct (I4 j c ltac:(lia) Hc Hfp) as [(g & Hg & Hcg)|Hright].
           ++ exists g. split; [apply elem_of_app; by left|done].
           ++ exfalso. apply Hi. apply (Hright i c1); try done.
              by apply similar_hashes_sym.
      * exists ([G] ++ new)%list. rewrite app_assoc. by split.
  - (* skipped *)
    apply (unskipped_None h) in Hskip.
    destruct (IH (S i) groups processed) as (new & Hnew & Hcov); [lia| | | | |].
    + intros g a j c Hg Ha Hj Hc Hfp Hsim.
      eapply (I1 g a j c); try done. lia.
    + intros j c Hj Hij Hc. apply (I2 j c); [done|lia|done].
    + intros j c Hj Hc Hfp.
      destruct (decide (j = i)) as [->|Hne].
      * left. assert (c = c1) as -> by congruence.
        destruct Hskip as [Hin|Hno]; [|done]. by apply (I2 i c1).
      * destruct (I4 j c ltac:(lia) Hc Hfp) as [?|Hright]; [by left|].
        right. intros j' c' Hj' Hc' Hfp' Hsim.
        apply (Hright j' c'); try done. lia.
    + intros g a j c Hg Ha Hj Hc Hfp Hsim.
      destruct (decide (j = i)) as [->|Hne].
      * apply (I2 i c); [|done|done]. by apply (I1 g a i c).
      * apply (I5 g a j c); try done. lia.
    + exists new. by split.
Qed.

End Covers.

(** X6: the groups are maximal for their anchors: a candidate of the input
    with a fingerprint that is similar to the anchor of an emitted group
    belongs to an emitted group (this one or an earlier one). *)
Theorem find_duplicates_maximal (self : DuplicateDetector.t) (h : heap)
    (candidates : list ref) :
  ∃ groups,
    DuplicateDetector.find_duplicates self h candidates = Ok groups
    ∧ ∀ g a c,
        g ∈ groups → head (DuplicateGroup.candidates g) = Some a →
        c ∈ candidates → fingerprint_present (h c) →
        similar_hashes self h a c →
        ∃ g', g' ∈ groups ∧ c ∈ DuplicateGroup.candidates g'.
Proof.
  destruct (find_groups_covers self h candidates (length candidates) 0 [] ∅)
    as (new & Hres & Hcov); [done| | | | |].
  - intros g a j c Hg. by apply elem_of_nil in Hg.
  - intros j c Hj. by apply elem_of_empty in Hj.
  - intros j c Hj. lia.
  - intros g a j c Hg. by apply elem_of_nil in Hg.
  - rewrite drop_0, app_nil_l in Hres. rewrite app_nil_l in Hcov.
    exists new. split; [exact Hres|].
    intros g a c Hg Ha Hc Hfp Hsim.
    apply list_elem_of_lookup in Hc as [j Hj]. by eapply Hcov.
Qed.

(** X12: with a negative threshold nothing is similar to anything, and no
    group is emitted. *)
Theorem find_duplicates_negative_threshold (self : DuplicateDetector.t)
    (h : heap) (candidates : list ref) :
  DuplicateDetector.threshold self < 0 →
  DuplicateDetector.find_duplicates self h candidates = Ok [].
Proof.
  intros Hneg.
  destruct (find_groups_spec self h candidates (length candidates) 0 [] ∅)
    as (new & Hres & Hnew & _); [done| |].
  { intros g a j c Hg. by apply elem_of_nil in Hg. }
  rewrite drop_0, app_nil_l in Hres.
  unfold DuplicateDetector.find_duplicates. rewrite Hres. f_equal.
  destruct new as [|g new]; [done|]. exfalso.
  apply Forall_cons in Hnew
    as [(_ & (a & rest & _ & Hrest & _ & Hsim) & _) _].
  destruct rest as [|c rest]; [done|].
  destruct (Hsim c) as (ha & hc & _ & _ & Hs); [by left|].
  apply are_similar_true in Hs as (n & Hn & Hle).
  apply calculate_hamming_distance_bits in Hn as (z1 & z2 & _ & _ & _ & _ & _ & ->).
  pose proof (str_count_nonneg (bin (Z.lxor z1 z2)) "1"). lia.
Qed.

Lemma find_duplicates_negative_threshold_witness :
  DuplicateDetector.find_duplicates
    (DuplicateDetector.mk "dhash" (-1) ["dhash"]) example_store
    [0; 0; 1]%nat
  = Ok [].
Proof.
  apply (find_duplicates_negative_threshold
           (DuplicateDetector.mk "dhash" (-1) ["dhash"]) example_store
           [0; 0; 1]%nat).
  reflexivity.
Defined.

(** X11: when the fingerprints are well formed, any two members of an
    emitted group are within twice the threshold of each other. *)
Theorem group_members_within_twice_threshold (self : DuplicateDetector.t)
    (h : heap) (candidates : list ref) :
  (∀ c s, c ∈ candidates → image_hash (h c) = Some s → s ≠ "" →
          hex_string s) →
  ∃ groups,
    DuplicateDetector.find_duplicates self h candidates = Ok groups
    ∧ ∀ g c1 c2,
        g ∈ groups → c1 ∈ DuplicateGroup.candidates g →
        c2 ∈ DuplicateGroup.candidates g →
        ∃ s1 s2 n,
          image_hash (h c1) = Some s1 ∧ image_hash (h c2) = Some s2
          ∧ DuplicateDetector.calculate_hamming_distance self s1 s2
            = Ok (Bits n)
          ∧ n <= 2 * DuplicateDetector.threshold self.
Proof.
  intros Hhex.
  destruct (find_groups_spec self h candidates (length candidates) 0 [] ∅)
    as (new & Hres & Hnew & _); [done| |].
  { intros g a j c Hg. by apply elem_of_nil in Hg. }
  rewrite drop_0, app_nil_l in Hres. exists new. split; [exact Hres|].
  intros g c1 c2 Hg Hc1 Hc2.
  rewrite Forall_forall in Hnew.
  destruct (Hnew g Hg) as (_ & (a & rest & Hmem & Hrest & Hfp & Hsim) & Hsub).
  rewrite drop_0 in Hsub.
  (* every member is within the threshold of the anchor *)
  destruct (Hfp a) as (ha & Hha & Hnea); [rewrite Hmem; by left|].
  assert (Hxa : hex_string ha).
  { apply (Hhex a); try done. eapply elem_of_sublist; [|exact Hsub].
    rewrite Hmem. by left. }
  destruct (hex_string_value ha Hxa) as (za & Hza & Hra).
  assert (Hmember : ∀ c, c ∈ DuplicateGroup.candidates g →
    ∃ s z, image_hash (h c) = Some s ∧ hex_string s
           ∧ String.length s = String.length ha
           ∧ py_int16 s = Ok z
           ∧ 0 <= z < 2 ^ Z.of_nat (4 * String.length ha)
           ∧ popcount (Z.lxor za z) <= DuplicateDetector.threshold self
           ∧ 0 <= DuplicateDetector.threshold self).
  { assert (Hpos : 0 <= DuplicateDetector.threshold self).
    { destruct rest as [|c rest]; [done|].
      destruct (Hsim c) as (ha' & hc & _ & _ & Hs); [by left|].
      apply are_similar_true in Hs as (n & Hn & Hle).
      apply calculate_hamming_distance_bits in Hn
        as (z1 & z2 & _ & _ & _ & _ & _ & ->).
      pose proof (str_count_nonneg (bin (Z.lxor z1 z2)) "1"). lia. }
    intros c Hc. rewrite Hmem in Hc.
    apply elem_of_cons in Hc as [->|Hc].
    - exists ha, za. rewrite Z.lxor_nilpotent. cbn. done.
    - destruct (Hsim c Hc) as (ha' & hc & Hha' & Hhc & Hs).
      assert (ha' = ha) as -> by congruence.
      apply are_similar_true in Hs as (n & Hn & Hle).
      pose proof Hn as Hbits.
      apply calculate_hamming_distance_bits in Hbits
        as (z1 & z2 & _ & Hnec & Hlen & Hz1 & Hz2 & Hcount).
      assert (z1 = za) as -> by congruence.
      assert (Hxc : hex_string hc).
      { apply (Hhex c); try done. eapply elem_of_sublist; [|exact Hsub].
        rewrite Hmem. by right. }
      destruct (hex_string_value hc Hxc) as (zc & Hzc & Hrc).
      assert (z2 = zc) as -> by congruence.
      exists hc, zc. rewrite str_count_bin in Hcount.
      rewrite <- Hlen in Hrc. subst n.
      split; [done|]. split; [done|]. split; [done|]. split; [done|].
      split; [done|]. split; [done|]. done. }
  destruct (Hmember c1 Hc1) as (s1 & z1 & Hs1 & Hx1 & Hl1 & Hz1 & Hr1 & Hd1 & Ht).
  destruct (Hmember c2 Hc2) as (s2 & z2 & Hs2 & Hx2 & Hl2 & Hz2 & Hr2 & Hd2 & _).
  destruct (hamming_distance_value self s1 s2 Hx1 Hx2)
    as (z1' & z2' & Hz1' & Hz2' & _ & _ & Hd); [congruence|].
  assert (z1' = z1) as -> by congruence.
  assert (z2' = z2) as -> by congruence.
  exists s1, s2, (popcount (Z.lxor z1 z2)). do 3 (split; [done|]).
  pose proof (popcount_triangle z1 za z2). rewrite (Z.lxor_comm z1 za) in *.
  lia.
Qed.

Lemma group_members_within_twice_threshold_witness :
  ∃ groups,
    DuplicateDetector.find_duplicates example_detector example_store
      [0; 1; 2; 3]%nat = Ok groups
    ∧ ∀ g c1 c2,
        g ∈ groups → c1 ∈ DuplicateGroup.candidates g →
        c2 ∈ DuplicateGroup.candidates g →
        ∃ s1 s2 n,
          image_hash (example_store c1) = Some s1
          ∧ image_hash (example_store c2) = Some s2
          ∧ DuplicateDetector.calculate_hamming_distance example_detector
              s1 s2 = Ok (Bits n)
          ∧ n <= 2 * DuplicateDetector.threshold example_detector.
Proof.
  apply (group_members_within_twice_threshold example_detector example_store
           [0; 1; 2; 3]%nat).
  intros c s Hc Hs Hne.
  destruct c as [|[|[|[|c]]]]; cbn in Hs; simplify_eq;
    (split; [discriminate|reflexivity]).
Defined.

Lemma unskipped_take (h : heap) (processed : gset nat) (i : nat) (c : ref)
    (s : string) :
  i ∉ processed → image_hash (h c) = Some s → s ≠ "" →
  DuplicateDetector.unskipped processed i (h c) = Some s.
Proof. intros. by apply (unskipped_Some h). Qed.

Lemma unskipped_skip (h : heap) (processed : gset nat) (i : nat) (c : ref) :
  i ∈ processed → DuplicateDetector.unskipped processed i (h c) = None.
Proof. intros. apply (unskipped_None h). by left. Qed.

(** X5: only the anchor is compared.  For three candidates the second of
    which is similar to the first: if the third is similar to the first,
    all three form one group, whether or not the second and the third are
    similar; if it is not, it stays outside, even when it is similar to the
    second. *)
Theorem find_duplicates_anchor_only (self : DuplicateDetector.t) (h : heap)
    (a b c : ref) (ha hb hc : string) :
  image_hash (h a) = Some ha → image_hash (h b) = Some hb →
  image_hash (h c) = Some hc → ha ≠ "" → hb ≠ "" → hc ≠ "" →
  DuplicateDetector.are_similar self ha hb = Ok true →
  (DuplicateDetector.are_similar self ha hc = Ok true →
   DuplicateDetector.find_duplicates self h [a; b; c]
   = Ok [DuplicateGroup.__init__ [a; b; c]])
  ∧ (DuplicateDetector.are_similar self ha hc = Ok false →
     DuplicateDetector.find_duplicates self h [a; b; c]
     = Ok [DuplicateGroup.__init__ [a; b]]).
Proof.
  intros Ha Hb Hc Hnea Hneb Hnec Hab.
  unfold DuplicateDetector.find_duplicates.
  change (enumerate [a; b; c] 0) with [(0%nat, a); (1%nat, b); (2%nat, c)].
  cbn [DuplicateDetector.find_groups].
  rewrite (unskipped_take h ∅ 0 a ha) by (done || set_solver).
  change (enumerate (drop (0 + 1) [a; b; c]) (0 + 1))
    with [(1%nat, b); (2%nat, c)].
  cbn [DuplicateDetector.find_similar].
  rewrite (unskipped_take h _ 1 b hb) by (done || set_solver).
  rewrite Hab. cbn [mbind Result_bind].
  rewrite (unskipped_take h _ 2 c hc) by (done || set_solver).
  split; intros Hac; rewrite Hac; cbn [mbind Result_bind app length Nat.ltb Nat.leb].
  - rewrite (unskipped_skip h _ 1 b) by set_solver.
    rewrite (unskipped_skip h _ 2 c) by set_solver. done.
  - rewrite (unskipped_skip h _ 1 b) by set_solver.
    rewrite (unskipped_take h _ 2 c hc) by (done || set_solver).
    change (enumerate (drop (2 + 1) [a; b; c]) (2 + 1)) with (@nil (nat * ref)).
    cbn. done.
Qed.

Lemma find_duplicates_anchor_only_witness :
  (DuplicateDetector.are_similar example_detector "F0F0" "F1FE" = Ok true →
   DuplicateDetector.find_duplicates example_detector example_store
     [0; 1; 3]%nat
   = Ok [DuplicateGroup.__init__ [0; 1; 3]%nat])
  ∧ (DuplicateDetector.are_similar example_detector "F0F0" "F1FE" = Ok false →
     DuplicateDetector.find_duplicates example_detector example_store
       [0; 1; 3]%nat
     = Ok [DuplicateGroup.__init__ [0; 1]%nat]).
Proof.
  apply (find_duplicates_anchor_only example_detector example_store
           0%nat 1%nat 3%nat "F0F0" "F0F1" "F1FE");
    try reflexivity; discriminate.
Defined.

(** ** Exact duplicates: the digests are computed once *)

Section ExactCached.
Context (env : Env).

Lemma group_by_digest_ext (f g : ref -> string) (candidates : list ref)
    (d : list (string * list ref)) :
  (∀ r, f r = g r) →
  group_by_digest f candidates d = group_by_digest g candidates d.
Proof.
  intros Hfg. revert d. induction candidates as [|c rest IH]; intros d; [done|].
  cbn [group_by_digest]. rewrite Hfg. destruct (truthy (Some (g c))); apply IH.
Qed.

Lemma collect_by_md5_dict (candidates : list ref) :
  ∀ (d : list (string * list ref)) (h : heap),
    (DuplicateDetector.collect_by_md5 env candidates d h).1
    = group_by_digest (digest_of env h) candidates d.
Proof.
  induction candidates as [|c rest IH]; intros d h; [done|].
  cbn [DuplicateDetector.collect_by_md5 group_by_digest].
  pose proof (get_md5_hash_fills env h c) as Hfill.
  unfold digest_of at 1 2 3.
  destruct (get_md5_hash env h c) as [k0 h1]. cbn [fst snd] in *.
  assert (Hext : ∀ d0, group_by_digest (digest_of env h1) rest d0
                       = group_by_digest (digest_of env h) rest d0).
  { intros d0. apply group_by_digest_ext. intros r.
    by apply digest_of_filled. }
  destruct (truthy (Some k0)); rewrite IH; apply Hext.
Qed.

(** Digests that are cached stay as they are, and every scanned candidate
    has its digest cached afterwards. *)
Lemma collect_by_md5_caches (candidates : list ref) :
  ∀ (d : list (string * list ref)) (h : heap),
    let h' := (DuplicateDetector.collect_by_md5 env candidates d h).2 in
    (∀ r s, md5_hash (h r) = Some s → md5_hash (h' r) = Some s)
    ∧ (∀ r, r ∈ candidates → md5_hash (h' r) = Some (digest_of env h r)).
Proof.
  induction candidates as [|c rest IH]; intros d h h'.
  { split; [done|]. intros r Hr. by apply elem_of_nil in Hr. }
  unfold h'. cbn [DuplicateDetector.collect_by_md5].
  pose proof (get_md5_hash_fills env h c) as Hfill.
  assert (Hc : md5_hash ((get_md5_hash env h c).2 c)
               = Some (digest_of env h c)
             ∧ ∀ r s, md5_hash (h r) = Some s →
                      md5_hash ((get_md5_hash env h c).2 r) = Some s).
  { unfold digest_of, get_md5_hash.
    destruct (md5_hash (h c)) as [s0|] eqn:Hs0; cbn [fst snd].
    - done.
    - rewrite fn_lookup_insert. split; [done|]. intros r s Hr.
      destruct (decide (c = r)) as [<-|Hne]; [congruence|].
      by rewrite fn_lookup_insert_ne. }
  destruct (get_md5_hash env h c) as [k0 h1]. cbn [fst snd] in *.
  destruct Hc as [Hc Hkeep].
  assert (Hrest : ∀ d0,
    (∀ r s, md5_hash (h r) = Some s →
            md5_hash ((DuplicateDetector.collect_by_md5 env rest d0 h1).2 r)
            = Some s)
    ∧ (∀ r, r ∈ c :: rest →
            md5_hash ((DuplicateDetector.collect_by_md5 env rest d0 h1).2 r)
            = Some (digest_of env h r))).
  { intros d0. destruct (IH d0 h1) as [Hk Hin]. split.
    - intros r s Hr. by apply Hk, Hkeep.
    - intros r [->|Hr]%elem_of_cons.
      + by apply Hk.
      + rewrite Hin by done. f_equal. by apply digest_of_filled. }
  destruct (truthy (Some k0)); apply Hrest.
Qed.

Lemma collect_by_md5_settled (candidates : list ref) :
  ∀ (d : list (string * list ref)) (h : heap),
    (∀ r, r ∈ candidates → is_Some (md5_hash (h r))) →
    (DuplicateDetector.collect_by_md5 env candidates d h).2 = h.
Proof.
  induction candidates as [|c rest IH]; intros d h Hall; [done|].
  cbn [DuplicateDetector.collect_by_md5].
  destruct (Hall c) as [s Hs]; [by left|].
  unfold get_md5_hash. rewrite Hs.
  destruct (truthy (Some s)); apply IH; intros r Hr; apply Hall; by right.
Qed.

End ExactCached.

(** X13: [find_exact_duplicates] leaves the digest of every input
    candidate cached; run again on the store it returns, it returns the same
    groups and changes nothing. *)
Theorem exact_duplicates_cached (env : Env) (self : DuplicateDetector.t)
    (candidates : list ref) (h : heap) :
  let first := DuplicateDetector.find_exact_duplicates env self candidates h in
  (∀ r, r ∈ candidates → md5_hash (first.2 r) = Some (digest_of env h r))
  ∧ DuplicateDetector.find_exact_duplicates env self candidates first.2
    = first.
Proof.
  intros first.
  pose proof (collect_by_md5_dict env candidates [] h) as Hdict.
  destruct (collect_by_md5_caches env candidates [] h) as [_ Hcached].
  assert (Hfirst : first.2
                   = (DuplicateDetector.collect_by_md5 env candidates [] h).2).
  { unfold first, DuplicateDetector.find_exact_duplicates.
    by destruct (DuplicateDetector.collect_by_md5 env candidates [] h). }
  rewrite Hfirst. split; [exact Hcached|].
  set (h1 := (DuplicateDetector.collect_by_md5 env candidates [] h).2) in *.
  assert (Hfill : caches_filled env h h1).
  { destruct (collect_by_md5_spec env candidates [] h)
      as (d' & h' & Hres & _ & _ & _ & Hf); [constructor|].
    unfold h1. by rewrite Hres. }
  pose proof (collect_by_md5_dict env candidates [] h1) as Hdict1.
  pose proof (collect_by_md5_settled env candidates [] h1) as Hsame.
  rewrite (group_by_digest_ext _ (digest_of env h)) in Hdict1
    by (intros r; by apply digest_of_filled).
  unfold first, DuplicateDetector.find_exact_duplicates.
  fold h1 in Hdict |- *.
  destruct (DuplicateDetector.collect_by_md5 env candidates [] h1)
    as [d1 hx] eqn:E1.
  destruct (DuplicateDetector.collect_by_md5 env candidates [] h)
    as [d0 hy] eqn:E0.
  cbn [fst snd] in *. subst h1.
  rewrite Hsame by (intros r Hr; rewrite Hcached by done; by eexists).
  congruence.
Qed.

(** ** Statistics: the result, its bounds, and repetition *)










(** ** The quality comparison *)


Lemma SF_abs_sub_self (x : spec_float) :
  SFltb (Prim2SF 0.1) (SFabs (SF64sub x x)) = false.
Proof.
  destruct x as [s|s| |s m e].
  - by destruct s.
  - by destruct s.
  - done.
  - unfold SF64sub, SFsub. cbv zeta.
    set (a := cond_Zopp s _). replace (a - a) with 0 by lia. reflexivity.
Qed.

Lemma SF_abs_sub_sym (x y : spec_float) :
  SFabs (SF64sub x y) = SFabs (SF64sub y x).
Proof.
  destruct x as [sx|sx| |sx mx ex], y as [sy|sy| |sy my ey];
    try done; try (by destruct sx); try (by destruct sy);
    try (by destruct sx, sy).
  unfold SF64sub, SFsub. cbv zeta. rewrite (Z.min_comm ey ex).
  set (a := cond_Zopp sx _). set (b := cond_Zopp sy _).
  replace (b - a) with (- (a - b)) by lia.
  generalize (a - b). intros [|p|p]; unfold Z.opp, binary_normalize; [done| |].
  all: unfold binary_round, binary_round_aux.
  all: repeat case_match; simplify_eq; done.
Qed.

Lemma SFcompare_antisym (x y : spec_float) :
  SFcompare y x = CompOpp <$> SFcompare x y.
Proof.
  destruct x as [sx|sx| |sx mx ex], y as [sy|sy| |sy my ey];
    try done; try (by destruct sx); try (by destruct sy);
    try (by destruct sx, sy).
  assert (Hm : PosDef.Pos.compare_cont Eq my mx
               = CompOpp (PosDef.Pos.compare_cont Eq mx my))
    by (symmetry; exact (Pos.compare_cont_antisym mx my Eq)).
  cbn. f_equal. rewrite (Z.compare_antisym ex ey), !Hm.
  destruct sx, sy, (ex ?= ey), (PosDef.Pos.compare_cont Eq mx my); done.
Qed.

Lemma SFcompare_Eq (x y : spec_float) :
  SFcompare x y = Some Eq →
  SFltb (Prim2SF 0.1) (SFabs (SF64sub x y)) = false.
Proof.
  destruct x as [sx|sx| |sx mx ex], y as [sy|sy| |sy my ey];
    try done; try (by destruct sx); try (by destruct sy);
    try (by destruct sx, sy).
  intros H. assert (sx = sy ∧ ex = ey ∧ mx = my) as (-> & -> & ->).
  { cbn in H. injection H as H.
    destruct sx, sy; try done;
      destruct (Z.compare_spec ex ey); try done;
      (split; [done|split; [done|]]);
      apply Pos.compare_eq; unfold Pos.compare;
      by destruct (Pos.compare_cont Eq mx my). }
  apply SF_abs_sub_self.
Qed.

Lemma SFcompare_None (x y : spec_float) :
  SFcompare x y = None →
  SFltb (Prim2SF 0.1) (SFabs (SF64sub x y)) = false.
Proof.
  destruct x as [sx|sx| |sx mx ex], y as [sy|sy| |sy my ey];
    try done; try (by destruct sx); try (by destruct sy);
    try (by destruct sx, sy).
Qed.

(** The comparisons of binary64 numbers used by the cascade. *)
Lemma float_far_refl (x : float) : (0.1 <? abs (x - x))%float = false.
Proof. rewrite ltb_spec, abs_spec, sub_spec. apply SF_abs_sub_self. Qed.

Lemma float_far_sym (x y : float) :
  (0.1 <? abs (x - y))%float = (0.1 <? abs (y - x))%float.
Proof. by rewrite !ltb_spec, !abs_spec, !sub_spec, SF_abs_sub_sym. Qed.

Lemma float_ltb_asym (x y : float) :
  (x <? y)%float = true → (y <? x)%float = false.
Proof.
  rewrite !ltb_spec. unfold SFltb.
  rewrite (SFcompare_antisym (Prim2SF x) (Prim2SF y)).
  by destruct (SFcompare (Prim2SF x) (Prim2SF y)) as [[]|].
Qed.

Lemma float_far_decides (x y : float) :
  (0.1 <? abs (x - y))%float = true → (y <? x)%float = negb (x <? y)%float.
Proof.
  rewrite !ltb_spec, abs_spec, sub_spec. intros H.
  unfold SFltb at 1 2. rewrite (SFcompare_antisym (Prim2SF x) (Prim2SF y)).
  destruct (SFcompare (Prim2SF x) (Prim2SF y)) as [[]|] eqn:Hc; try done.
  - by rewrite SFcompare_Eq in H.
  - by rewrite SFcompare_None in H.
Qed.

Lemma code_inj (c1 c2 : ascii) : code c1 = code c2 → c1 = c2.
Proof.
  unfold code. intros H%(inj Z.of_N).
  by rewrite <- (ascii_N_embedding c1), <- (ascii_N_embedding c2), H.
Qed.

Lemma str_lt_irrefl (s : string) : str_lt s s = false.
Proof.
  induction s as [|c s IH]; [done|]. cbn.
  by rewrite Z.ltb_irrefl.
Qed.

Lemma str_lt_total (s1 s2 : string) :
  s1 ≠ s2 → str_lt s2 s1 = negb (str_lt s1 s2).
Proof.
  revert s2. induction s1 as [|c1 s1 IH]; intros [|c2 s2] Hne; try done.
  cbn. destruct (Z.ltb_spec (code c1) (code c2)),
         (Z.ltb_spec (code c2) (code c1)); try done; try lia.
  apply IH. intros ->. apply Hne. f_equal. apply code_inj. lia.
Qed.

Lemma str_lt_asym (s1 s2 : string) :
  str_lt s1 s2 = true → str_lt s2 s1 = false.
Proof.
  intros H. destruct (decide (s1 = s2)) as [->|Hne].
  - by rewrite str_lt_irrefl in H.
  - by rewrite (str_lt_total s1 s2 Hne), H.
Qed.

Section Quality.
Context (env : Env) (img : Imaging).

Lemma observations_kept_refl (h : heap) : observations_kept env img h h.
Proof. by intros r. Qed.

Lemma observations_kept_trans (h1 h2 h3 : heap) :
  observations_kept env img h1 h2 → observations_kept env img h2 h3 →
  observations_kept env img h1 h3.
Proof.
  intros H12 H23 r.
  destruct (H12 r) as (?&?&?&?&?&?), (H23 r) as (?&?&?&?&?&?).
  repeat split; congruence.
Qed.

Lemma quality_metrics_fields (h1 h2 : heap) (r : ref) :
  file_path (h1 r) = file_path (h2 r) →
  _quality_metrics (h1 r) = _quality_metrics (h2 r) →
  fst (CandidateQuality.quality_metrics env img h1 r)
  = fst (CandidateQuality.quality_metrics env img h2 r).
Proof.
  intros Hp Hq.
  unfold CandidateQuality.quality_metrics,
    CandidateQuality._calculate_quality_metrics.
  rewrite Hp, Hq. by destruct (_quality_metrics (h2 r)).
Qed.

(** Filling the caches of dimensions and digest keeps every observation. *)
Lemma caches_filled_kept (h h' : heap) :
  caches_filled env h h' → observations_kept env img h h'.
Proof.
  intros H r. destruct (H r) as (Hp & Hs & Hh & Hq & Ha & Hd).
  repeat split; try done. by apply quality_metrics_fields.
Qed.

Lemma quality_metrics_keeps (h : heap) (r : ref) :
  observations_kept env img h
    (snd (CandidateQuality.quality_metrics env img h r)).
Proof.
  unfold CandidateQuality.quality_metrics at 1.
  destruct (_quality_metrics (h r)) as [m|] eqn:Hq;
    [apply observations_kept_refl|].
  cbn [snd]. intros r'. destruct (decide (r = r')) as [<-|Hne].
  - rewrite fn_lookup_insert. cbn.
    split; [done|]. split; [done|]. split; [done|]. split; [|split].
    + apply image_area_fields; by rewrite fn_lookup_insert.
    + unfold get_md5_hash. rewrite fn_lookup_insert. cbn.
      by destruct (md5_hash (h r)).
    + unfold CandidateQuality.quality_metrics.
      rewrite fn_lookup_insert. cbn. by rewrite Hq.
  - rewrite fn_lookup_insert_ne by done.
    split; [done|]. split; [done|]. split; [done|]. split; [|split].
    + apply image_area_ext. by rewrite fn_lookup_insert_ne.
    + apply get_md5_hash_ext. by rewrite fn_lookup_insert_ne.
    + apply quality_metrics_fields; by rewrite fn_lookup_insert_ne.
Qed.

Lemma better_than_kept (h h' : heap) (a b : ref) :
  observations_kept env img h h' →
  better_than env img h' a b = better_than env img h a b.
Proof.
  intros H. unfold better_than, score_of, area_of.
  destruct (H a) as (-> & -> & _ & -> & _ & ->).
  by destruct (H b) as (-> & -> & _ & -> & _ & ->).
Qed.

(** The method returns what the cascade gives on the observations of the
    store, and fills caches only. *)
Lemma is_better_quality_than_spec (h : heap) (a b : ref) :
  fst (CandidateQuality.is_better_quality_than env img h a b)
  = better_than env img h a b
  ∧ observations_kept env img h
      (snd (CandidateQuality.is_better_quality_than env img h a b)).
Proof.
  unfold CandidateQuality.is_better_quality_than.
  pose proof (quality_metrics_keeps h a) as H1.
  destruct (CandidateQuality.quality_metrics env img h a) as [ma h1] eqn:Ea.
  cbn [snd] in H1.
  pose proof (quality_metrics_keeps h1 b) as H2.
  destruct (CandidateQuality.quality_metrics env img h1 b) as [mb h2] eqn:Eb.
  cbn [snd] in H2.
  assert (H02 : observations_kept env img h h2)
    by by eapply observations_kept_trans.
  assert (Hsa : score_of env img h a = _calculate_quality_score ma)
    by (unfold score_of; by rewrite Ea).
  assert (Hsb : score_of env img h b = _calculate_quality_score mb).
  { unfold score_of. destruct (H1 b) as (_&_&_&_&_& <-). by rewrite Eb. }
  unfold better_than. rewrite Hsa, Hsb.
  destruct (0.1 <? abs _)%float; [done|].
  destruct (H02 a) as (_ & Hza & _), (H02 b) as (_ & Hzb & _).
  rewrite Hza, Hzb.
  destruct (1024 <? _); [done|].
  pose proof (caches_filled_kept _ _ (image_area_fills env h2 a)) as H3.
  assert (Haa : area_of env h a = fst (image_area env h2 a))
    by (unfold area_of; by destruct (H02 a) as (_&_&_& -> &_)).
  destruct (image_area env h2 a) as [self_area h3]. cbn [fst snd] in *.
  pose proof (caches_filled_kept _ _ (image_area_fills env h3 b)) as H4.
  assert (H03 : observations_kept env img h h3)
    by by eapply observations_kept_trans.
  assert (Hab : area_of env h b = fst (image_area env h3 b))
    by (unfold area_of; by destruct (H03 b) as (_&_&_& -> &_)).
  destruct (image_area env h3 b) as [other_area h4]. cbn [fst snd] in *.
  assert (H04 : observations_kept env img h h4)
    by by eapply observations_kept_trans.
  rewrite Haa, Hab.
  destruct (10000 <? _); [done|]. cbn [fst snd].
  destruct (H04 a) as (-> & _), (H04 b) as (-> & _). done.
Qed.

Lemma better_than_irrefl (h : heap) (a : ref) :
  better_than env img h a a = false.
Proof.
  unfold better_than. rewrite float_far_refl, !Z.sub_diag. cbn.
  apply str_lt_irrefl.
Qed.

Lemma better_than_total (h : heap) (a b : ref) :
  file_path (h a) ≠ file_path (h b) →
  better_than env img h b a = negb (better_than env img h a b).
Proof.
  intros Hne. unfold better_than.
  rewrite (float_far_sym (score_of env img h b) (score_of env img h a)).
  destruct (0.1 <? abs _)%float eqn:Hfar.
  { apply float_far_decides in Hfar. rewrite Hfar. by rewrite negb_involutive. }
  replace (Z.abs (file_size (h b) - file_size (h a)))
    with (Z.abs (file_size (h a) - file_size (h b))) by lia.
  destruct (Z.ltb_spec 1024 (Z.abs (file_size (h a) - file_size (h b)))).
  { destruct (Z.ltb_spec (file_size (h a)) (file_size (h b))),
      (Z.ltb_spec (file_size (h b)) (file_size (h a))); try done; lia. }
  replace (Z.abs (area_of env h b - area_of env h a))
    with (Z.abs (area_of env h a - area_of env h b)) by lia.
  destruct (Z.ltb_spec 10000 (Z.abs (area_of env h a - area_of env h b))).
  { destruct (Z.ltb_spec (area_of env h a) (area_of env h b)),
      (Z.ltb_spec (area_of env h b) (area_of env h a)); try done; lia. }
  by apply str_lt_total.
Qed.

Lemma better_than_asym (h : heap) (a b : ref) :
  better_than env img h a b = true → better_than env img h b a = false.
Proof.
  unfold better_than.
  rewrite (float_far_sym (score_of env img h b) (score_of env img h a)).
  destruct (0.1 <? abs _)%float; [apply float_ltb_asym|].
  replace (Z.abs (file_size (h b) - file_size (h a)))
    with (Z.abs (file_size (h a) - file_size (h b))) by lia.
  destruct (1024 <? _); [lia|].
  replace (Z.abs (area_of env h b - area_of env h a))
    with (Z.abs (area_of env h a - area_of env h b)) by lia.
  destruct (10000 <? _); [lia|].
  apply str_lt_asym.
Qed.

End Quality.




(** X16: [is_better_quality_than] is irreflexive and asymmetric, and it
    answers the same when asked again: the calls fill caches, and change
    nothing that the methods observe. *)
Theorem is_better_quality_than_strict (env : Env) (img : Imaging) (h : heap)
    (a b : ref) :
  let r1 := CandidateQuality.is_better_quality_than env img h a b in
  let r2 := CandidateQuality.is_better_quality_than env img (snd r1) b a in
  let r3 := CandidateQuality.is_better_quality_than env img (snd r2) a b in
  fst (CandidateQuality.is_better_quality_than env img h a a) = false
  ∧ fst r1 && fst r2 = false
  ∧ fst r3 = fst r1
  ∧ observations_kept env img h (snd r3).
Proof.
  intros r1 r2 r3.
  destruct (is_better_quality_than_spec env img h a a) as [Haa _].
  destruct (is_better_quality_than_spec env img h a b) as [H1 K1].
  destruct (is_better_quality_than_spec env img (snd r1) b a) as [H2 K2].
  destruct (is_better_quality_than_spec env img (snd r2) a b) as [H3 K3].
  fold r1 in H1, K1. fold r2 in H2, K2. fold r3 in H3, K3.
  assert (K02 : observations_kept env img h (snd r2))
    by by eapply observations_kept_trans.
  rewrite (better_than_kept env img h _ b a K1) in H2.
  rewrite (better_than_kept env img h _ a b K02) in H3.
  split; [by rewrite Haa, better_than_irrefl|]. split; [|split].
  - rewrite H1, H2. destruct (better_than env img h a b) eqn:Hab; [|done].
    by rewrite (better_than_asym env img h a b Hab).
  - congruence.
  - by eapply observations_kept_trans.
Qed.

(** X17: between two candidates with different paths the comparison
    decides: exactly one of them is better than the other. *)
Theorem is_better_quality_than_decisive (env : Env) (img : Imaging)
    (h : heap) (a b : ref) :
  file_path (h a) ≠ file_path (h b) →
  let r1 := CandidateQuality.is_better_quality_than env img h a b in
  let r2 := CandidateQuality.is_better_quality_than env img (snd r1) b a in
  fst r2 = negb (fst r1).
Proof.
  intros Hne r1 r2.
  destruct (is_better_quality_than_spec env img h a b) as [H1 K1].
  destruct (is_better_quality_than_spec env img (snd r1) b a) as [H2 _].
  fold r1 in H1, K1. fold r2 in H2.
  rewrite (better_than_kept env img h _ b a K1) in H2.
  rewrite H1, H2. by apply better_than_total.
Qed.

Lemma is_better_quality_than_decisive_witness :
  file_path (example_store 0%nat) ≠ file_path (example_store 2%nat)
  ∧ fst (CandidateQuality.is_better_quality_than example_env example_imaging
           (snd (CandidateQuality.is_better_quality_than example_env
                   example_imaging example_store 0%nat 2%nat))
           2%nat 0%nat)
    = negb (fst (CandidateQuality.is_better_quality_than example_env
                   example_imaging example_store 0%nat 2%nat)).
Proof.
  split; [discriminate|].
  apply (is_better_quality_than_decisive example_env example_imaging
           example_store 0%nat 2%nat).
  discriminate.
Defined.

(** X18: the comparison is not transitive.  With equal scores and areas,
    sizes that rise by at most 1024 bytes from one candidate to the next
    and by more than 1024 in total, and paths in rising order, the first is
    better than the second and the second better than the third, but the
    third is better than the first. *)
Theorem is_better_quality_than_not_transitive (env : Env) (img : Imaging)
    (h : heap) (a b c : ref) :
  score_of env img h a = score_of env img h b →
  score_of env img h b = score_of env img h c →
  area_of env h a = area_of env h b →
  area_of env h b = area_of env h c →
  0 <= file_size (h b) - file_size (h a) <= 1024 →
  0 <= file_size (h c) - file_size (h b) <= 1024 →
  1024 < file_size (h c) - file_size (h a) →
  str_lt (file_path (h a)) (file_path (h b)) = true →
  str_lt (file_path (h b)) (file_path (h c)) = true →
  fst (CandidateQuality.is_better_quality_than env img h a b) = true
  ∧ fst (CandidateQuality.is_better_quality_than env img h b c) = true
  ∧ fst (CandidateQuality.is_better_quality_than env img h a c) = false
  ∧ fst (CandidateQuality.is_better_quality_than env img h c a) = true.
Proof.
  intros Hsab Hsbc Haab Habc Hzab Hzbc Hzac Hpab Hpbc.
  rewrite !(proj1 (is_better_quality_than_spec env img h _ _)).
  unfold better_than. rewrite Hsab, Hsbc, Haab, Habc, !float_far_refl.
  rewrite !Z.sub_diag. cbn [Z.abs].
  replace (1024 <? Z.abs (file_size (h a) - file_size (h b))) with false
    by (symmetry; apply Z.ltb_ge; lia).
  replace (1024 <? Z.abs (file_size (h b) - file_size (h c))) with false
    by (symmetry; apply Z.ltb_ge; lia).
  replace (1024 <? Z.abs (file_size (h a) - file_size (h c))) with true
    by (symmetry; apply Z.ltb_lt; lia).
  replace (1024 <? Z.abs (file_size (h c) - file_size (h a))) with true
    by (symmetry; apply Z.ltb_lt; lia).
  cbn. repeat split; try done.
  - apply Z.ltb_ge. lia.
  - apply Z.ltb_lt. lia.
Qed.

Lemma is_better_quality_than_not_transitive_witness :
  fst (CandidateQuality.is_better_quality_than example_env example_imaging
         example_triple 0%nat 1%nat) = true
  ∧ fst (CandidateQuality.is_better_quality_than example_env example_imaging
           example_triple 1%nat 2%nat) = true
  ∧ fst (CandidateQuality.is_better_quality_than example_env example_imaging
           example_triple 0%nat 2%nat) = false
  ∧ fst (CandidateQuality.is_better_quality_than example_env example_imaging
           example_triple 2%nat 0%nat) = true.
Proof.
  apply (is_better_quality_than_not_transitive example_env example_imaging
           example_triple 0%nat 1%nat 2%nat);
    try reflexivity; vm_compute; split; discriminate.
Defined.

(** X19: without PIL fresh candidates get the default metrics and no area,
    so the comparison is decided by the file sizes when they differ by more
    than 1024 bytes, and by the paths otherwise. *)
Theorem is_better_quality_than_without_PIL (env : Env) (img : Imaging)
    (h : heap) (a b : ref) :
  PIL_AVAILABLE env = false →
  _quality_metrics (h a) = None → _quality_metrics (h b) = None →
  _image_dimensions (h a) = None → _image_dimensions (h b) = None →
  fst (CandidateQuality.quality_metrics env img h a)
  = CandidateQuality.default_metrics
  ∧ fst (CandidateQuality.is_better_quality_than env img h a b)
    = if 1024 <? Z.abs (file_size (h a) - file_size (h b))
      then file_size (h b) <? file_size (h a)
      else str_lt (file_path (h a)) (file_path (h b)).
Proof.
  intros Hpil Hqa Hqb Hda Hdb.
  assert (Hm : ∀ c, _quality_metrics (h c) = None →
             fst (CandidateQuality.quality_metrics env img h c)
             = CandidateQuality.default_metrics).
  { intros c Hc.
    unfold CandidateQuality.quality_metrics,
      CandidateQuality._calculate_quality_metrics.
    by rewrite Hc, Hpil. }
  assert (Ha : ∀ c, _image_dimensions (h c) = None → area_of env h c = 0).
  { intros c Hc. unfold area_of, image_area, image_dimensions.
    by rewrite Hc, Hpil. }
  split; [by apply Hm|].
  rewrite (proj1 (is_better_quality_than_spec env img h a b)).
  unfold better_than, score_of.
  rewrite (Hm a Hqa), (Hm b Hqb), float_far_refl.
  rewrite (Ha a Hda), (Ha b Hdb). by destruct (1024 <? _).
Qed.

Lemma is_better_quality_than_without_PIL_witness :
  fst (CandidateQuality.is_better_quality_than example_env_no_PIL
         example_imaging example_store 0%nat 1%nat)
  = true.
Proof.
  rewrite (proj2 (is_better_quality_than_without_PIL example_env_no_PIL
                    example_imaging example_store 0%nat 1%nat
                    eq_refl eq_refl eq_refl eq_refl eq_refl)).
  reflexivity.
Defined.

(** ** Hashing and scanning *)

(** X23: a detector that [__init__] returns always finds its algorithm:
    [calculate_hash] is the hash function of the lower-cased name when PIL
    is available, and [None] otherwise. *)
Theorem calculate_hash_constructed (env : Env) (img : Imaging)
    (algorithm : string) (threshold : Z) (self : DuplicateDetector.t) :
  DuplicateDetector.__init__ env algorithm threshold = Ok self →
  IMAGEHASH_AVAILABLE env = true
  ∧ ∀ image_path,
      DetectorScan.calculate_hash env img self image_path
      = if PIL_AVAILABLE env
        then hash_image img (py_lower algorithm) image_path
        else None.
Proof.
  unfold DuplicateDetector.__init__.
  destruct (decide (py_lower algorithm
                    ∈ DuplicateDetector._get_available_algorithms env))
    as [Hin|Hout].
  2:{ by rewrite bool_decide_eq_false_2. }
  rewrite bool_decide_eq_true_2 by done. cbn [negb]. intros [= <-].
  assert (Himg : IMAGEHASH_AVAILABLE env = true).
  { unfold DuplicateDetector._get_available_algorithms in Hin.
    destruct (IMAGEHASH_AVAILABLE env); [done|]. by apply elem_of_nil in Hin. }
  split; [done|]. intros image_path.
  unfold DetectorScan.calculate_hash. rewrite Himg. cbn.
  destruct (PIL_AVAILABLE env); [|done]. cbn.
  by rewrite bool_decide_eq_true_2.
Qed.

Lemma calculate_hash_constructed_witness :
  IMAGEHASH_AVAILABLE example_env = true
  ∧ ∀ image_path,
      DetectorScan.calculate_hash example_env example_imaging
        example_detector image_path
      = if PIL_AVAILABLE example_env
        then hash_image example_imaging (py_lower "DHash") image_path
        else None.
Proof.
  apply (calculate_hash_constructed example_env example_imaging "DHash" 4
           example_detector).
  reflexivity.
Defined.

Section Scan.
Context (env : Env) (img : Imaging) (fs : FileSystem).
Context (self : DuplicateDetector.t) (supported_formats : list string).

Lemma scan_files_spec (files : list string) :
  ∀ (candidates : list ref) (h : heap) (next : ref),
    let found := filter (scannable env img fs self supported_formats) files in
    ∃ h',
      DetectorScan.scan_files env img fs self supported_formats files
        candidates h next
      = ((candidates ++ seq next (length found))%list, h',
         (next + length found)%nat)
      ∧ (∀ r, (r < next)%nat → h' r = h r)
      ∧ (∀ k path, found !! k = Some path →
           ∃ file_size hash,
             stat_st_size fs path = Some file_size
             ∧ DetectorScan.calculate_hash env img self path = Some hash
             ∧ hash ≠ ""
             ∧ h' (next + k)%nat
               = DuplicateCandidate.__init__ path (Z.of_N file_size)
                   (Some hash)).
Proof.
  induction files as [|path rest IH]; intros candidates h next found.
  { exists h. cbn. rewrite app_nil_r, Nat.add_0_r.
    split; [done|]. split; [done|]. intros k p Hk. by rewrite lookup_nil in Hk. }
  destruct (decide (scannable env img fs self supported_formats path))
    as [(Hfile & Hsuf & [file_size Hstat] & Hhash)|Hno].
  - assert (Hyes : scannable env img fs self supported_formats path)
      by (split; [done|split; [done|split; [by rewrite Hstat|done]]]).
    unfold found. rewrite filter_cons_True by done.
    cbn [DetectorScan.scan_files]. rewrite Hfile. cbn [negb].
    rewrite bool_decide_eq_true_2 by done. cbn [negb]. rewrite Hstat, Hhash.
    set (h1 := <[next := _]> h).
    destruct (IH (candidates ++ [next])%list h1 (S next))
      as (h' & Hres & Hold & Hnew).
    exists h'. rewrite Hres. cbn [length seq].
    split; [|split].
    + f_equal; [|lia]. f_equal. by rewrite <- app_assoc.
    + intros r Hr. rewrite Hold by lia. unfold h1.
      rewrite fn_lookup_insert_ne by lia. done.
    + intros [|k] p Hk.
      * cbn in Hk. injection Hk as <-. rewrite Nat.add_0_r.
        rewrite Hold by lia. unfold h1. rewrite fn_lookup_insert.
        destruct (DetectorScan.calculate_hash env img self path)
          as [[|x hash]|] eqn:Hh; try done.
        by exists file_size, (String x hash).
      * cbn in Hk. destruct (Hnew k p Hk) as (sz & hash & ? & ? & ? & Hobj).
        exists sz, hash. replace (next + S k)%nat with (S next + k)%nat by lia.
        done.
  - unfold found. rewrite filter_cons_False by done.
    assert (Hstep :
      DetectorScan.scan_files env img fs self supported_formats
        (path :: rest) candidates h next
      = DetectorScan.scan_files env img fs self supported_formats rest
          candidates h next).
    { cbn [DetectorScan.scan_files].
      destruct (Path_is_file fs path) eqn:Hfile; [|done]. cbn [negb].
      destruct (decide (py_lower (Path_suffix fs path) ∈ supported_formats))
        as [Hsuf|Hsuf];
        [|by rewrite bool_decide_eq_false_2].
      rewrite bool_decide_eq_true_2 by done. cbn [negb].
      destruct (stat_st_size fs path) as [file_size|] eqn:Hstat; [|done].
      destruct (truthy (DetectorScan.calculate_hash env img self path))
        eqn:Hhash; [|done].
      exfalso. apply Hno.
      split; [done|split; [done|split; [by rewrite Hstat|done]]]. }
    rewrite Hstep. apply IH.
Qed.

End Scan.

(** X20: [scan_directory] returns new objects, one per listed path that is
    a file with a supported suffix (compared in lower case), a readable
    size and a non-empty fingerprint, in the order of the listing; each
    holds its path, size and fingerprint and empty caches, and the objects
    that existed are as they were. *)
Theorem scan_directory_candidates (env : Env) (img : Imaging)
    (fs : FileSystem) (self : DuplicateDetector.t) (directory : string)
    (supported_formats : list string) (recursive : bool) (h : heap)
    (next : ref) :
  ∃ (found : list string) (h' : heap),
    DetectorScan.scan_directory env img fs self directory supported_formats
      recursive h next
    = (seq next (length found), h', (next + length found)%nat)
    ∧ found
      = (if Path_exists fs directory
         then filter (scannable env img fs self supported_formats)
                (Path_glob fs directory (if recursive then "**/*" else "*"))
         else [])
    ∧ (∀ r, (r < next)%nat → h' r = h r)
    ∧ (∀ k path, found !! k = Some path →
         ∃ file_size hash,
           stat_st_size fs path = Some file_size
           ∧ DetectorScan.calculate_hash env img self path = Some hash
           ∧ hash ≠ ""
           ∧ h' (next + k)%nat
             = DuplicateCandidate.__init__ path (Z.of_N file_size)
                   (Some hash)).
Proof.
  unfold DetectorScan.scan_directory.
  destruct (Path_exists fs directory); cbn [negb].
  - destruct (scan_files_spec env img fs self supported_formats
                (Path_glob fs directory (if recursive then "**/*" else "*"))
                [] h next) as (h' & Hres & Hold & Hnew).
    eexists _, h'. split; [exact Hres|]. done.
  - exists [], h. cbn. rewrite Nat.add_0_r. split; [done|]. split; [done|].
    split; [done|]. intros k p Hk. by rewrite lookup_nil in Hk.
Qed.

Lemma scan_files_nothing (env : Env) (img : Imaging) (fs : FileSystem)
    (self : DuplicateDetector.t) (supported_formats : list string)
    (files : list string) (candidates : list ref) (h : heap) (next : ref) :
  (∀ path, ¬ scannable env img fs self supported_formats path) →
  DetectorScan.scan_files env img fs self supported_formats files
    candidates h next
  = (candidates, h, next).
Proof.
  intros Hno. induction files as [|path rest IH]; [done|].
  cbn [DetectorScan.scan_files].
  destruct (Path_is_file fs path) eqn:Hfile; [|done]. cbn [negb].
  destruct (decide (py_lower (Path_suffix fs path) ∈ supported_formats))
    as [Hsuf|Hsuf];
    [|by rewrite bool_decide_eq_false_2].
  rewrite bool_decide_eq_true_2 by done. cbn [negb].
  destruct (stat_st_size fs path) as [file_size|] eqn:Hstat; [|done].
  destruct (truthy (DetectorScan.calculate_hash env img self path))
    eqn:Hhash; [|done].
  exfalso. apply (Hno path).
  split; [done|split; [done|split; [by rewrite Hstat|done]]].
Qed.

(** X21: no candidates come from a directory that does not exist, without
    PIL or imagehash, or with no supported format; the store is left as it
    is. *)
Theorem scan_directory_nothing (env : Env) (img : Imaging)
    (fs : FileSystem) (self : DuplicateDetector.t) (directory : string)
    (supported_formats : list string) (recursive : bool) (h : heap)
    (next : ref) :
  Path_exists fs directory = false ∨ PIL_AVAILABLE env = false
  ∨ IMAGEHASH_AVAILABLE env = false ∨ supported_formats = [] →
  DetectorScan.scan_directory env img fs self directory supported_formats
    recursive h next
  = ([], h, next).
Proof.
  intros Hcause. unfold DetectorScan.scan_directory.
  destruct (Path_exists fs directory) eqn:Hex; [|done]. cbn [negb].
  apply scan_files_nothing. intros path (_ & Hsuf & _ & Hhash).
  unfold DetectorScan.calculate_hash in Hhash.
  destruct Hcause as [?|[Hc|[Hc|Hc]]]; [done| | |].
  - rewrite Hc in Hhash. by rewrite orb_true_r in Hhash.
  - by rewrite Hc in Hhash.
  - rewrite Hc in Hsuf. by apply elem_of_nil in Hsuf.
Qed.

Lemma scan_directory_nothing_witness :
  DetectorScan.scan_directory example_env example_imaging example_fs
    example_detector "elsewhere" [".jpg"] true example_store 5%nat
  = ([], example_store, 5%nat).
Proof.
  apply (scan_directory_nothing example_env example_imaging example_fs
           example_detector "elsewhere" [".jpg"] true example_store 5%nat).
  left. reflexivity.
Defined.

(** From distinct candidates [find_duplicates] forms groups of distinct
    members, taken from the candidates, with an empty cache. *)
Lemma find_duplicates_distinct (env : Env) (self : DuplicateDetector.t)
    (h : heap) (candidates : list ref) :
  NoDup candidates →
  ∃ groups,
    DuplicateDetector.find_duplicates self h candidates = Ok groups
    ∧ Forall (group_ok env h) groups
    ∧ Forall (λ g, NoDup (DuplicateGroup.candidates g)) groups
    ∧ Forall (λ g, ∀ c, c ∈ DuplicateGroup.candidates g → c ∈ candidates)
        groups.
Proof.
  intros Hnd.
  destruct (find_groups_spec self h candidates (length candidates) 0 [] ∅)
    as (new & Hres & Hnew & _); [done| |].
  { intros g a j c Hg. by apply elem_of_nil in Hg. }
  rewrite drop_0, app_nil_l in Hres. exists new. split; [exact Hres|].
  split; [|split]; (eapply Forall_impl; [exact Hnew|]);
    intros g (Hfresh & (a & rest & Hmem & Hrest & _) & Hsub).
  - split; [by rewrite Hmem|]. intros b Hb. by rewrite Hfresh in Hb.
  - rewrite drop_0 in Hsub. by eapply sublist_NoDup.
  - rewrite drop_0 in Hsub. intros c Hc. by eapply elem_of_sublist.
Qed.

(** X22: the command line's sequence of calls: the candidates that
    [scan_directory] returns are distinct and all have a fingerprint;
    [find_duplicates] on them returns groups for which [get_statistics]
    returns, with [size - 1] duplicate files per group and one original
    per group. *)
Theorem scan_then_statistics (env : Env) (img : Imaging) (fs : FileSystem)
    (self : DuplicateDetector.t) (directory : string)
    (supported_formats : list string) (recursive : bool) (h : heap)
    (next : ref) :
  ∃ (candidates : list ref) (h1 : heap) (next1 : ref)
    (groups : list DuplicateGroup.t) (stats : Statistics)
    (groups' : list DuplicateGroup.t) (h2 : heap),
    DetectorScan.scan_directory env img fs self directory supported_formats
      recursive h next
    = (candidates, h1, next1)
    ∧ NoDup candidates
    ∧ (∀ c, c ∈ candidates → fingerprint_present (h1 c))
    ∧ DuplicateDetector.find_duplicates self h1 candidates = Ok groups
    ∧ DuplicateDetector.get_statistics env self groups h1
      = Ok (stats, groups', h2)
    ∧ duplicate_files stats = sum_of (λ g, DuplicateGroup.size g - 1) groups
    ∧ original_files stats = duplicate_groups stats.
Proof.
  assert (Hscan : ∃ (found : list string) (h1 : heap),
    DetectorScan.scan_directory env img fs self directory supported_formats
      recursive h next
    = (seq next (length found), h1, (next + length found)%nat)
    ∧ ∀ k path, found !! k = Some path →
        fingerprint_present (h1 (next + k)%nat)
        ∧ 0 <= file_size (h1 (next + k)%nat)).
  { unfold DetectorScan.scan_directory.
    destruct (Path_exists fs directory); cbn [negb].
    - destruct (scan_files_spec env img fs self supported_formats
                  (Path_glob fs directory
                     (if recursive then "**/*" else "*")) [] h next)
        as (h1 & Hres & _ & Hnew).
      eexists _, h1. split; [exact Hres|]. intros k path Hk.
      destruct (Hnew k path Hk) as (sz & hash & _ & _ & Hne & ->).
      split; [by exists hash|]. cbn. lia.
    - exists [], h. cbn. rewrite Nat.add_0_r. split; [done|].
      intros k p Hk. by rewrite lookup_nil in Hk. }
  destruct Hscan as (found & h1 & Hres & Hfp).
  assert (Hcand : ∀ c, c ∈ seq next (length found) →
            fingerprint_present (h1 c) ∧ 0 <= file_size (h1 c)).
  { intros c Hc. apply elem_of_seq in Hc.
    destruct (lookup_lt_is_Some_2 found (c - next)) as [path Hp]; [lia|].
    specialize (Hfp _ _ Hp). by replace (next + (c - next))%nat with c in Hfp
      by lia. }
  destruct (find_duplicates_distinct env self h1 (seq next (length found)))
    as (groups & Hgroups & Hok & Hnd & Hsub); [apply NoDup_seq|].
  destruct (get_statistics_returns env self groups h1 Hok)
    as (bests & percent & h2 & Hstats & _ & _ & Hbests & _).
  { intros g c Hg Hc. apply Hcand.
    rewrite Forall_forall in Hsub. by apply (Hsub g). }
  eexists _, h1, _, groups, _, _, h2.
  split; [exact Hres|]. split; [apply NoDup_seq|].
  split; [intros c Hc; by apply Hcand|]. split; [done|].
  split; [exact Hstats|].
  assert (Hdup : duplicate_files (statistics_of h1 groups bests percent)
                 = sum_of (λ g, DuplicateGroup.size g - 1) groups)
    by (cbn; by apply (sum_of_removed_NoDup env h1)).
  split; [done|].
  change (original_files (statistics_of h1 groups bests percent))
    with (sum_of DuplicateGroup.size groups
          - duplicate_files (statistics_of h1 groups bests percent)).
  rewrite Hdup. cbn. clear.
  induction groups as [|g groups IH]; [done|].
  cbn [length]. rewrite !sum_of_cons. lia.
Qed.

(** ** Similarity grouping: what the result depends on *)

Lemma unskipped_ext (processed : gset nat) (i : nat)
    (c c' : DuplicateCandidate.t) :
  image_hash c = image_hash c' →
  DuplicateDetector.unskipped processed i c
  = DuplicateDetector.unskipped processed i c'.
Proof. unfold DuplicateDetector.unskipped. by intros ->. Qed.

Lemma find_similar_ext (self : DuplicateDetector.t) (h h' : heap)
    (hash1 : string) (items : list (nat * ref)) :
  (∀ j c, (j, c) ∈ items → image_hash (h c) = image_hash (h' c)) →
  ∀ group processed,
    DuplicateDetector.find_similar self h hash1 items group processed
    = DuplicateDetector.find_similar self h' hash1 items group processed.
Proof.
  induction items as [|[j c] rest IH]; intros Hall group processed; [done|].
  cbn [DuplicateDetector.find_similar].
  rewrite (unskipped_ext processed j (h c) (h' c)) by (apply (Hall j); left).
  assert (Hrest : ∀ j' c', (j', c') ∈ rest →
                    image_hash (h c') = image_hash (h' c'))
    by (intros j' c' Hin; apply (Hall j'); by right).
  destruct (DuplicateDetector.unskipped processed j (h' c)) as [hash2|];
    [|by apply IH].
  destruct (DuplicateDetector.are_similar self hash1 hash2) as [[|]|e];
    cbn [mbind Result_bind]; [by apply IH|by apply IH|done].
Qed.

Lemma find_groups_ext (self : DuplicateDetector.t) (h h' : heap)
    (candidates : list ref) (items : list (nat * ref)) :
  (∀ c, c ∈ candidates → image_hash (h c) = image_hash (h' c)) →
  (∀ j c, (j, c) ∈ items → c ∈ candidates) →
  ∀ groups processed,
    DuplicateDetector.find_groups self h candidates items groups processed
    = DuplicateDetector.find_groups self h' candidates items groups processed.
Proof.
  intros Hall. induction items as [|[i c] rest IH]; intros Hin groups processed;
    [done|].
  cbn [DuplicateDetector.find_groups].
  rewrite (unskipped_ext processed i (h c) (h' c))
    by (apply Hall, (Hin i); left).
  assert (Hrest : ∀ j c', (j, c') ∈ rest → c' ∈ candidates)
    by (intros j c' Hj; apply (Hin j); by right).
  destruct (DuplicateDetector.unskipped processed i (h' c)) as [hash1|];
    [|by apply IH].
  rewrite (find_similar_ext self h h').
  2:{ intros j c' Hj. apply Hall.
      apply (elem_of_enumerate_drop h candidates (i + 1) j c') in Hj as [_ Hj].
      by eapply list_elem_of_lookup_2. }
  destruct (DuplicateDetector.find_similar self h' hash1 _ _ _)
    as [[group processed']|e]; cbn [mbind Result_bind]; [|done].
  destruct (1 <? length group)%nat; by apply IH.
Qed.

(** X24: [find_duplicates] reads nothing of a candidate but its
    fingerprint: on two stores that give every listed candidate the same
    fingerprint it returns the same result, whatever the sizes, the paths
    and the caches are. *)
Theorem find_duplicates_fingerprints_only (self : DuplicateDetector.t)
    (h h' : heap) (candidates : list ref) :
  (∀ c, c ∈ candidates → image_hash (h c) = image_hash (h' c)) →
  DuplicateDetector.find_duplicates self h candidates
  = DuplicateDetector.find_duplicates self h' candidates.
Proof.
  intros Hall. unfold DuplicateDetector.find_duplicates.
  apply find_groups_ext; [done|].
  intros j c Hj.
  rewrite <- (drop_0 candidates) in Hj.
  apply (elem_of_enumerate_drop h candidates 0 j c) in Hj as [_ Hj].
  by eapply list_elem_of_lookup_2.
Qed.

Lemma find_duplicates_fingerprints_only_witness :
  DuplicateDetector.find_duplicates example_detector example_store
    [0; 1; 2; 3]%nat
  = DuplicateDetector.find_duplicates example_detector
      (snd (DuplicateDetector.find_exact_duplicates example_env
              example_detector [0; 1; 2; 3]%nat example_store))
      [0; 1; 2; 3]%nat.
Proof.
  apply (find_duplicates_fingerprints_only example_detector example_store
           (snd (DuplicateDetector.find_exact_duplicates example_env
                   example_detector [0; 1; 2; 3]%nat example_store))
           [0; 1; 2; 3]%nat).
  intros c Hc.
  repeat (apply elem_of_cons in Hc as [->|Hc]; [reflexivity|]).
  by apply elem_of_nil in Hc.
Defined.

(** ** Similarity grouping: fingerprints at distance 0 *)

(** Fingerprints at distance 0 are not empty, have one length and denote
    one number. *)
Lemma distance_zero_value (self : DuplicateDetector.t) (s1 s2 : string) :
  DuplicateDetector.calculate_hamming_distance self s1 s2 = Ok (Bits 0) ↔
  ∃ z, s1 ≠ "" ∧ s2 ≠ "" ∧ String.length s1 = String.length s2
       ∧ py_int16 s1 = Ok z ∧ py_int16 s2 = Ok z.
Proof.
  split.
  - intros Hd.
    apply calculate_hamming_distance_bits in Hd
      as (z1 & z2 & Hn1 & Hn2 & Hlen & Hz1 & Hz2 & Hcount).
    rewrite str_count_bin in Hcount. symmetry in Hcount.
    apply popcount_zero, Z.lxor_eq in Hcount. subst z2. by exists z1.
  - intros (z & Hn1 & Hn2 & Hlen & Hz1 & Hz2).
    unfold DuplicateDetector.calculate_hamming_distance.
    destruct s1 as [|a1 s1]; [done|]. destruct s2 as [|a2 s2]; [done|].
    cbn [truthy negb orb]. rewrite Hlen, Nat.eqb_refl. cbn [negb].
    rewrite Hz1, Hz2. cbn. by rewrite Z.lxor_nilpotent.
Qed.

(** Fingerprints at distance 0 are at the same distance from any other. *)
Lemma distance_zero_same (self : DuplicateDetector.t) (s1 s2 hash1 : string) :
  DuplicateDetector.calculate_hamming_distance self s1 s2 = Ok (Bits 0) →
  DuplicateDetector.are_similar self hash1 s1
  = DuplicateDetector.are_similar self hash1 s2.
Proof.
  intros (z & Hn1 & Hn2 & Hlen & Hz1 & Hz2)%distance_zero_value.
  unfold DuplicateDetector.are_similar,
    DuplicateDetector.calculate_hamming_distance.
  destruct s1 as [|a1 s1]; [done|]. destruct s2 as [|a2 s2]; [done|].
  by rewrite Hlen, Hz1, Hz2.
Qed.

Lemma twins_sym (self : DuplicateDetector.t) (h : heap) (c1 c2 : ref) :
  twins self h c1 c2 → twins self h c2 c1.
Proof.
  intros (s1 & s2 & H1 & H2 & Hd). exists s2, s1.
  split; [done|]. split; [done|].
  apply distance_zero_value in Hd as (z & ? & ? & ? & ? & ?).
  apply distance_zero_value. by exists z.
Qed.

Section Twins.
Context (self : DuplicateDetector.t) (h : heap) (candidates : list ref).
Context (threshold_nonneg : 0 <= DuplicateDetector.threshold self).

Lemma twins_similar (hash1 : string) (c1 c2 : ref) (s1 : string) :
  twins self h c1 c2 → image_hash (h c1) = Some s1 →
  ∃ s2, image_hash (h c2) = Some s2 ∧ s1 ≠ "" ∧ s2 ≠ ""
        ∧ DuplicateDetector.are_similar self s1 s2 = Ok true
        ∧ DuplicateDetector.are_similar self hash1 s1
          = DuplicateDetector.are_similar self hash1 s2.
Proof.
  intros (s1' & s2 & H1 & H2 & Hd) Hs1.
  assert (s1' = s1) as -> by congruence.
  exists s2. split; [done|].
  pose proof (distance_zero_same self s1 s2 hash1 Hd) as Hsame.
  pose proof Hd as (z & Hn1 & Hn2 & _)%distance_zero_value.
  do 2 (split; [done|]). split; [|done].
  apply are_similar_true. exists 0. split; [done|lia].
Qed.

(** The outer loop keeps twins together: of two twins not yet visited
    either both are processed, and then in one group, or none is. *)
Lemma find_groups_twins :
  ∀ (k i : nat) (groups : list DuplicateGroup.t) (processed : gset nat),
    (i + k = length candidates)%nat →
    (∀ p q cp cq,
       (i <= p)%nat → (i <= q)%nat →
       candidates !! p = Some cp → candidates !! q = Some cq →
       twins self h cp cq → p ∈ processed →
       q ∈ processed
       ∧ ∃ g, g ∈ groups ∧ cp ∈ DuplicateGroup.candidates g
              ∧ cq ∈ DuplicateGroup.candidates g) →
    (∀ p q cp cq,
       (p < q)%nat → (p < i)%nat →
       candidates !! p = Some cp → candidates !! q = Some cq →
       twins self h cp cq →
       ∃ g, g ∈ groups ∧ cp ∈ DuplicateGroup.candidates g
            ∧ cq ∈ DuplicateGroup.candidates g) →
    ∃ new : list DuplicateGroup.t,
      DuplicateDetector.find_groups self h candidates
        (enumerate (drop i candidates) i) groups processed
      = Ok (groups ++ new)%list
      ∧ ∀ p q cp cq,
          (p < q)%nat →
          candidates !! p = Some cp → candidates !! q = Some cq →
          twins self h cp cq →
          ∃ g, g ∈ (groups ++ new)%list
               ∧ cp ∈ DuplicateGroup.candidates g
               ∧ cq ∈ DuplicateGroup.candidates g.
Proof.
  induction k as [|k IH]; intros i groups processed Hik HA HB.
  { rewrite drop_ge by lia. exists []. cbn. rewrite app_nil_r.
    split; [done|]. intros p q cp cq Hpq Hp Hq Ht.
    apply (HB p q cp cq); try done. apply lookup_lt_Some in Hq. lia. }
  destruct (lookup_lt_is_Some_2 candidates i) as [c1 Hc1]; [lia|].
  rewrite (drop_S _ _ _ Hc1), enumerate_cons.
  cbn [DuplicateDetector.find_groups].
  assert (Hgrow : ∀ (gs gs' : list DuplicateGroup.t) cp cq,
    (∃ g, g ∈ gs ∧ cp ∈ DuplicateGroup.candidates g
          ∧ cq ∈ DuplicateGroup.candidates g) →
    ∃ g, g ∈ (gs ++ gs')%list ∧ cp ∈ DuplicateGroup.candidates g
         ∧ cq ∈ DuplicateGroup.candidates g).
  { intros gs gs' cp cq (g & Hg & ?). exists g.
    split; [apply elem_of_app; by left|done]. }
  destruct (DuplicateDetector.unskipped processed i (h c1)) as [hash1|]
    eqn:Hskip.
  - apply (unskipped_Some h) in Hskip as (Hi & Hhash1 & Hne1).
    destruct (find_similar_spec self h hash1
                (enumerate (drop (i + 1) candidates) (i + 1))
                [c1] ({[i]} ∪ processed))
      as (added & Hres & Hsub & Hadded & Hclosed).
    rewrite Hres. cbn [mbind Result_bind].
    replace (i + 1)%nat with (S i) in * by lia.
    assert (Hpos : ∀ j c, (j, c) ∈ added →
                     (S i <= j)%nat ∧ candidates !! j = Some c).
    { intros j c Hjc. apply (elem_of_enumerate_drop h candidates (S i) j c).
      by eapply elem_of_sublist. }
    (* a later twin of something similar to the anchor joins the group *)
    assert (Hjoin : ∀ q cq sq,
      (S i <= q)%nat → candidates !! q = Some cq →
      image_hash (h cq) = Some sq → sq ≠ "" →
      DuplicateDetector.are_similar self hash1 sq = Ok true →
      q ∉ processed →
      (q, cq) ∈ added).
    { intros q cq sq Hq Hcq Hsq Hnq Hsim Hnp.
      assert (Hin : q ∈ list_to_set (C := gset nat) added.*1
                        ∪ ({[i]} ∪ processed)).
      { apply (Hclosed q cq sq); try done.
        by apply (elem_of_enumerate_drop h candidates (S i) q cq). }
      assert (Hq' : q ∈ added.*1)
        by (assert (q ≠ i) by lia; set_solver).
      apply list_elem_of_fmap in Hq' as ([q' c'] & -> & Hin').
      destruct (Hpos _ _ Hin') as [_ Hc']. cbn in Hcq.
      by assert (c' = cq) as -> by congruence. }
    set (G := DuplicateGroup.__init__ ([c1] ++ added.*2)).
    assert (HinG : ∀ j c, (j, c) ∈ added → c ∈ DuplicateGroup.candidates G).
    { intros j c Hjc. cbn. right. apply list_elem_of_fmap. by exists (j, c). }
    (* what holds after the inner loop, for the groups with [G] if formed *)
    assert (Hstep : ∀ groups' : list DuplicateGroup.t,
      (∀ g, g ∈ groups → g ∈ groups') →
      (added ≠ [] → G ∈ groups') →
      (∀ p q cp cq,
         (S i <= p)%nat → (S i <= q)%nat →
         candidates !! p = Some cp → candidates !! q = Some cq →
         twins self h cp cq →
         p ∈ list_to_set (C := gset nat) added.*1 ∪ ({[i]} ∪ processed) →
         q ∈ list_to_set (C := gset nat) added.*1 ∪ ({[i]} ∪ processed)
         ∧ ∃ g, g ∈ groups' ∧ cp ∈ DuplicateGroup.candidates g
                ∧ cq ∈ DuplicateGroup.candidates g)
      ∧ (∀ p q cp cq,
           (p < q)%nat → (p < S i)%nat →
           candidates !! p = Some cp → candidates !! q = Some cq →
           twins self h cp cq →
           ∃ g, g ∈ groups' ∧ cp ∈ DuplicateGroup.candidates g
                ∧ cq ∈ DuplicateGroup.candidates g)).
    { intros groups' Hold HG. split.
      - intros p q cp cq Hp Hq Hcp Hcq Ht Hin.
        destruct (decide (p ∈ processed)) as [Hpp|Hpn].
        { destruct (HA p q cp cq) as (Hqp & g & Hg & ?); try done; try lia.
          split; [set_solver|]. exists g. split; [by apply Hold|done]. }
        assert (Hpa : p ∈ added.*1) by (assert (p ≠ i) by lia; set_solver).
        apply list_elem_of_fmap in Hpa as ([p' cp'] & -> & Hin').
        destruct (Hpos _ _ Hin') as [_ Hcp']. cbn in Hcp.
        assert (cp' = cp) as -> by congruence.
        destruct (Hadded _ _ Hin') as (_ & sp & Hsp & Hnep & Hsimp).
        destruct (twins_similar hash1 cp cq sp Ht Hsp)
          as (sq & Hsq & _ & Hneq & _ & Hsame).
        assert (Hqn : q ∉ processed).
        { intros Hqp. apply Hpn. cbn in Hp |- *.
          destruct (HA q p' cq cp) as [? _]; try done; try lia.
          by apply twins_sym. }
        assert (Hqa : (q, cq) ∈ added)
          by (apply (Hjoin q cq sq); try done; by rewrite <- Hsame).
        split.
        + apply elem_of_union. left. apply elem_of_list_to_set.
          apply list_elem_of_fmap. by exists (q, cq).
        + exists G. split; [apply HG; intros ->; by apply elem_of_nil in Hqa|].
          split; by eapply HinG.
      - intros p q cp cq Hpq Hp Hcp Hcq Ht.
        destruct (decide (p = i)) as [->|Hne].
        + assert (cp = c1) as -> by congruence.
          destruct (twins_similar hash1 c1 cq hash1 Ht Hhash1)
            as (sq & Hsq & _ & Hneq & Hsim & _).
          assert (Hqn : q ∉ processed).
          { intros Hqp. apply Hi.
            destruct (HA q i cq c1) as [? _]; try done; try lia.
            by apply twins_sym. }
          assert (Hqa : (q, cq) ∈ added)
            by (apply (Hjoin q cq sq); try done; lia).
          exists G. split; [apply HG; intros ->; by apply elem_of_nil in Hqa|].
          split; [cbn; by left|by eapply HinG].
        + destruct (HB p q cp cq) as (g & Hg & ?); try done; [lia|].
          exists g. split; [by apply Hold|done]. }
    destruct added as [|[j0 c0] added'] eqn:Hadd.
    + cbn [fmap list_fmap app length Nat.ltb Nat.leb].
      destruct (Hstep groups) as [HA' HB']; [done|done|].
      destruct (IH (S i) groups
                  (list_to_set (C := gset nat) [] ∪ ({[i]} ∪ processed)))
        as (new & Hnew & Hcov); [lia|exact HA'|exact HB'|].
      exists new. by split.
    + rewrite <- Hadd in *.
      assert (Hlen : (1 <? length ([c1] ++ added.*2))%nat = true)
        by (by rewrite Hadd).
      rewrite Hlen. fold G.
      destruct (Hstep (groups ++ [G])%list) as [HA' HB'].
      { intros g Hg. apply elem_of_app. by left. }
      { intros _. apply elem_of_app. right. by left. }
      destruct (IH (S i) (groups ++ [G])%list
                  (list_to_set (C := gset nat) added.*1
                   ∪ ({[i]} ∪ processed)))
        as (new & Hnew & Hcov); [lia|exact HA'|exact HB'|].
      exists ([G] ++ new)%list. rewrite app_assoc. by split.
  - apply (unskipped_None h) in Hskip.
    destruct (IH (S i) groups processed) as (new & Hnew & Hcov); [lia| | |].
    + intros p q cp cq Hp Hq. apply HA; lia.
    + intros p q cp cq Hpq Hp Hcp Hcq Ht.
      destruct (decide (p = i)) as [->|Hne].
      * assert (cp = c1) as -> by congruence.
        destruct Hskip as [Hin|Hno].
        -- by destruct (HA i q c1 cq) as (_ & ?); try done; try lia.
        -- exfalso. apply Hno. destruct Ht as (s1 & s2 & H1 & _ & Hd).
           exists s1. split; [done|].
           by apply distance_zero_value in Hd as (z & ? & _).
      * apply (HB p q cp cq); try done. lia.
    + exists new. by split.
Qed.

End Twins.

(** X25: with a threshold that is not negative, two listed candidates
    whose fingerprints are at distance 0 are never separated:
    [find_duplicates] returns, and one of its groups holds both. *)
Theorem find_duplicates_twins_together (self : DuplicateDetector.t)
    (h : heap) (candidates : list ref) :
  0 <= DuplicateDetector.threshold self →
  ∃ groups,
    DuplicateDetector.find_duplicates self h candidates = Ok groups
    ∧ ∀ p q cp cq,
        (p < q)%nat →
        candidates !! p = Some cp → candidates !! q = Some cq →
        twins self h cp cq →
        ∃ g, g ∈ groups ∧ cp ∈ DuplicateGroup.candidates g
             ∧ cq ∈ DuplicateGroup.candidates g.
Proof.
  intros Ht.
  destruct (find_groups_twins self h candidates Ht (length candidates) 0 [] ∅)
    as (new & Hres & Hcov); [done| | |].
  - intros p q cp cq _ _ _ _ _ Hp. by apply elem_of_empty in Hp.
  - intros p q cp cq _ Hp. lia.
  - rewrite drop_0, app_nil_l in Hres. rewrite app_nil_l in Hcov.
    by exists new.
Qed.

Lemma find_duplicates_twins_together_witness :
  ∃ groups,
    DuplicateDetector.find_duplicates example_detector example_store
      [0; 2; 0]%nat = Ok groups
    ∧ ∀ p q cp cq,
        (p < q)%nat →
        [0; 2; 0]%nat !! p = Some cp → [0; 2; 0]%nat !! q = Some cq →
        twins example_detector example_store cp cq →
        ∃ g, g ∈ groups ∧ cp ∈ DuplicateGroup.candidates g
             ∧ cq ∈ DuplicateGroup.candidates g.
Proof.
  apply (find_duplicates_twins_together example_detector example_store
           [0; 2; 0]%nat).
  vm_compute. discriminate.
Defined.

(** X26: with threshold 0 the groups of [find_duplicates] hold only
    candidates whose fingerprints are at distance 0 from one another:
    the same length and the same value. *)
Theorem find_duplicates_threshold_zero (self : DuplicateDetector.t)
    (h : heap) (candidates : list ref) :
  DuplicateDetector.threshold self = 0 →
  ∃ groups,
    DuplicateDetector.find_duplicates self h candidates = Ok groups
    ∧ ∀ g c1 c2,
        g ∈ groups → c1 ∈ DuplicateGroup.candidates g →
        c2 ∈ DuplicateGroup.candidates g →
        twins self h c1 c2.
Proof.
  intros Ht.
  destruct (find_groups_spec self h candidates (length candidates) 0 [] ∅)
    as (new & Hres & Hnew & _); [done| |].
  { intros g a j c Hg. by apply elem_of_nil in Hg. }
  rewrite drop_0, app_nil_l in Hres. exists new. split; [exact Hres|].
  intros g c1 c2 Hg Hc1 Hc2.
  rewrite Forall_forall in Hnew.
  destruct (Hnew g Hg) as (_ & (a & rest & Hmem & Hrest & Hfp & Hsim) & _).
  destruct (Hfp a) as (ha & Hha & Hnea); [rewrite Hmem; by left|].
  (* every member is a twin of the anchor *)
  assert (Hanchor : ∀ c, c ∈ DuplicateGroup.candidates g →
    ∃ s z, image_hash (h c) = Some s ∧ s ≠ ""
           ∧ String.length ha = String.length s
           ∧ py_int16 ha = Ok z ∧ py_int16 s = Ok z).
  { assert (Hone : ∀ c, c ∈ rest →
      ∃ s z, image_hash (h c) = Some s ∧ s ≠ ""
             ∧ String.length ha = String.length s
             ∧ py_int16 ha = Ok z ∧ py_int16 s = Ok z).
    { intros c Hc. destruct (Hsim c Hc) as (ha' & hc & Hha' & Hhc & Hs).
      assert (ha' = ha) as -> by congruence.
      apply are_similar_true in Hs as (n & Hn & Hle).
      assert (n = 0) as ->.
      { pose proof Hn as Hb.
        apply calculate_hamming_distance_bits in Hb
          as (z1 & z2 & _ & _ & _ & _ & _ & ->).
        pose proof (str_count_nonneg (bin (Z.lxor z1 z2)) "1"). lia. }
      apply distance_zero_value in Hn as (z & ? & ? & ? & ? & ?).
      by exists hc, z. }
    intros c Hc. rewrite Hmem in Hc.
    apply elem_of_cons in Hc as [->|Hc]; [|by apply Hone].
    destruct rest as [|c0 rest]; [done|].
    destruct (Hone c0) as (s0 & z & _ & _ & _ & Hz & _); [by left|].
    by exists ha, z. }
  destruct (Hanchor c1 Hc1) as (s1 & z1 & Hs1 & Hn1 & Hl1 & Hza & Hz1).
  destruct (Hanchor c2 Hc2) as (s2 & z2 & Hs2 & Hn2 & Hl2 & Hza' & Hz2).
  assert (z2 = z1) as -> by congruence.
  exists s1, s2. split; [done|]. split; [done|].
  apply distance_zero_value. exists z1. repeat split; try done. congruence.
Qed.

Lemma find_duplicates_threshold_zero_witness :
  ∃ groups,
    DuplicateDetector.find_duplicates
      (DuplicateDetector.mk "dhash" 0 ["dhash"]) example_store
      [0; 1; 0]%nat = Ok groups
    ∧ ∀ g c1 c2,
        g ∈ groups → c1 ∈ DuplicateGroup.candidates g →
        c2 ∈ DuplicateGroup.candidates g →
        twins (DuplicateDetector.mk "dhash" 0 ["dhash"]) example_store c1 c2.
Proof.
  apply (find_duplicates_threshold_zero
           (DuplicateDetector.mk "dhash" 0 ["dhash"]) example_store
           [0; 1; 0]%nat).
  reflexivity.
Defined.
